(** * Verification of the Nginx log watcher (watcher.py)

    A shallow embedding of [LogWatcher] and the proofs of its specified
    properties.  A float is held as the rational it stands for: the clock
    readings and the threshold are taken as they come, and the error rate
    is rounded as binary64 arithmetic rounds it ([fl64]).  A JSON float
    also has its two infinities and NaN, because [int()] treats them
    apart. *)

From Stdlib Require Import ZArith QArith Qfield Lia Lqa Ascii String.
From stdpp Require Import base option list strings gmap.

#[local] Set Warnings "-register-all".
Open Scope Z_scope.

(** ** Python values and exceptions *)

(** The exception classes the watcher can meet. *)
Inductive exn :=
  | JSONDecodeError
  | ValueError
  | TypeError
  | OverflowError
  | AttributeError
  | RecursionError
  | UnicodeEncodeError
  | SystemExit (code : Z).

(** [JSONDecodeError] and [UnicodeEncodeError] are subclasses of
    [ValueError]; the other classes are unrelated to one another. *)
Definition isinstance (e cls : exn) : bool :=
  match e, cls with
  | JSONDecodeError, (JSONDecodeError | ValueError) => true
  | UnicodeEncodeError, (UnicodeEncodeError | ValueError) => true
  | ValueError, ValueError => true
  | TypeError, TypeError => true
  | OverflowError, OverflowError => true
  | AttributeError, AttributeError => true
  | RecursionError, RecursionError => true
  | SystemExit _, SystemExit _ => true
  | _, _ => false
  end.

(** The result of evaluating an expression: a value or a raised exception. *)
Inductive outcome (A : Type) :=
  | Return (a : A)
  | Raise (e : exn).
Arguments Return {A} a.
Arguments Raise {A} e.

(** A Python float as [json.loads] can produce it. *)
Inductive pyfloat :=
  | Finite (q : Q)
  | Infinity (negative : bool)
  | NaN.

(** The values [json.loads] returns. *)
Inductive json :=
  | JNull
  | JBool (b : bool)
  | JInt (z : Z)
  | JFloat (f : pyfloat)
  | JStr (s : string)
  | JList (l : list json)
  | JDict (d : gmap string json).

(** Truth value of a decoded value, as [if entry:] tests it. *)
Definition truthy (v : json) : bool :=
  match v with
  | JNull => false
  | JBool b => b
  | JInt z => negb (z =? 0)
  | JFloat (Finite q) => negb (Qeq_bool q 0)
  | JFloat _ => true
  | JStr s => negb (String.eqb s EmptyString)
  | JList l => match l with [] => false | _ => true end
  | JDict d => negb (Nat.eqb (size d) 0)
  end.

(** [int(v)] on a decoded value; [int_of_str] is the runtime's parser of
    integer literals held in a [str] ([None] stands for its [ValueError]). *)
Definition py_int (int_of_str : string → option Z) (v : json) : outcome Z :=
  match v with
  | JInt z => Return z
  | JBool b => Return (if b then 1 else 0)
  | JFloat (Finite q) => Return (Z.quot (Qnum q) (Z.pos (Qden q)))
  | JFloat (Infinity _) => Raise OverflowError
  | JFloat NaN => Raise ValueError
  | JStr s => match int_of_str s with Some z => Return z | None => Raise ValueError end
  | JNull | JList _ | JDict _ => Raise TypeError
  end.

(** [format(v, "5s")] and [format(v, "3s")]: the presentation type [s] is
    accepted for a [str] only; numbers answer [ValueError], the other types
    [TypeError].  The padding to the width is not kept. *)
Definition format_s (v : json) : outcome string :=
  match v with
  | JStr s => Return s
  | JBool _ | JInt _ | JFloat _ => Raise ValueError
  | JNull | JList _ | JDict _ => Raise TypeError
  end.

(** ** Text

    A [str] is held as its UTF-8 bytes; a lone surrogate, which
    [json.loads] makes of an escape like [\ud800], as the three bytes
    ED A0..BF 80..BF. *)

Definition byte_of (a : ascii) : Z := Z.of_nat (nat_of_ascii a).

(** The bytes 80..BF continue a character. *)
Definition is_continuation (a : ascii) : bool :=
  (128 <=? byte_of a) && (byte_of a <? 192).

(** [s[:n]]: the first [n] characters of [s]. *)
Fixpoint take_chars (n : nat) (s : string) : string :=
  match s with
  | EmptyString => EmptyString
  | String a rest =>
      if is_continuation a then String a (take_chars n rest)
      else match n with
           | O => EmptyString
           | S n' => String a (take_chars n' rest)
           end
  end.

(** What [sys.stdout] does with a character it cannot encode, by its
    [errors] setting: [strict] (the default), [surrogateescape] (the
    default in the C and POSIX locales and in UTF-8 mode), or a handler
    that never fails ([replace], [backslashreplace] and the like, set
    through PYTHONIOENCODING).  The encoding is UTF-8: the watcher prints
    emoji from its first line on. *)
Inductive error_handler := Strict | SurrogateEscape | Replace.

(** A surrogate with second byte [b]: [surrogateescape] writes the
    surrogates U+DC80..U+DCFF (second byte B2 or B3) as the bytes 80..FF
    and fails on the others. *)
Definition surrogate_passes (h : error_handler) (b : Z) : bool :=
  match h with
  | Strict => false
  | SurrogateEscape => (b =? 178) || (b =? 179)
  | Replace => true
  end.

(** Whether [s] can be written to [sys.stdout]: UTF-8 encodes every
    character but the surrogates. *)
Fixpoint encodable (h : error_handler) (s : string) : bool :=
  match s with
  | String a (String b _ as rest) =>
      (negb ((byte_of a =? 237) && (160 <=? byte_of b)) ||
       surrogate_passes h (byte_of b)) && encodable h rest
  | _ => true
  end.

(** [sys.stdout.write(text)], as far as it can fail: [texts] are the
    strings interpolated as they are. *)
Definition stdout_write (h : error_handler) (texts : list string) : outcome unit :=
  if forallb (encodable h) texts then Return () else Raise UnicodeEncodeError.

(** The part of [str(v)] that is shown as it is: a [str] itself.  The
    text of a number has no surrogate, and the [repr] of a list or a dict
    escapes the surrogates of the strings inside. *)
Definition shown (v : json) : string :=
  match v with JStr s => s | _ => EmptyString end.

(** [v[:n]]: defined on sequences.  (On a dict the error is a [TypeError]
    up to Python 3.11 and a [KeyError] from 3.12 on; nothing catches it.) *)
Definition slice_to (n : nat) (v : json) : outcome json :=
  match v with
  | JStr s => Return (JStr (take_chars n s))
  | JList l => Return (JList (take n l))
  | _ => Raise TypeError
  end.

(** ** Floats *)

(** [x > y] on floats. *)
Definition Qgt_bool (x y : Q) : bool := negb (Qle_bool x y).

(** The integer nearest to [x / y], for [0 <= x] and [0 < y]; of two
    nearest ones the even one. *)
Definition nearest_even (x y : Z) : Z :=
  let q := x / y in
  match 2 * (x mod y) ?= y with
  | Lt => q
  | Gt => q + 1
  | Eq => if Z.even q then q else q + 1
  end.

(** [x / y < 2 ^ l] *)
Definition below_pow2 (x y l : Z) : bool :=
  if 0 <=? l then x <? y * 2 ^ l else x * 2 ^ (- l) <? y.

(** The exponent [e] of the last bit of the binary64 number nearest to
    [x / y], for [0 < x] and [0 < y]: the 53 bits of the significand give
    [2 ^ 52 <= (x / y) / 2 ^ e < 2 ^ 53], and [e] stops at -1074 (the
    subnormal numbers). *)
Definition ulp_exponent (x y : Z) : Z :=
  let l := Z.log2 x - Z.log2 y in
  let l := if below_pow2 x y l then l - 1 else l in
  Z.max (l - 52) (-1074).

Definition fl64_pos (x y : Z) : Q :=
  let e := ulp_exponent x y in
  if 0 <=? e then inject_Z (nearest_even x (y * 2 ^ e) * 2 ^ e)
  else Qred (nearest_even (x * 2 ^ (- e)) y # Z.to_pos (2 ^ (- e))).

(** The binary64 number a real result [q] is rounded to (to nearest, ties
    to even), as the division of two [int]s and the product of two floats
    round theirs.  The overflow past 2^1024 is left out: the watcher
    rounds percentages. *)
Definition fl64 (q : Q) : Q :=
  match Qnum q with
  | Z0 => 0
  | Zpos p => fl64_pos (Zpos p) (Zpos (Qden q))
  | Zneg p => - fl64_pos (Zpos p) (Zpos (Qden q))
  end.

(** The part of a number that one rounding can move it by, and a bound
    on what two roundings in a row can. *)
Definition u53 : Q := 1 # 2 ^ 53.
Definition two_roundings : Q := 1 # 2 ^ 51.

(** ** collections.deque with a maximum length *)

Record deque := { maxlen : nat; items : list Z }.

Definition deque_new (n : nat) : deque := {| maxlen := n; items := [] |}.

(** [d.append(x)]: the element is added on the right; when the length then
    exceeds [maxlen] one element is removed from the left. *)
Definition deque_append (d : deque) (x : Z) : deque :=
  let l := items d ++ [x] in
  {| maxlen := maxlen d;
     items := if (maxlen d <? length l)%nat then tail l else l |}.

Definition deque_len (d : deque) : nat := length (items d).

(** ** The watcher object, its output and its environment *)

(** The attributes [__init__] sets on [self]. *)
Record LogWatcher := {
  slack_webhook : string;
  error_threshold : Q;
  window_size : Z;
  cooldown : Z;
  log_path : string;
  read_existing : bool;
  last_pool : option string;
  request_window : deque;
  last_failover_alert : Q;
  last_error_alert : Q;
  maintenance_mode : bool
}.

Definition set_last_pool (p : string) (s : LogWatcher) : LogWatcher :=
  {| slack_webhook := slack_webhook s; error_threshold := error_threshold s;
     window_size := window_size s; cooldown := cooldown s;
     log_path := log_path s; read_existing := read_existing s;
     last_pool := Some p; request_window := request_window s;
     last_failover_alert := last_failover_alert s;
     last_error_alert := last_error_alert s;
     maintenance_mode := maintenance_mode s |}.

Definition set_request_window (d : deque) (s : LogWatcher) : LogWatcher :=
  {| slack_webhook := slack_webhook s; error_threshold := error_threshold s;
     window_size := window_size s; cooldown := cooldown s;
     log_path := log_path s; read_existing := read_existing s;
     last_pool := last_pool s; request_window := d;
     last_failover_alert := last_failover_alert s;
     last_error_alert := last_error_alert s;
     maintenance_mode := maintenance_mode s |}.

(** [self.request_window.append(status)] *)
Definition window_append (status : Z) (s : LogWatcher) : LogWatcher :=
  set_request_window (deque_append (request_window s) status) s.

Definition set_last_failover_alert (t : Q) (s : LogWatcher) : LogWatcher :=
  {| slack_webhook := slack_webhook s; error_threshold := error_threshold s;
     window_size := window_size s; cooldown := cooldown s;
     log_path := log_path s; read_existing := read_existing s;
     last_pool := last_pool s; request_window := request_window s;
     last_failover_alert := t;
     last_error_alert := last_error_alert s;
     maintenance_mode := maintenance_mode s |}.

Definition set_last_error_alert (t : Q) (s : LogWatcher) : LogWatcher :=
  {| slack_webhook := slack_webhook s; error_threshold := error_threshold s;
     window_size := window_size s; cooldown := cooldown s;
     log_path := log_path s; read_existing := read_existing s;
     last_pool := last_pool s; request_window := request_window s;
     last_failover_alert := last_failover_alert s;
     last_error_alert := t;
     maintenance_mode := maintenance_mode s |}.

Definition set_maintenance_mode (b : bool) (s : LogWatcher) : LogWatcher :=
  {| slack_webhook := slack_webhook s; error_threshold := error_threshold s;
     window_size := window_size s; cooldown := cooldown s;
     log_path := log_path s; read_existing := read_existing s;
     last_pool := last_pool s; request_window := request_window s;
     last_failover_alert := last_failover_alert s;
     last_error_alert := last_error_alert s;
     maintenance_mode := b |}.

(** Formatted text is kept as the template with the values it interpolates. *)
Inductive text :=
  | Plain (s : string)
  | TrafficSwitched (previous current : string)
  | ErrorRateIs (error_rate threshold : Q)
  | RequestsOf (error_count total : nat)
  | Percent (error_rate : Q)
  | WindowOf (size : Z)
  | WallClock.

Record field := { f_title : string; f_value : text; f_short : bool }.

(** The JSON body of the webhook call: one attachment. *)
Record payload := {
  p_color : string;
  p_title : string;
  p_text : text;
  p_footer : string;
  p_ts : Z;
  p_fields : option (list field)
}.

(** One call of [requests.post]. *)
Record request := { r_url : string; r_json : payload; r_timeout : Z }.

(** What [requests.post] answers: a response with its status code, or an
    exception (caught by [except Exception]). *)
Inductive post_result :=
  | Response (status_code : Z)
  | PostRaised.

Inductive status_emoji := EmojiOk | EmojiWarn | EmojiErr.

(** The lines the watcher prints, one constructor for each [print]. *)
Inductive message :=
  | AlertSuppressed (title : string)
  | AlertSent (title : string)
  | SlackError (status_code : Z)
  | FailedToSend
  | InitialPool (pool : string)
  | FailoverLine (previous current : string)
  | HighErrorRate (error_rate : Q)
  | LogLine (emoji : status_emoji) (pool : string) (status : Z)
      (upstream_status : string) (request_time request : json)
  | FatalError (e : exn).

(** What the process does not decide: the successive readings of
    [time.time()], the successive answers of the webhook, the
    interpreter's [int()] on strings, and the error handler of
    [sys.stdout]. *)
Record Runtime := {
  time_time : nat → Q;
  requests_post : nat → post_result;
  int_of_str : string → option Z;
  stdout_errors : error_handler
}.

(** The state a method runs in: the object, the number of clock readings
    taken so far, the lines printed and the webhook calls made (both oldest
    first). *)
Record World := {
  self : LogWatcher;
  clock_reads : nat;
  stdout : list message;
  network : list request
}.

(** ** Methods as state transformers that may raise

    An exception leaves the state as it was when it was raised. *)

Definition M (A : Type) : Type := World → outcome A * World.

#[export] Instance M_ret : MRet M := λ A a w, (Return a, w).
#[export] Instance M_bind : MBind M := λ A B k m w,
  match m w with
  | (Return a, w') => k a w'
  | (Raise e, w') => (Raise e, w')
  end.

Definition lift {A} (o : outcome A) : M A := λ w, (o, w).

Definition get_self : M LogWatcher := λ w, (Return (self w), w).

(** The state after an assignment to attributes of [self]. *)
Definition with_self (f : LogWatcher → LogWatcher) (w : World) : World :=
  {| self := f (self w); clock_reads := clock_reads w;
     stdout := stdout w; network := network w |}.

(** The state after a line is printed. *)
Definition printed (m : message) (w : World) : World :=
  {| self := self w; clock_reads := clock_reads w;
     stdout := stdout w ++ [m]; network := network w |}.

(** The state after the clock is read. *)
Definition ticked (w : World) : World :=
  {| self := self w; clock_reads := S (clock_reads w);
     stdout := stdout w; network := network w |}.

(** The state after a webhook call. *)
Definition posted (r : request) (w : World) : World :=
  {| self := self w; clock_reads := clock_reads w;
     stdout := stdout w; network := network w ++ [r] |}.

Definition modify_self (f : LogWatcher → LogWatcher) : M unit :=
  λ w, (Return (), with_self f w).

(** [print] of a line whose text [sys.stdout] can encode: fixed text,
    numbers, and text that has been printed before.  The line that shows
    the text of an entry first is written through [stdout_write]. *)
Definition print (m : message) : M unit := λ w, (Return (), printed m w).

Section Watcher.

Variable rt : Runtime.

(** [time.time()]: the next reading of the clock. *)
Definition now_time : M Q := λ w,
  (Return (time_time rt (clock_reads w)), ticked w).

(** [requests.post(url, json=payload, timeout=5)] *)
Definition post (url : string) (p : payload) : M post_result := λ w,
  (Return (requests_post rt (length (network w))),
   posted {| r_url := url; r_json := p; r_timeout := 5 |} w).

(** [int(x)] on a float, as used for the payload's [ts]. *)
Definition int_of_float (q : Q) : Z := Z.quot (Qnum q) (Z.pos (Qden q)).

Definition send_slack_alert (title : string) (msg : text) (color : string)
    (fields : list field) : M unit :=
  s ← get_self;
  if maintenance_mode s then
    print (AlertSuppressed title)
  else
    ts ← now_time;
    let p := {| p_color := color; p_title := title; p_text := msg;
                p_footer := "Backend.im Alert System";
                p_ts := int_of_float ts;
                p_fields := match fields with [] => None | _ => Some fields end |} in
    r ← post (slack_webhook s) p;
    match r with
    | Response code =>
        if code =? 200 then print (AlertSent title) else print (SlackError code)
    | PostRaised => print FailedToSend
    end.

Definition failover_title : string := "🔄 Failover Detected".
Definition error_rate_title : string := "⚠️ High Error Rate Detected".

(** The [fields] argument of the failover alert. *)
Definition failover_fields (previous pool : string) : list field :=
  [ {| f_title := "Previous Pool"; f_value := Plain previous; f_short := true |};
    {| f_title := "Current Pool"; f_value := Plain pool; f_short := true |};
    {| f_title := "Timestamp"; f_value := WallClock; f_short := false |} ].

Definition check_failover (pool : string) : M unit :=
  s ← get_self;
  match last_pool s with
  | None =>
      modify_self (set_last_pool pool);;
      print (InitialPool pool)
  | Some previous =>
      if negb (String.eqb pool previous) then
        now ← now_time;
        (if Qgt_bool (now - last_failover_alert s) (inject_Z (cooldown s)) then
           print (FailoverLine previous pool);;
           send_slack_alert failover_title (TrafficSwitched previous pool)
             "warning" (failover_fields previous pool);;
           modify_self (set_last_failover_alert now)
         else mret ());;
        modify_self (set_last_pool pool)
      else mret ()
  end.

(** [sum(1 for status in self.request_window if status >= 500)] *)
Definition error_count (d : deque) : nat :=
  length (filter (λ status, 500 <= status) (items d)).

(** [(error_count / total) * 100]: the quotient of the two [int]s is
    rounded to a float, and so is its product with 100. *)
Definition error_rate_of (d : deque) : Q :=
  fl64 (fl64 (inject_Z (Z.of_nat (error_count d)) /
              inject_Z (Z.of_nat (deque_len d))) * 100)%Q.

(** [self.last_pool or "unknown"] *)
Definition or_unknown (p : option string) : string :=
  match p with
  | Some s => if String.eqb s EmptyString then "unknown" else s
  | None => "unknown"
  end.

(** The [fields] argument of the error-rate alert. *)
Definition error_rate_fields (s : LogWatcher) : list field :=
  let d := request_window s in
  [ {| f_title := "Error Count";
       f_value := RequestsOf (error_count d) (deque_len d); f_short := true |};
    {| f_title := "Error Rate"; f_value := Percent (error_rate_of d); f_short := true |};
    {| f_title := "Window Size"; f_value := WindowOf (window_size s); f_short := true |};
    {| f_title := "Current Pool"; f_value := Plain (or_unknown (last_pool s));
       f_short := true |} ].

Definition check_error_rate : M unit :=
  s ← get_self;
  if (deque_len (request_window s) <? 10)%nat then mret ()
  else
    let error_rate := error_rate_of (request_window s) in
    if Qgt_bool error_rate (error_threshold s) then
      now ← now_time;
      if Qgt_bool (now - last_error_alert s) (inject_Z (cooldown s)) then
        print (HighErrorRate error_rate);;
        send_slack_alert error_rate_title
          (ErrorRateIs error_rate (error_threshold s)) "danger"
          (error_rate_fields s);;
        modify_self (set_last_error_alert now)
      else mret ()
    else mret ().

(** A line of the log is taken as what [json.loads(line.strip())] does with
    it: the decoded value, or the exception the decoder raises. *)
Definition line := outcome json.

Definition parse_log_line (l : line) : outcome json :=
  match l with
  | Return v => Return v
  | Raise e => if isinstance e JSONDecodeError then Return JNull else Raise e
  end.

(** [entry.get(key, dflt)]: only a dict has the method. *)
Definition entry_get (entry : json) (key : string) (dflt : json) : outcome json :=
  match entry with
  | JDict d => Return (default dflt (d !! key))
  | _ => Raise AttributeError
  end.

(** [pool in ['unknown', '-', '', None]] *)
Definition untracked_pool (pool : json) : bool :=
  match pool with
  | JStr s => String.eqb s "unknown" || String.eqb s "-" || String.eqb s EmptyString
  | JNull => true
  | _ => false
  end.

(** The [try: status = int(status)] block with its handler for
    [ValueError] and [TypeError]. *)
Definition coerce_status (v : json) : outcome Z :=
  match py_int (int_of_str rt) v with
  | Return z => Return z
  | Raise e =>
      if isinstance e ValueError || isinstance e TypeError then Return 0
      else Raise e
  end.

Definition emoji_of (status : Z) : status_emoji :=
  if status <? 400 then EmojiOk
  else if status <? 500 then EmojiWarn
  else EmojiErr.

Definition process_log_entry (entry : json) : M unit :=
  pool ← lift (entry_get entry "pool" (JStr "unknown"));
  status ← lift (entry_get entry "status" (JInt 0));
  upstream_status ← lift (entry_get entry "upstream_status" (JStr "-"));
  request_time ← lift (entry_get entry "request_time" (JInt 0));
  request ← lift (entry_get entry "request" (JStr "-"));
  if untracked_pool pool then mret ()
  else
    status ← lift (coerce_status status);
    (* the f-string of the log line, its fields formatted left to right *)
    pool_s ← lift (format_s pool);
    upstream_s ← lift (format_s upstream_status);
    request_50 ← lift (slice_to 50 request);
    lift (stdout_write (stdout_errors rt)
            [pool_s; upstream_s; shown request_time; shown request_50]);;
    print (LogLine (emoji_of status) pool_s status upstream_s request_time request_50);;
    modify_self (window_append status);;
    check_failover pool_s;;
    check_error_rate.

(** The body of both reading loops of [tail_log] for one line read. *)
Definition handle_line (l : line) : M unit :=
  entry ← lift (parse_log_line l);
  if truthy entry then process_log_entry entry else mret ().

(** [tail_log] over the lines that have been written so far. *)
Fixpoint tail_log (lines : list line) : M unit :=
  match lines with
  | [] => mret ()
  | l :: rest => handle_line l;; tail_log rest
  end.

(** [run]: an exception out of [tail_log] is printed and the process exits
    with status 1; otherwise the watcher is still waiting for a line. *)
Definition run (lines : list line) (w : World) : option Z * World :=
  match tail_log lines w with
  | (Return _, w') => (None, w')
  | (Raise e, w') => (Some 1, snd (print (FatalError e) w'))
  end.

End Watcher.

(** [LogWatcher.__init__] on the values read from the environment (the
    banner it prints is left out).  [deque] refuses a negative
    [WINDOW_SIZE] with [ValueError] and one that does not fit its signed
    64-bit length with [OverflowError]; a missing or empty webhook ends the
    process. *)
Definition LogWatcher_init (webhook : option string) (threshold : Q)
    (size cooldown_sec : Z) (path : string) (existing maintenance : bool)
    : outcome LogWatcher :=
  if size <? 0 then Raise ValueError
  else if 2 ^ 63 <=? size then Raise OverflowError
  else
    match webhook with
    | None => Raise (SystemExit 1)
    | Some url =>
        if String.eqb url EmptyString then Raise (SystemExit 1)
        else Return {|
          slack_webhook := url; error_threshold := threshold;
          window_size := size; cooldown := cooldown_sec;
          log_path := path; read_existing := existing;
          last_pool := None; request_window := deque_new (Z.to_nat size);
          last_failover_alert := 0; last_error_alert := 0;
          maintenance_mode := maintenance |}
    end.

Definition start (s : LogWatcher) : World :=
  {| self := s; clock_reads := 0; stdout := []; network := [] |}.

(** ** Observations on a run *)

Definition is_suppressed (title : string) (m : message) : bool :=
  match m with
  | AlertSuppressed t => String.eqb t title
  | _ => false
  end.

Definition is_call (title : string) (r : request) : bool :=
  String.eqb (p_title (r_json r)) title.

(** The number of times [send_slack_alert] was called with [title]: every
    call leaves either its "suppressed" line or its webhook call. *)
Definition alerts_dispatched (title : string) (w : World) : nat :=
  (length (filter (λ m, is_suppressed title m = true) (stdout w)) +
   length (filter (λ r, is_call title r = true) (network w)))%nat.

Definition failover_alerts (w : World) : nat :=
  alerts_dispatched failover_title w.

Definition error_rate_alerts (w : World) : nat :=
  alerts_dispatched error_rate_title w.

(** The tracked state of the specification: the rolling window, the last
    pool and the two cooldown timestamps. *)
Definition tracked (w : World) : deque * option string * Q * Q :=
  (request_window (self w), last_pool (self w),
   last_failover_alert (self w), last_error_alert (self w)).

(** What the failover detector rests on: the last pool, the time of the
    last failover alert, the cooldown and the failover alerts so far. *)
Definition failover_view (w : World) : option string * Q * Z * nat :=
  (last_pool (self w), last_failover_alert (self w), cooldown (self w),
   failover_alerts w).

(** Shapes of a decoded field. *)
Definition is_str (v : json) : bool :=
  match v with JStr _ => true | _ => false end.

Definition is_str_or_list (v : json) : bool :=
  match v with JStr _ | JList _ => true | _ => false end.

Definition is_infinite (v : json) : bool :=
  match v with JFloat (Infinity _) => true | _ => false end.

(** The window is within the capacity configured at start-up. *)
Definition window_ok (w : World) : Prop :=
  maxlen (request_window (self w)) = Z.to_nat (window_size (self w)) ∧
  (deque_len (request_window (self w)) ≤ maxlen (request_window (self w)))%nat.

(** The attributes that are configuration: no method assigns them. *)
Definition same_config (s s' : LogWatcher) : Prop :=
  slack_webhook s' = slack_webhook s ∧ error_threshold s' = error_threshold s ∧
  window_size s' = window_size s ∧ cooldown s' = cooldown s ∧
  maintenance_mode s' = maintenance_mode s.

(** What every method guarantees between the state it starts in and the
    state it leaves: the configuration is kept, no webhook call is made in
    maintenance mode, and the window stays within its capacity. *)
Definition step_ok (w w' : World) : Prop :=
  same_config (self w) (self w') ∧
  (maintenance_mode (self w) = true → network w' = network w) ∧
  (window_ok w → window_ok w').

(** The error rate in the words of the specification:
    none below 10 statuses, else [100 * count(status >= 500) / length]. *)
Definition spec_error_rate (statuses : list Z) : option Q :=
  let errors := Z.of_nat (length (filter (λ s : Z, 500 <= s) statuses)) in
  let len := Z.of_nat (length statuses) in
  if (length statuses <? 10)%nat then None
  else Some (100 * inject_Z errors / inject_Z len)%Q.

(** ** A concrete runtime, for evaluating the model *)

(** The characters of [s], as code points (the bytes are joined as UTF-8
    joins them; nothing is checked). *)
Fixpoint code_points (acc : list Z) (s : string) : list Z :=
  match s with
  | EmptyString => rev acc
  | String a rest =>
      let b := byte_of a in
      if b <? 128 then code_points (b :: acc) rest
      else if b <? 192 then
        match acc with
        | c :: acc' => code_points (c * 64 + (b - 128) :: acc') rest
        | [] => code_points [b - 128] rest
        end
      else if b <? 224 then code_points (b - 192 :: acc) rest
      else if b <? 240 then code_points (b - 224 :: acc) rest
      else code_points (b - 240 :: acc) rest
  end.

(** The characters with the decimal values 0 (Unicode 14.0, the tables of
    Python 3.11): each starts a run of the ten digits of a script. *)
Definition decimal_zeros : list Z :=
  [48; 1632; 1776; 1984; 2406; 2534; 2662; 2790; 2918; 3046; 3174; 3302;
   3430; 3558; 3664; 3792; 3872; 4160; 4240; 6112; 6160; 6470; 6608; 6784;
   6800; 6992; 7088; 7232; 7248; 42528; 43216; 43264; 43472; 43504; 43600;
   44016; 65296; 66720; 68912; 69734; 69872; 69942; 70096; 70384; 70736;
   70864; 71248; 71360; 71472; 71904; 72016; 72784; 73040; 73120; 92768;
   92864; 93008; 120782; 120792; 120802; 120812; 120822; 123200; 123632;
   125264; 130032].

(** The white space beyond ASCII. *)
Definition unicode_spaces : list Z :=
  [133; 160; 5760; 8192; 8193; 8194; 8195; 8196; 8197; 8198; 8199; 8200;
   8201; 8202; 8232; 8233; 8239; 8287; 12288].

Fixpoint decimal_of (zeros : list Z) (c : Z) : option Z :=
  match zeros with
  | [] => None
  | z :: zeros' =>
      if (z <=? c) && (c <? z + 10) then Some (c - z) else decimal_of zeros' c
  end.

(** What [int()] makes of a character before it parses: an ASCII
    character stays, a space becomes " ", a decimal digit of any script its
    ASCII digit, and any other character "?". *)
Definition to_ascii (c : Z) : Z :=
  if c <? 127 then c
  else if existsb (Z.eqb c) unicode_spaces then 32
  else match decimal_of decimal_zeros c with
       | Some d => 48 + d
       | None => 63
       end.

Definition is_space (c : Z) : bool := (c =? 32) || ((9 <=? c) && (c <=? 13)).

Fixpoint lstrip (l : list Z) : list Z :=
  match l with
  | c :: l' => if is_space c then lstrip l' else l
  | [] => []
  end.

Definition strip (l : list Z) : list Z := rev (lstrip (rev (lstrip l))).

(** Digits, with single underscores allowed between two digits; the value
    and the number of digits. *)
Fixpoint digits (acc count : Z) (after_digit : bool) (l : list Z) : option (Z * Z) :=
  match l with
  | [] => if after_digit then Some (acc, count) else None
  | c :: l' =>
      if (48 <=? c) && (c <=? 57) then digits (10 * acc + (c - 48)) (count + 1) true l'
      else if (c =? 95) && after_digit then digits acc count false l'
      else None
  end.

(** [sys.get_int_max_str_digits()], the default. *)
Definition max_str_digits : Z := 4300.

(** [int(s)] as CPython 3.11 does it: surrounding white space, an optional
    sign, decimal digits of any script, no more than [max_str_digits] of
    them. *)
Definition py_int_of_str (s : string) : option Z :=
  let l := strip (to_ascii <$> code_points [] s) in
  let '(sign, body) := match l with
                       | 45 :: l' => (-1, l')
                       | 43 :: l' => (1, l')
                       | _ => (1, l)
                       end in
  match digits 0 0 false body with
  | Some (z, count) => if count <=? max_str_digits then Some (sign * z) else None
  | None => None
  end.

(** A runtime with the given clock, whose webhook always answers 200 and
    whose [sys.stdout] has the default error handler. *)
Definition runtime_of (clock : nat → Q) : Runtime :=
  {| time_time := clock;
     requests_post := λ _, Response 200;
     int_of_str := py_int_of_str;
     stdout_errors := Strict |}.

(** The default configuration (window of 200, threshold 2%, cooldown 300 s)
    with a window size and a maintenance flag of choice. *)
Definition watcher_with (size : Z) (maintenance : bool) : LogWatcher :=
  {| slack_webhook := "https://hooks.slack.com/services/T/B/X";
     error_threshold := 2; window_size := size; cooldown := 300;
     log_path := "/var/log/nginx/access.log"; read_existing := true;
     last_pool := None; request_window := deque_new (Z.to_nat size);
     last_failover_alert := 0; last_error_alert := 0;
     maintenance_mode := maintenance |}.

(** A log entry with a pool and a status. *)
Definition entry_of (pool : string) (status : Z) : json :=
  JDict (<["pool" := JStr pool]> (<["status" := JInt status]> ∅)).

(** A clock that starts at 1 700 000 000 s and advances one second a reading. *)
Definition steady_clock : nat → Q := λ n, inject_Z (1700000000 + Z.of_nat n).

(** A started watcher whose window holds nine 200s and one 503. *)
Definition warm_world : World :=
  with_self (set_request_window {| maxlen := 200; items := replicate 9 200 ++ [503] |})
    (start (watcher_with 200 false)).

(** A clock that advances 100 s a reading. *)
Definition flapping_clock : nat → Q := λ n, inject_Z (1700000000 + 100 * Z.of_nat n).

(** A clock that advances 100 s a reading and jumps a further 400 s after
    its third reading. *)
Definition burst_clock : nat → Q := λ n,
  inject_Z (if (n <? 3)%nat then 1700000000 + 100 * Z.of_nat n
            else 1700000400 + 100 * Z.of_nat n).

(** Started watchers that have already seen the pool "blue". *)
Definition blue_world : World :=
  with_self (set_last_pool "blue") (start (watcher_with 200 false)).

Definition quiet_blue_world : World :=
  with_self (set_last_pool "blue") (start (watcher_with 200 true)).

(** [warm_world] in maintenance mode. *)
Definition quiet_warm_world : World :=
  with_self (set_maintenance_mode true) warm_world.

(** A started watcher whose window holds ten 200s. *)
Definition healthy_world : World :=
  with_self (set_request_window {| maxlen := 200; items := replicate 10 200 |})
    (start (watcher_with 200 false)).

(** [warm_world] ten seconds after an error-rate alert. *)
Definition alerted_world : World :=
  with_self (set_last_error_alert (inject_Z 1699999990)) warm_world.

Definition three_lines : list line :=
  [Return (entry_of "blue" 200); Return (entry_of "blue" 503);
   Return (entry_of "green" 200)].

(** Nine good requests and a 503 on "blue", then a request on "green". *)
Definition alerting_lines : list line :=
  replicate 9 (Return (entry_of "blue" 200)) ++
  [Return (entry_of "blue" 503); Return (entry_of "green" 200)].

(** An entry whose [upstream_status] is a JSON number. *)
Definition numeric_upstream_entry : json :=
  JDict (<["pool" := JStr "blue"]> (<["status" := JInt 502]>
          (<["upstream_status" := JInt 502]> ∅))).

(** ** Further observations, and the start of [tail_log] *)

(** The answer of the webhook as the watcher reports it. *)
Definition report_of (title : string) (r : post_result) : message :=
  match r with
  | Response code => if code =? 200 then AlertSent title else SlackError code
  | PostRaised => FailedToSend
  end.

(** The webhook call of an alert sent in the state [w]. *)
Definition request_of (rt : Runtime) (title : string) (msg : text) (color : string)
    (fields : list field) (w : World) : request :=
  {| r_url := slack_webhook (self w);
     r_json := {| p_color := color; p_title := title; p_text := msg;
                  p_footer := "Backend.im Alert System";
                  p_ts := int_of_float (time_time rt (clock_reads w));
                  p_fields := match fields with [] => None | _ => Some fields end |};
     r_timeout := 5 |}.

(** Since the state [w0], at most one alert with [title] went out, and if
    one did, [stamp] holds the clock reading it was sent at. *)
Definition cooled (rt : Runtime) (w0 : World) (title : string)
    (stamp : LogWatcher → Q) (w : World) : Prop :=
  alerts_dispatched title w = alerts_dispatched title w0 ∨
  (alerts_dispatched title w = S (alerts_dispatched title w0) ∧
   ∃ k, (clock_reads w0 ≤ k)%nat ∧ (k < clock_reads w)%nat ∧
        stamp (self w) = time_time rt k).

(** [w'] follows [w] in a run from [w0] whose clock readings up to the
    [bound]-th lie within one cooldown. *)
Definition debounced (rt : Runtime) (w0 : World) (bound : nat) (w w' : World) : Prop :=
  (clock_reads w ≤ clock_reads w')%nat ∧
  cooldown (self w') = cooldown (self w) ∧
  ((clock_reads w' ≤ bound)%nat → (clock_reads w0 ≤ clock_reads w)%nat →
   cooldown (self w) = cooldown (self w0) →
   (cooled rt w0 failover_title last_failover_alert w →
    cooled rt w0 failover_title last_failover_alert w') ∧
   (cooled rt w0 error_rate_title last_error_alert w →
    cooled rt w0 error_rate_title last_error_alert w')).

(** A webhook call as the watcher makes it. *)
Definition to_webhook (s : LogWatcher) (r : request) : Prop :=
  r_url r = slack_webhook s ∧ r_timeout r = 5 ∧
  p_footer (r_json r) = "Backend.im Alert System" ∧
  (p_title (r_json r) = failover_title ∨ p_title (r_json r) = error_rate_title).

(** The lines that announce an alert, and the lines that report what the
    webhook answered. *)
Definition is_failover_line (m : message) : bool :=
  match m with FailoverLine _ _ => true | _ => false end.

Definition is_high_error_line (m : message) : bool :=
  match m with HighErrorRate _ => true | _ => false end.

Definition is_report (m : message) : bool :=
  match m with AlertSent _ | SlackError _ | FailedToSend => true | _ => false end.

Definition lines_of (f : message → bool) (w : World) : nat :=
  length (filter (λ m, f m = true) (stdout w)).

Definition calls_of (title : string) (new : list request) : nat :=
  length (filter (λ r, is_call title r = true) new).

(** With maintenance mode off, [w'] adds to [w] one webhook call with
    the failover title for each failover announced on [stdout], one with
    the error-rate title for each high error rate announced, and nothing
    else on the network; each call has its answer reported once. *)
Definition delivered (w w' : World) : Prop :=
  maintenance_mode (self w) = false →
  maintenance_mode (self w') = false ∧
  slack_webhook (self w') = slack_webhook (self w) ∧
  ∃ new, network w' = network w ++ new ∧
         Forall (to_webhook (self w)) new ∧
         (calls_of failover_title new + lines_of is_failover_line w =
          lines_of is_failover_line w')%nat ∧
         (calls_of error_rate_title new + lines_of is_high_error_line w =
          lines_of is_high_error_line w')%nat ∧
         (length new + lines_of is_report w = lines_of is_report w')%nat.

(** The runtime [rt] with other answers from the webhook. *)
Definition with_webhook (answers : nat → post_result) (rt : Runtime) : Runtime :=
  {| time_time := time_time rt; requests_post := answers;
     int_of_str := int_of_str rt; stdout_errors := stdout_errors rt |}.

(** Two states that differ at most in the lines printed. *)
Definition same_but_stdout (w1 w2 : World) : Prop :=
  self w1 = self w2 ∧ clock_reads w1 = clock_reads w2 ∧ network w1 = network w2.

(** The strings of an entry that its log line shows as they are: the
    pool, the upstream status, the request time when it is a string, and the
    first 50 characters of a request that is a string. *)
Definition entry_texts (d : gmap string json) : list string :=
  [ shown (default (JStr "unknown") (d !! "pool"));
    shown (default (JStr "-") (d !! "upstream_status"));
    shown (default (JInt 0) (d !! "request_time"));
    match default (JStr "-") (d !! "request") with
    | JStr s => take_chars 50 s
    | _ => EmptyString
    end ].

(** The entries [process_log_entry] gets through: those it ignores for
    their pool, and those whose fields have the types its log line needs
    and hold no lone surrogate where the line shows them. *)
Definition processable (d : gmap string json) : bool :=
  let pool := default (JStr "unknown") (d !! "pool") in
  let status := default (JInt 0) (d !! "status") in
  let upstream_status := default (JStr "-") (d !! "upstream_status") in
  let request := default (JStr "-") (d !! "request") in
  untracked_pool pool ||
  (negb (is_infinite status) && is_str pool && is_str upstream_status &&
   is_str_or_list request && forallb (encodable Strict) (entry_texts d)).

(** The lines that end the watcher (those with a lone surrogate do under
    the [strict] handler of [sys.stdout]; another handler may let them
    pass). *)
Definition fatal_line (l : line) : bool :=
  match l with
  | Raise e => negb (isinstance e JSONDecodeError)
  | Return (JDict d) => truthy (JDict d) && negb (processable d)
  | Return v => truthy v
  end.

(** The status a line adds to the window, if it adds one. *)
Definition recorded_status (rt : Runtime) (l : line) : option Z :=
  match l with
  | Return (JDict d) =>
      if truthy (JDict d) && negb (untracked_pool (default (JStr "unknown") (d !! "pool")))
      then match coerce_status rt (default (JInt 0) (d !! "status")) with
           | Return z => Some z
           | Raise _ => None
           end
      else None
  | _ => None
  end.

(** The default configuration with an error threshold of choice. *)
Definition watcher_at (threshold : Q) : LogWatcher :=
  {| slack_webhook := "https://hooks.slack.com/services/T/B/X";
     error_threshold := threshold; window_size := 200; cooldown := 300;
     log_path := "/var/log/nginx/access.log"; read_existing := true;
     last_pool := None; request_window := deque_new 200;
     last_failover_alert := 0; last_error_alert := 0;
     maintenance_mode := false |}.

(** A started watcher with a threshold of 55% whose window holds eleven
    503s and nine 200s: an error rate of 55%. *)
Definition boundary_world : World :=
  with_self (set_request_window
               {| maxlen := 200; items := replicate 11 503 ++ replicate 9 200 |})
    (start (watcher_at 55)).

(** The lone surrogate U+D800. *)
Definition lone_surrogate : string :=
  String (ascii_of_nat 237) (String (ascii_of_nat 160) (String (ascii_of_nat 128) EmptyString)).

(** An entry whose request holds a lone surrogate. *)
Definition surrogate_entry : json :=
  JDict (<["pool" := JStr "blue"]> (<["status" := JInt 200]>
          (<["request" := JStr lone_surrogate]> ∅))).

(** ** The start of [tail_log]: waiting for the file and choosing where to read *)

(** The progress lines of [tail_log], one constructor for each [print]. *)
Inductive notice :=
  | Watching (path : string)
  | WaitingForFile (path : string)
  | WaitingForEntry (wait_time : Z)
  | StillEmpty
  | LogFileReady
  | ReadingExisting
  | ProcessedExisting (line_count : nat)
  | NowMonitoring
  | SkippedToEnd
  | SeekNotSupported.

(** The log file as the watcher meets it: the successive answers of
    [os.path.exists] and [os.path.getsize], whether [f.seek(0, 2)] works,
    the lines the file holds when it is read first and the lines that
    follow.  The file is taken to stay in place once it exists. *)
Record Files := {
  path_exists : nat → bool;
  getsize : nat → Z;
  seek_supported : bool;
  existing : list line;
  appended : list line
}.

(** The progress of [tail_log] before and beside the entries: its progress
    lines (kept apart from the lines of [stdout]), the polls made and the
    seconds slept in the two waiting loops. *)
Record Tailer := {
  notices : list notice;
  exists_calls : nat;
  getsize_calls : nat;
  waited : Z
}.

Definition noted (n : notice) (t : Tailer) : Tailer :=
  {| notices := notices t ++ [n]; exists_calls := exists_calls t;
     getsize_calls := getsize_calls t; waited := waited t |}.

Definition slept (seconds : Z) (t : Tailer) : Tailer :=
  {| notices := notices t; exists_calls := exists_calls t;
     getsize_calls := getsize_calls t; waited := waited t + seconds |}.

Definition polled_exists (t : Tailer) : Tailer :=
  {| notices := notices t; exists_calls := S (exists_calls t);
     getsize_calls := getsize_calls t; waited := waited t |}.

Definition polled_size (t : Tailer) : Tailer :=
  {| notices := notices t; exists_calls := exists_calls t;
     getsize_calls := S (getsize_calls t); waited := waited t |}.

(** [while not os.path.exists(path): print(...); time.sleep(2)], for at most
    [fuel] rounds; [None] when the file has not appeared by then. *)
Fixpoint await_file (fs : Files) (path : string) (fuel : nat) (t : Tailer)
    : option Tailer :=
  if path_exists fs (exists_calls t) then Some (polled_exists t)
  else
    match fuel with
    | O => None
    | S fuel' =>
        await_file fs path fuel'
          (slept 2 (noted (WaitingForFile path) (polled_exists t)))
    end.

Definition max_wait : Z := 30.

(** [while os.path.getsize(path) == 0 and wait_time < max_wait: ...], the
    rounds counted down from [budget]; the result is the final
    [wait_time]. *)
Fixpoint await_content (fs : Files) (budget : nat) (wait_time : Z) (t : Tailer)
    : Z * Tailer :=
  if (getsize fs (getsize_calls t) =? 0) && (wait_time <? max_wait) then
    match budget with
    | O => (wait_time, polled_size t)
    | S budget' =>
        await_content fs budget' (wait_time + 2)
          (slept 2 (noted (WaitingForEntry wait_time) (polled_size t)))
    end
  else (wait_time, polled_size t).

(** The [for line in f] loop with its [line_count]. *)
Fixpoint read_existing_lines (rt : Runtime) (lines : list line) (line_count : nat)
    : M nat :=
  match lines with
  | [] => mret line_count
  | l :: rest =>
      entry ← lift (parse_log_line l);
      if truthy entry then
        process_log_entry rt entry;;
        read_existing_lines rt rest (S line_count)
      else read_existing_lines rt rest line_count
  end.




(** A file that appears at the third poll and gets its first content at the
    fifth poll of its size. *)
Definition late_file : Files :=
  {| path_exists := λ n, (2 <=? n)%nat;
     getsize := λ n, if (n <? 4)%nat then 0 else 120;
     seek_supported := true;
     existing := three_lines; appended := [] |}.

Definition fresh_tailer : Tailer :=
  {| notices := []; exists_calls := 0; getsize_calls := 0; waited := 0 |}.

(** The lines that count as entries: those decoded to a true value. *)
Definition counted (l : line) : bool :=
  match parse_log_line l with
  | Return v => truthy v
  | Raise _ => false
  end.


(** * Properties *)

(** ** The bounded deque *)

Lemma deque_append_maxlen d x : maxlen (deque_append d x) = maxlen d.
Proof. reflexivity. Qed.

Lemma deque_append_len d x :
  (deque_len d ≤ maxlen d → deque_len (deque_append d x) ≤ maxlen d)%nat.
Proof.
  unfold deque_len, deque_append; simpl; intros Hle.
  destruct (Nat.ltb_spec (maxlen d) (length (items d ++ [x]))) as [Hlt|Hge].
  - rewrite length_app in Hlt; simpl in Hlt.
    destruct (items d) as [|y ys]; simpl in *; [lia|].
    rewrite length_app; simpl; lia.
  - exact Hge.
Qed.

Lemma foldl_deque_append_maxlen xs d :
  maxlen (foldl deque_append d xs) = maxlen d.
Proof. revert d; induction xs as [|x xs IH]; intros d; simpl; [done|]. by rewrite IH. Qed.

Lemma foldl_deque_append_items N xs :
  items (foldl deque_append (deque_new N) xs) = drop (length xs - N) xs.
Proof.
  induction xs as [|x xs IH] using rev_ind; [done|].
  rewrite foldl_app; simpl. unfold deque_append at 1; simpl.
  rewrite foldl_deque_append_maxlen, IH; simpl.
  rewrite !length_app, length_drop; simpl.
  destruct (Nat.ltb_spec N (length xs - (length xs - N) + 1)) as [Hlt|Hge].
  - assert (Hn : (N ≤ length xs)%nat) by lia.
    replace (length xs + 1 - N)%nat with ((length xs - N) + 1)%nat by lia.
    rewrite <- (drop_app_le xs [x]) by lia.
    rewrite <- (drop_drop _ 1 (length xs - N))%nat.
    by destruct (drop (length xs - N) (xs ++ [x])).
  - replace (length xs - N)%nat with 0%nat by lia.
    replace (length xs + 1 - N)%nat with 0%nat by lia.
    done.
Qed.

(** ** Rounding to binary64 *)

Lemma nearest_even_bounds x y :
  0 <= x → 0 < y → x / y <= nearest_even x y <= x / y + 1.
Proof.
  intros Hx Hy. unfold nearest_even.
  destruct (2 * (x mod y) ?= y); [destruct (Z.even _)| |]; lia.
Qed.

Lemma nearest_even_nonneg x y : 0 <= x → 0 < y → 0 <= nearest_even x y.
Proof.
  intros Hx Hy. pose proof (nearest_even_bounds x y Hx Hy).
  pose proof (Z.div_pos x y Hx Hy). lia.
Qed.

Lemma nearest_even_le x y N :
  0 <= x → 0 < y → x <= N * y → nearest_even x y <= N.
Proof.
  intros Hx Hy Hle. unfold nearest_even.
  pose proof (Z.div_mod x y ltac:(lia)) as Hdm.
  pose proof (Z.mod_pos_bound x y Hy) as Hm.
  assert (Hq : x / y <= N) by (apply Z.div_le_upper_bound; lia).
  destruct (Z.eq_dec (x / y) N) as [E|E].
  - assert (x mod y = 0) by nia.
    replace (2 * (x mod y) ?= y) with Lt; [lia|].
    symmetry. apply Z.compare_lt_iff. lia.
  - destruct (2 * (x mod y) ?= y); [destruct (Z.even _)| |]; lia.
Qed.

Lemma nearest_even_ge x y N :
  0 <= x → 0 < y → N * y <= x → N <= nearest_even x y.
Proof.
  intros Hx Hy Hle. pose proof (nearest_even_bounds x y Hx Hy).
  assert (N <= x / y) by (apply Z.div_le_lower_bound; lia). lia.
Qed.

Lemma ulp_exponent_small x y K :
  0 < x → 0 < y → x <= K * y → K < 2 ^ 53 → ulp_exponent x y <= 0.
Proof.
  intros Hx Hy Hle HK. unfold ulp_exponent.
  set (l0 := Z.log2 x - Z.log2 y).
  apply Z.max_lub; [|lia].
  destruct (Z.log2_spec x Hx) as [Ha1 Ha2]. destruct (Z.log2_spec y Hy) as [Hb1 Hb2].
  pose proof (Z.log2_nonneg x). pose proof (Z.log2_nonneg y).
  set (a := Z.log2 x) in *. set (b := Z.log2 y) in *.
  assert (Hxy : x < 2 ^ 53 * y) by nia.
  destruct (Z_lt_le_dec l0 53) as [Hl|Hl].
  { destruct (below_pow2 x y l0); lia. }
  (* l0 >= 53 *)
  unfold below_pow2. replace (0 <=? l0) with true by (symmetry; apply Z.leb_le; lia).
  destruct (Z.ltb_spec x (y * 2 ^ l0)) as [Hlt|Hge].
  - destruct (Z.eq_dec l0 53) as [E|E]; [lia|]. exfalso.
    (* l0 >= 54 : y * 2^(l0-1) < 2^a <= x, and 2^53 <= 2^(l0-1) *)
    assert (H1 : 2 ^ a = 2 ^ (l0 - 1) * 2 ^ (Z.succ b)).
    { rewrite <- Z.pow_add_r by lia. f_equal. lia. }
    assert (H2 : 2 ^ 53 <= 2 ^ (l0 - 1)) by (apply Z.pow_le_mono_r; lia).
    assert (0 < 2 ^ (l0 - 1)) by (apply Z.pow_pos_nonneg; lia).
    nia.
  - exfalso.
    assert (H2 : 2 ^ 53 <= 2 ^ l0) by (apply Z.pow_le_mono_r; lia).
    nia.
Qed.

Lemma fl64_pos_nonneg x y : 0 < x → 0 < y → (0 <= fl64_pos x y)%Q.
Proof.
  intros Hx Hy. unfold fl64_pos.
  destruct (Z.leb_spec 0 (ulp_exponent x y)) as [He|He].
  - assert (0 < 2 ^ ulp_exponent x y) by (apply Z.pow_pos_nonneg; lia).
    pose proof (nearest_even_nonneg x (y * 2 ^ ulp_exponent x y) ltac:(lia) ltac:(nia)).
    unfold Qle; simpl. nia.
  - rewrite Qred_correct.
    assert (0 < 2 ^ (- ulp_exponent x y)) by (apply Z.pow_pos_nonneg; lia).
    pose proof (nearest_even_nonneg (x * 2 ^ (- ulp_exponent x y)) y ltac:(nia) Hy).
    unfold Qle; simpl. lia.
Qed.

Lemma fl64_pos_le x y K :
  0 < x → 0 < y → x <= K * y → K < 2 ^ 53 → (fl64_pos x y <= inject_Z K)%Q.
Proof.
  intros Hx Hy Hle HK. unfold fl64_pos.
  pose proof (ulp_exponent_small x y K Hx Hy Hle HK) as He.
  destruct (Z.leb_spec 0 (ulp_exponent x y)) as [He'|He'].
  - assert (E : ulp_exponent x y = 0) by lia. rewrite E.
    change (2 ^ 0) with 1. rewrite !Z.mul_1_r.
    pose proof (nearest_even_le x y K ltac:(lia) Hy Hle).
    unfold Qle; simpl. lia.
  - rewrite Qred_correct.
    set (p := 2 ^ (- ulp_exponent x y)).
    assert (Hp : 0 < p) by (apply Z.pow_pos_nonneg; lia).
    pose proof (nearest_even_le (x * p) y (K * p) ltac:(nia) Hy ltac:(nia)).
    unfold Qle; simpl. rewrite Z2Pos.id by done. lia.
Qed.

Lemma fl64_nonneg q : (0 <= q)%Q → (0 <= fl64 q)%Q.
Proof.
  intros Hq. unfold fl64. destruct q as [[|p|p] d]; simpl.
  - done.
  - by apply fl64_pos_nonneg.
  - unfold Qle in Hq; simpl in Hq. lia.
Qed.

Lemma fl64_le q K : (q <= inject_Z K)%Q → 0 <= K < 2 ^ 53 → (fl64 q <= inject_Z K)%Q.
Proof.
  intros Hq HK. unfold fl64. destruct q as [[|p|p] d]; simpl.
  - unfold Qle; simpl. lia.
  - apply fl64_pos_le; try lia. unfold Qle in Hq; simpl in Hq. lia.
  - pose proof (fl64_pos_nonneg (Z.pos p) (Z.pos d) ltac:(lia) ltac:(lia)) as H.
    apply Qle_trans with 0%Q.
    + apply (Qopp_le_compat 0) in H. exact H.
    + unfold Qle; simpl. lia.
Qed.

Lemma nearest_even_half x y :
  0 <= x → 0 < y → 2 * Z.abs (nearest_even x y * y - x) <= y.
Proof.
  intros Hx Hy. unfold nearest_even.
  pose proof (Z.div_mod x y ltac:(lia)) as Hdm.
  pose proof (Z.mod_pos_bound x y Hy) as Hm.
  destruct (Z.compare_spec (2 * (x mod y)) y) as [E|E|E];
    [destruct (Z.even _)| |]; nia.
Qed.

(** [ulp_exponent] is low enough: above the subnormal range, the
    significand has its 53 bits. *)
Lemma ulp_exponent_lower x y :
  0 < x → 0 < y → -1074 < ulp_exponent x y →
  below_pow2 x y (ulp_exponent x y + 52) = false.
Proof.
  intros Hx Hy. unfold ulp_exponent.
  set (l0 := Z.log2 x - Z.log2 y).
  set (l := if below_pow2 x y l0 then l0 - 1 else l0).
  intros He. replace (Z.max (l - 52) (-1074) + 52) with l by lia.
  clear He. subst l.
  destruct (below_pow2 x y l0) eqn:Hb; [|done].
  destruct (Z.log2_spec x Hx) as [Ha1 Ha2]. destruct (Z.log2_spec y Hy) as [Hb1 Hb2].
  pose proof (Z.log2_nonneg x). pose proof (Z.log2_nonneg y).
  fold l0. set (a := Z.log2 x) in *. set (b := Z.log2 y) in *.
  unfold below_pow2. destruct (Z.leb_spec 0 (l0 - 1)) as [Hl|Hl].
  - apply Z.ltb_ge.
    assert (H1 : 2 ^ a = 2 ^ (l0 - 1) * 2 ^ (Z.succ b)).
    { rewrite <- Z.pow_add_r by lia. f_equal. lia. }
    assert (0 < 2 ^ (l0 - 1)) by (apply Z.pow_pos_nonneg; lia).
    nia.
  - apply Z.ltb_ge.
    assert (H1 : 2 ^ (Z.succ b) = 2 ^ a * 2 ^ (- (l0 - 1))).
    { rewrite <- Z.pow_add_r by lia. f_equal. lia. }
    assert (0 < 2 ^ (- (l0 - 1))) by (apply Z.pow_pos_nonneg; lia).
    nia.
Qed.

(** A quotient that is not tiny is above the subnormal range. *)
Lemma ulp_exponent_normal x y :
  0 < x → 0 < y → y <= x * 2 ^ 1000 → -1074 < ulp_exponent x y.
Proof.
  intros Hx Hy Hle. unfold ulp_exponent.
  set (l0 := Z.log2 x - Z.log2 y).
  assert (Hl0 : -1000 <= l0).
  { pose proof (Z.log2_le_mono y (x * 2 ^ 1000) Hle) as Hm.
    rewrite Z.log2_mul_pow2 in Hm by lia. lia. }
  destruct (below_pow2 x y l0); lia.
Qed.

(** Above the subnormal range a rounding moves a number by no more than
    the [2 ^ 53]-th part of it. *)
Lemma fl64_pos_close x y :
  0 < x → 0 < y → y <= x * 2 ^ 1000 →
  ((x # Z.to_pos y) * (1 - u53) <= fl64_pos x y <= (x # Z.to_pos y) * (1 + u53))%Q.
Proof.
  intros Hx Hy Hle.
  pose proof (ulp_exponent_normal x y Hx Hy Hle) as Hn.
  pose proof (ulp_exponent_lower x y Hx Hy Hn) as Hlow.
  unfold fl64_pos. set (e := ulp_exponent x y) in *.
  assert (Hk : 2 ^ 53 = 9007199254740992) by reflexivity.
  assert (Hk2 : 2 ^ 52 = 4503599627370496) by reflexivity.
  destruct (Z.leb_spec 0 e) as [He|He].
  - (* e >= 0 *)
    unfold below_pow2 in Hlow.
    replace (0 <=? e + 52) with true in Hlow by (symmetry; apply Z.leb_le; lia).
    apply Z.ltb_ge in Hlow. rewrite Z.pow_add_r in Hlow by lia.
    assert (Hp : 0 < 2 ^ e) by (apply Z.pow_pos_nonneg; lia).
    pose proof (nearest_even_half x (y * 2 ^ e) ltac:(lia) ltac:(nia)) as Hh.
    set (m := nearest_even x (y * 2 ^ e)) in *. set (p := 2 ^ e) in *.
    rewrite Hk2 in Hlow.
    unfold Qle, u53; simpl. rewrite !Pos2Z.inj_mul, !Z2Pos.id by done.
    change (Z.pos (2 ^ 53)) with 9007199254740992.
    split; nia.
  - unfold below_pow2 in Hlow.
    set (p := 2 ^ (- e)).
    assert (Hp : 0 < p) by (apply Z.pow_pos_nonneg; lia).
    assert (Hyp : y * 2 ^ 52 <= x * p).
    { destruct (Z.leb_spec 0 (e + 52)) as [Hl|Hl]; apply Z.ltb_ge in Hlow.
      - assert (E : p * 2 ^ (e + 52) = 2 ^ 52)
          by (unfold p; rewrite <- Z.pow_add_r by lia; f_equal; lia).
        assert (0 < 2 ^ (e + 52)) by (apply Z.pow_pos_nonneg; lia). nia.
      - assert (E : p = 2 ^ (- (e + 52)) * 2 ^ 52)
          by (unfold p; rewrite <- Z.pow_add_r by lia; f_equal; lia).
        nia. }
    pose proof (nearest_even_half (x * p) y ltac:(nia) Hy) as Hh.
    fold p. set (m := nearest_even (x * p) y) in *.
    rewrite Qred_correct. rewrite Hk2 in Hyp.
    unfold Qle, u53; simpl. rewrite !Pos2Z.inj_mul, !Z2Pos.id by done.
    change (Z.pos (2 ^ 53)) with 9007199254740992.
    split; nia.
Qed.

Lemma fl64_close q :
  (1 # 2 ^ 1000 <= q)%Q →
  (q * (1 - u53) <= fl64 q <= q * (1 + u53))%Q.
Proof.
  intros Hq. unfold fl64. destruct q as [[|p|p] d]; simpl.
  - exfalso. unfold Qle in Hq; simpl in Hq. lia.
  - apply (fl64_pos_close (Z.pos p) (Z.pos d)); [lia|lia|].
    unfold Qle in Hq; simpl in Hq.
    change (Z.pos (2 ^ 1000)) with (2 ^ 1000) in Hq. lia.
  - exfalso. unfold Qle in Hq; simpl in Hq. lia.
Qed.

Lemma two_roundings_close q x1 x2 r :
  (0 <= q)%Q →
  (q * (1 - u53) <= x1 <= q * (1 + u53))%Q →
  (x1 * 100 * (1 - u53) <= x2 <= x1 * 100 * (1 + u53))%Q →
  (r == 100 * q)%Q →
  (r * (1 - two_roundings) <= x2 <= r * (1 + two_roundings))%Q.
Proof.
  unfold u53, two_roundings. intros Hq H1 H2 Hr.
  change (2 ^ 53)%positive with 9007199254740992%positive in *.
  change (2 ^ 51)%positive with 2251799813685248%positive in *.
  rewrite Hr. split; lra.
Qed.

(** ** The methods, case by case *)

Ltac munfold :=
  unfold mbind, M_bind, mret, M_ret, lift, get_self, modify_self, print,
    now_time, post in *.

Lemma Qgt_bool_iff x y : Qgt_bool x y = true ↔ (y < x)%Q.
Proof.
  unfold Qgt_bool. rewrite negb_true_iff.
  split.
  - intros H. apply Qnot_le_lt. intros Hle. apply Qle_bool_iff in Hle. congruence.
  - intros H. destruct (Qle_bool x y) eqn:E; [|done].
    apply Qle_bool_iff in E. exfalso. exact (Qlt_not_le _ _ H E).
Qed.

Lemma Qgt_bool_false_iff x y : Qgt_bool x y = false ↔ (x <= y)%Q.
Proof.
  unfold Qgt_bool. rewrite negb_false_iff. apply Qle_bool_iff.
Qed.

Lemma step_ok_refl w : step_ok w w.
Proof. unfold step_ok, same_config. tauto. Qed.

Lemma step_ok_trans w1 w2 w3 : step_ok w1 w2 → step_ok w2 w3 → step_ok w1 w3.
Proof.
  intros ((?&?&?&?&Hm)&Hn&Hw) ((?&?&?&?&Hm')&Hn'&Hw').
  split; [unfold same_config; intuition congruence|].
  split; [|tauto].
  intros Ht. rewrite Hn' by congruence. auto.
Qed.

Lemma step_ok_bind {A B} (m : M A) (k : A → M B) :
  (∀ w, step_ok w (snd (m w))) → (∀ a w, step_ok w (snd (k a w))) →
  ∀ w, step_ok w (snd ((m ≫= k) w)).
Proof.
  intros Hm Hk w. munfold. specialize (Hm w).
  destruct (m w) as [[a|e] w']; simpl in *; [|done].
  eapply step_ok_trans; [exact Hm|apply Hk].
Qed.

Section Steps.
Variable rt : Runtime.

Lemma send_slack_alert_maintenance title msg color fields w :
  maintenance_mode (self w) = true →
  send_slack_alert rt title msg color fields w =
    (Return (), printed (AlertSuppressed title) w).
Proof. intros H. unfold send_slack_alert. munfold. by rewrite H. Qed.

Lemma send_slack_alert_returns title msg color fields w :
  ∃ w', send_slack_alert rt title msg color fields w = (Return (), w') ∧
        self w' = self w ∧
        (∃ m, stdout w' = stdout w ++ [m]) ∧
        (∀ t, alerts_dispatched t w' =
              (alerts_dispatched t w + if String.eqb title t then 1 else 0)%nat).
Proof.
  unfold send_slack_alert. munfold.
  destruct (maintenance_mode (self w)) eqn:Hm; simpl.
  - eexists; split; [reflexivity|]. simpl. split; [done|]. split; [eauto|].
    intros t. unfold alerts_dispatched; simpl.
    rewrite filter_app, length_app; simpl.
    rewrite filter_cons, filter_nil. simpl.
    destruct (String.eqb title t); simpl; repeat case_decide; simpl; try done; lia.
  - set (req := {| r_url := _ |}).
    assert (Hreq : p_title (r_json req) = title) by done.
    destruct (requests_post rt (length (network w))) as [code|];
      [destruct (code =? 200)|]; simpl;
      (eexists; split; [reflexivity|]; simpl; split; [done|]; split; [eauto|];
       intros t; unfold alerts_dispatched; simpl;
       rewrite !filter_app, !length_app; simpl;
       rewrite !filter_cons, !filter_nil; unfold is_call; rewrite Hreq;
       destruct (String.eqb title t); simpl; repeat case_decide; simpl; try done; lia).
Qed.

Lemma send_slack_alert_ok title msg color fields w :
  step_ok w (snd (send_slack_alert rt title msg color fields w)).
Proof.
  unfold send_slack_alert. munfold.
  destruct (maintenance_mode (self w)) eqn:Hm; simpl.
  - repeat split; simpl; auto; apply H.
  - destruct (requests_post rt _) as [code|]; [destruct (code =? 200)|]; simpl;
      (repeat split; simpl; auto; [congruence|apply H|apply H]).
Qed.

Lemma check_failover_first pool w :
  last_pool (self w) = None →
  check_failover rt pool w =
    (Return (), printed (InitialPool pool) (with_self (set_last_pool pool) w)).
Proof. intros H. unfold check_failover. munfold. by rewrite H. Qed.

Lemma check_failover_same pool w :
  last_pool (self w) = Some pool → check_failover rt pool w = (Return (), w).
Proof.
  intros H. unfold check_failover. munfold. rewrite H.
  by rewrite String.eqb_refl.
Qed.

Lemma check_failover_changed previous pool w :
  last_pool (self w) = Some previous → pool ≠ previous →
  check_failover rt pool w =
    (Return (),
     if Qgt_bool (time_time rt (clock_reads w) - last_failover_alert (self w))
                 (inject_Z (cooldown (self w)))
     then with_self (set_last_pool pool)
            (with_self (set_last_failover_alert (time_time rt (clock_reads w)))
               (snd (send_slack_alert rt failover_title
                       (TrafficSwitched previous pool) "warning"
                       (failover_fields previous pool)
                       (printed (FailoverLine previous pool) (ticked w)))))
     else with_self (set_last_pool pool) (ticked w)).
Proof.
  intros H Hne. unfold check_failover. munfold. rewrite H.
  apply String.eqb_neq in Hne. rewrite Hne. simpl.
  destruct (Qgt_bool _ _); [|done].
  destruct (send_slack_alert_returns failover_title
              (TrafficSwitched previous pool) "warning"
              (failover_fields previous pool)
              (printed (FailoverLine previous pool) (ticked w)))
    as (w' & Hs & _).
  by rewrite Hs.
Qed.

Lemma check_error_rate_cold w :
  (deque_len (request_window (self w)) < 10)%nat →
  check_error_rate rt w = (Return (), w).
Proof.
  intros H. unfold check_error_rate. munfold.
  apply Nat.ltb_lt in H. by rewrite H.
Qed.

Lemma check_error_rate_warm w :
  (10 ≤ deque_len (request_window (self w)))%nat →
  check_error_rate rt w =
    (Return (),
     if Qgt_bool (error_rate_of (request_window (self w))) (error_threshold (self w))
     then
       if Qgt_bool (time_time rt (clock_reads w) - last_error_alert (self w))
                   (inject_Z (cooldown (self w)))
       then with_self (set_last_error_alert (time_time rt (clock_reads w)))
              (snd (send_slack_alert rt error_rate_title
                      (ErrorRateIs (error_rate_of (request_window (self w)))
                                   (error_threshold (self w)))
                      "danger" (error_rate_fields (self w))
                      (printed (HighErrorRate (error_rate_of (request_window (self w))))
                               (ticked w))))
       else ticked w
     else w).
Proof.
  intros H. unfold check_error_rate. munfold.
  apply Nat.ltb_ge in H. rewrite H.
  destruct (Qgt_bool (error_rate_of _) _); [|done].
  destruct (Qgt_bool _ _); [|done].
  destruct (send_slack_alert_returns error_rate_title
              (ErrorRateIs (error_rate_of (request_window (self w)))
                           (error_threshold (self w)))
              "danger" (error_rate_fields (self w))
              (printed (HighErrorRate (error_rate_of (request_window (self w))))
                       (ticked w)))
    as (w' & Hs & _).
  by rewrite Hs.
Qed.

Lemma check_failover_returns pool w : fst (check_failover rt pool w) = Return ().
Proof.
  destruct (last_pool (self w)) as [previous|] eqn:H.
  - destruct (decide (pool = previous)) as [->|Hne].
    + by rewrite check_failover_same.
    + by rewrite (check_failover_changed previous).
  - by rewrite check_failover_first.
Qed.

Lemma check_error_rate_returns w : fst (check_error_rate rt w) = Return ().
Proof.
  destruct (Nat.lt_ge_cases (deque_len (request_window (self w))) 10).
  - by rewrite check_error_rate_cold.
  - by rewrite check_error_rate_warm.
Qed.

Lemma step_ok_with_self f w :
  same_config (self w) (f (self w)) →
  request_window (f (self w)) = request_window (self w) →
  step_ok w (with_self f w).
Proof.
  intros Hc Hw. split; [done|]. split; [done|].
  unfold window_ok; simpl. rewrite Hw. destruct Hc as (_&_&->&_). done.
Qed.

Lemma step_ok_printed m w : step_ok w (printed m w).
Proof. unfold step_ok, same_config, window_ok; simpl; tauto. Qed.

Lemma step_ok_ticked w : step_ok w (ticked w).
Proof. unfold step_ok, same_config, window_ok; simpl; tauto. Qed.

Lemma check_failover_ok pool w : step_ok w (snd (check_failover rt pool w)).
Proof.
  destruct (last_pool (self w)) as [previous|] eqn:H.
  - destruct (decide (pool = previous)) as [->|Hne].
    + rewrite check_failover_same by done. apply step_ok_refl.
    + rewrite (check_failover_changed previous) by done. simpl.
      destruct (Qgt_bool _ _).
      * eapply step_ok_trans; [|apply step_ok_with_self; [repeat split; reflexivity|reflexivity]].
        eapply step_ok_trans; [|apply step_ok_with_self; [repeat split; reflexivity|reflexivity]].
        eapply step_ok_trans; [|apply send_slack_alert_ok].
        eapply step_ok_trans; [apply step_ok_ticked|apply step_ok_printed].
      * eapply step_ok_trans; [apply step_ok_ticked|].
        apply step_ok_with_self; [repeat split; reflexivity|reflexivity].
  - rewrite check_failover_first by done. simpl.
    eapply step_ok_trans; [|apply step_ok_printed].
    apply step_ok_with_self; [repeat split; reflexivity|reflexivity].
Qed.

Lemma check_error_rate_ok w : step_ok w (snd (check_error_rate rt w)).
Proof.
  destruct (Nat.lt_ge_cases (deque_len (request_window (self w))) 10).
  - rewrite check_error_rate_cold by done. apply step_ok_refl.
  - rewrite check_error_rate_warm by done. simpl.
    destruct (Qgt_bool _ _); [|apply step_ok_refl].
    destruct (Qgt_bool _ _); [|apply step_ok_ticked].
    eapply step_ok_trans; [|apply step_ok_with_self; [repeat split; reflexivity|reflexivity]].
    eapply step_ok_trans; [|apply send_slack_alert_ok].
    eapply step_ok_trans; [apply step_ok_ticked|apply step_ok_printed].
Qed.


Lemma step_ok_window_append z w : step_ok w (with_self (window_append z) w).
Proof.
  split; [repeat split; reflexivity|]. split; [done|].
  unfold window_ok; simpl. intros [Hm Hl]. split; [done|].
  by apply deque_append_len.
Qed.

Lemma process_log_entry_not_dict entry w :
  (∀ d, entry ≠ JDict d) →
  process_log_entry rt entry w = (Raise AttributeError, w).
Proof.
  intros H. unfold process_log_entry. munfold.
  destruct entry; simpl; try done. by destruct (H d).
Qed.

Lemma process_log_entry_untracked d w :
  untracked_pool (default (JStr "unknown") (d !! "pool")) = true →
  process_log_entry rt (JDict d) w = (Return (), w).
Proof.
  intros H. unfold process_log_entry. munfold. simpl. by rewrite H.
Qed.

Lemma process_log_entry_tracked d w z p u r :
  untracked_pool (default (JStr "unknown") (d !! "pool")) = false →
  coerce_status rt (default (JInt 0) (d !! "status")) = Return z →
  format_s (default (JStr "unknown") (d !! "pool")) = Return p →
  format_s (default (JStr "-") (d !! "upstream_status")) = Return u →
  slice_to 50 (default (JStr "-") (d !! "request")) = Return r →
  stdout_write (stdout_errors rt)
    [p; u; shown (default (JInt 0) (d !! "request_time")); shown r] = Return () →
  process_log_entry rt (JDict d) w =
    check_error_rate rt
      (snd (check_failover rt p
         (with_self (window_append z)
            (printed (LogLine (emoji_of z) p z u
                        (default (JInt 0) (d !! "request_time")) r) w)))).
Proof.
  intros H1 H2 H3 H4 H5 H6. unfold process_log_entry. munfold. cbn [entry_get].
  cbv beta iota. rewrite H1, H2, H3, H4, H5, H6.
  match goal with |- context [check_failover rt p ?w0] =>
    pose proof (check_failover_returns p w0) as Hr;
    destruct (check_failover rt p w0) as [[[]|e] w'] end; simpl in *; [done|done].
Qed.

(** The three ways [process_log_entry] can go: an exception before
    anything is printed or recorded, the early return on an untracked pool,
    or the log line, the record and the two checks. *)
Lemma process_log_entry_cases entry w :
  (∃ e, process_log_entry rt entry w = (Raise e, w)) ∨
  ((∃ d, entry = JDict d ∧
         untracked_pool (default (JStr "unknown") (d !! "pool")) = true) ∧
   process_log_entry rt entry w = (Return (), w)) ∨
  (∃ d z p u r,
     entry = JDict d ∧
     untracked_pool (default (JStr "unknown") (d !! "pool")) = false ∧
     coerce_status rt (default (JInt 0) (d !! "status")) = Return z ∧
     format_s (default (JStr "unknown") (d !! "pool")) = Return p ∧
     format_s (default (JStr "-") (d !! "upstream_status")) = Return u ∧
     slice_to 50 (default (JStr "-") (d !! "request")) = Return r ∧
     stdout_write (stdout_errors rt)
       [p; u; shown (default (JInt 0) (d !! "request_time")); shown r] = Return () ∧
     process_log_entry rt entry w =
       check_error_rate rt
         (snd (check_failover rt p
            (with_self (window_append z)
               (printed (LogLine (emoji_of z) p z u
                           (default (JInt 0) (d !! "request_time")) r) w))))).
Proof.
  destruct entry as [| | | | | |d];
    try (left; rewrite process_log_entry_not_dict by done; eauto).
  destruct (untracked_pool (default (JStr "unknown") (d !! "pool"))) eqn:H1.
  { right; left. split; [eauto|]. by rewrite process_log_entry_untracked. }
  destruct (coerce_status rt (default (JInt 0) (d !! "status"))) as [z|e] eqn:H2;
  [destruct (format_s (default (JStr "unknown") (d !! "pool"))) as [p|e] eqn:H3;
   [destruct (format_s (default (JStr "-") (d !! "upstream_status"))) as [u|e] eqn:H4;
    [destruct (slice_to 50 (default (JStr "-") (d !! "request"))) as [r|e] eqn:H5;
     [destruct (stdout_write (stdout_errors rt)
                  [p; u; shown (default (JInt 0) (d !! "request_time")); shown r])
        as [[]|e] eqn:H6|]|]|]|].
  - right; right. exists d, z, p, u, r. repeat (split; [done|]).
    by apply process_log_entry_tracked.
  - left. exists e. unfold process_log_entry. munfold. cbn [entry_get]. cbv beta iota.
    by rewrite H1, H2, H3, H4, H5, H6.
  - left. exists e. unfold process_log_entry. munfold. cbn [entry_get]. cbv beta iota.
    by rewrite H1, H2, H3, H4, H5.
  - left. exists e. unfold process_log_entry. munfold. cbn [entry_get]. cbv beta iota.
    by rewrite H1, H2, H3, H4.
  - left. exists e. unfold process_log_entry. munfold. cbn [entry_get]. cbv beta iota.
    by rewrite H1, H2, H3.
  - left. exists e. unfold process_log_entry. munfold. cbn [entry_get]. cbv beta iota.
    by rewrite H1, H2.
Qed.

Lemma process_log_entry_ok entry w : step_ok w (snd (process_log_entry rt entry w)).
Proof.
  destruct (process_log_entry_cases entry w)
    as [[e ->]|[[_ ->]|(d & z & p & u & r & _ & _ & _ & _ & _ & _ & _ & ->)]];
    try apply step_ok_refl.
  eapply step_ok_trans; [|apply check_error_rate_ok].
  eapply step_ok_trans; [|apply check_failover_ok].
  eapply step_ok_trans; [apply step_ok_printed|apply step_ok_window_append].
Qed.

Lemma handle_line_ok l w : step_ok w (snd (handle_line rt l w)).
Proof.
  unfold handle_line. munfold.
  destruct (parse_log_line l) as [entry|e]; simpl; [|apply step_ok_refl].
  destruct (truthy entry); [apply process_log_entry_ok|apply step_ok_refl].
Qed.

Lemma tail_log_ok lines w : step_ok w (snd (tail_log rt lines w)).
Proof.
  revert w. induction lines as [|l rest IH]; intros w; simpl.
  - apply step_ok_refl.
  - apply step_ok_bind; [apply handle_line_ok|intros _; apply IH].
Qed.

End Steps.

(** ** Counting alerts *)

Lemma alerts_dispatched_with_self t f w :
  alerts_dispatched t (with_self f w) = alerts_dispatched t w.
Proof. reflexivity. Qed.

Lemma alerts_dispatched_ticked t w :
  alerts_dispatched t (ticked w) = alerts_dispatched t w.
Proof. reflexivity. Qed.

Lemma alerts_dispatched_printed t m w :
  is_suppressed t m = false →
  alerts_dispatched t (printed m w) = alerts_dispatched t w.
Proof.
  intros H. unfold alerts_dispatched; simpl.
  rewrite filter_app, length_app, filter_cons, filter_nil.
  rewrite H. simpl. repeat case_decide; try done; simpl; lia.
Qed.

Lemma error_count_le d : (error_count d ≤ deque_len d)%nat.
Proof. unfold error_count, deque_len. apply length_filter. Qed.

(** The exact quotient of the errors by the length. *)
Lemma error_quotient_bounds (c n : nat) :
  (c ≤ n)%nat →
  (0 <= inject_Z (Z.of_nat c) / inject_Z (Z.of_nat n) <= 1)%Q.
Proof.
  intros Hle. destruct n as [|n].
  - assert (c = 0%nat) as -> by lia. simpl. split; unfold Qle; simpl; lia.
  - split; unfold Qle, Qdiv, Qmult, Qinv; simpl; lia.
Qed.

Lemma error_rate_of_bounds d : (0 <= error_rate_of d <= 100)%Q.
Proof.
  unfold error_rate_of.
  destruct (error_quotient_bounds _ _ (error_count_le d)) as [H0 H1].
  set (q := (inject_Z (Z.of_nat (error_count d)) / inject_Z (Z.of_nat (deque_len d)))%Q) in *.
  pose proof (fl64_nonneg q H0) as Hx0.
  pose proof (fl64_le q 1 H1 ltac:(done)) as Hx1.
  change (inject_Z 1) with 1%Q in Hx1.
  split.
  - apply fl64_nonneg. lra.
  - apply (fl64_le _ 100); [|done]. change (inject_Z 100) with 100%Q. lra.
Qed.

(** The rate of the code against the rate of the specification: equal up
    to the two roundings. *)
Lemma error_rate_of_close d r :
  spec_error_rate (items d) = Some r →
  Z.of_nat (deque_len d) < 2 ^ 63 →
  (10 ≤ deque_len d)%nat ∧
  (r * (1 - two_roundings) <= error_rate_of d <= r * (1 + two_roundings))%Q.
Proof.
  unfold spec_error_rate. fold (deque_len d). fold (error_count d).
  destruct (Nat.ltb_spec (deque_len d) 10) as [|Hge]; [done|].
  intros [= <-] Hn. split; [done|].
  unfold error_rate_of.
  pose proof (error_count_le d) as Hle.
  set (c := error_count d) in *. set (n := deque_len d) in *.
  destruct (error_quotient_bounds c n Hle) as [H0 _].
  set (q := (inject_Z (Z.of_nat c) / inject_Z (Z.of_nat n))%Q) in *.
  assert (Hr : (100 * inject_Z (Z.of_nat c) / inject_Z (Z.of_nat n) == 100 * q)%Q).
  { unfold q. field. unfold Qeq; simpl. lia. }
  destruct c as [|c].
  - assert (Hq : fl64 (fl64 q * 100) = 0%Q) by reflexivity.
    rewrite Hq, Hr. assert (Hz : (q == 0)%Q) by reflexivity.
    rewrite Hz. unfold two_roundings. split; unfold Qle; simpl; lia.
  - assert (Hlow : (1 # 2 ^ 63 <= q)%Q).
    { unfold q, Qle, Qdiv, Qmult, Qinv. destruct n as [|n]; [lia|]. simpl.
      change (Z.pos (2 ^ 63)) with (2 ^ 63). lia. }
    assert (H1 : (q * (1 - u53) <= fl64 q <= q * (1 + u53))%Q).
    { apply fl64_close. eapply Qle_trans; [|exact Hlow]. done. }
    assert (H2 : (fl64 q * 100 * (1 - u53) <= fl64 (fl64 q * 100)
                  <= fl64 q * 100 * (1 + u53))%Q).
    { apply fl64_close. revert H1 Hlow. unfold u53.
      change (2 ^ 53)%positive with 9007199254740992%positive.
      change (2 ^ 63)%positive with 9223372036854775808%positive.
      intros H1 Hlow.
      apply Qle_trans with (1 # 2 ^ 64)%Q; [done|].
      change (2 ^ 64)%positive with 18446744073709551616%positive. lra. }
    exact (two_roundings_close q _ _ _ H0 H1 H2 Hr).
Qed.

Lemma Qgt_bool_proper x x' y : (x == x')%Q → Qgt_bool x y = Qgt_bool x' y.
Proof.
  intros Hx. destruct (Qgt_bool x' y) eqn:E.
  - apply Qgt_bool_iff. apply Qgt_bool_iff in E. by rewrite Hx.
  - apply Qgt_bool_false_iff. apply Qgt_bool_false_iff in E. by rewrite Hx.
Qed.



(** ** Effects of the two checks *)

Section Effects.
Variable rt : Runtime.

(** What a pool change does when the cooldown has passed. *)
Lemma check_failover_alerted previous pool w :
  last_pool (self w) = Some previous → pool ≠ previous →
  (inject_Z (cooldown (self w)) <
     time_time rt (clock_reads w) - last_failover_alert (self w))%Q →
  let w' := snd (check_failover rt pool w) in
  self w' = set_last_pool pool
              (set_last_failover_alert (time_time rt (clock_reads w)) (self w)) ∧
  (∀ t, alerts_dispatched t w' =
        (alerts_dispatched t w + if String.eqb failover_title t then 1 else 0)%nat) ∧
  (∃ m, stdout w' = stdout w ++ [FailoverLine previous pool; m]) ∧
  (maintenance_mode (self w) = true →
     network w' = network w ∧ clock_reads w' = S (clock_reads w)).
Proof.
  intros Hp Hne Hcd w'. subst w'.
  rewrite (check_failover_changed rt previous) by done. simpl.
  apply Qgt_bool_iff in Hcd. rewrite Hcd.
  match goal with |- context [send_slack_alert rt ?t ?m ?c ?f ?w0] =>
    pose proof (send_slack_alert_maintenance rt t m c f w0) as Hm;
    destruct (send_slack_alert_returns rt t m c f w0) as (w1 & Hs & Hself & [m' Hout] & Hc)
  end.
  rewrite Hs in *. cbn [snd]. split; [|split; [|split]].
  - simpl. by rewrite Hself.
  - intros t. rewrite !alerts_dispatched_with_self, Hc.
    rewrite alerts_dispatched_printed by done. done.
  - exists m'. simpl. rewrite Hout. simpl. by rewrite <- app_assoc.
  - intros Hmm. specialize (Hm Hmm). injection Hm as ->. done.
Qed.

(** What a pool change does inside the cooldown. *)
Lemma check_failover_muted previous pool w :
  last_pool (self w) = Some previous → pool ≠ previous →
  (time_time rt (clock_reads w) - last_failover_alert (self w) <=
     inject_Z (cooldown (self w)))%Q →
  check_failover rt pool w = (Return (), with_self (set_last_pool pool) (ticked w)).
Proof.
  intros Hp Hne Hcd.
  rewrite (check_failover_changed rt previous) by done.
  apply Qgt_bool_false_iff in Hcd. by rewrite Hcd.
Qed.

Lemma check_failover_last_pool pool w :
  last_pool (self (snd (check_failover rt pool w))) = Some pool.
Proof.
  destruct (last_pool (self w)) as [previous|] eqn:H.
  - destruct (decide (pool = previous)) as [->|Hne].
    + by rewrite check_failover_same.
    + rewrite (check_failover_changed rt previous) by done. simpl.
      by destruct (Qgt_bool _ _).
  - by rewrite check_failover_first.
Qed.

(** What the error-rate check does when it alerts. *)
Lemma check_error_rate_alerted w :
  (10 ≤ deque_len (request_window (self w)))%nat →
  (error_threshold (self w) < error_rate_of (request_window (self w)))%Q →
  (inject_Z (cooldown (self w)) <
     time_time rt (clock_reads w) - last_error_alert (self w))%Q →
  let w' := snd (check_error_rate rt w) in
  self w' = set_last_error_alert (time_time rt (clock_reads w)) (self w) ∧
  (∀ t, alerts_dispatched t w' =
        (alerts_dispatched t w + if String.eqb error_rate_title t then 1 else 0)%nat) ∧
  (maintenance_mode (self w) = true →
     network w' = network w ∧ clock_reads w' = S (clock_reads w)).
Proof.
  intros Hlen Hth Hcd w'. subst w'.
  rewrite check_error_rate_warm by done. simpl.
  apply Qgt_bool_iff in Hth, Hcd. rewrite Hth, Hcd.
  match goal with |- context [send_slack_alert rt ?t ?m ?c ?f ?w0] =>
    pose proof (send_slack_alert_maintenance rt t m c f w0) as Hm;
    destruct (send_slack_alert_returns rt t m c f w0) as (w1 & Hs & Hself & _ & Hc)
  end.
  rewrite Hs in *. cbn [snd]. split; [|split].
  - simpl. by rewrite Hself.
  - intros t. rewrite !alerts_dispatched_with_self, Hc.
    rewrite alerts_dispatched_printed by done. done.
  - intros Hmm. specialize (Hm Hmm). injection Hm as ->. done.
Qed.

End Effects.

Section More.
Variable rt : Runtime.

Lemma check_failover_window pool w :
  request_window (self (snd (check_failover rt pool w))) = request_window (self w).
Proof.
  destruct (last_pool (self w)) as [previous|] eqn:H.
  - destruct (decide (pool = previous)) as [->|Hne].
    + by rewrite check_failover_same.
    + destruct (Qlt_le_dec (inject_Z (cooldown (self w)))
                  (time_time rt (clock_reads w) - last_failover_alert (self w)))
        as [Hlt|Hle].
      * destruct (check_failover_alerted rt previous pool w H Hne Hlt) as [-> _]. done.
      * by rewrite (check_failover_muted rt previous pool w H Hne Hle).
  - by rewrite check_failover_first.
Qed.

Lemma check_error_rate_window w :
  request_window (self (snd (check_error_rate rt w))) = request_window (self w).
Proof.
  destruct (Nat.lt_ge_cases (deque_len (request_window (self w))) 10) as [Hlt|Hge].
  - by rewrite check_error_rate_cold.
  - destruct (Qlt_le_dec (error_threshold (self w))
                (error_rate_of (request_window (self w)))) as [Hth|Hth].
    + destruct (Qlt_le_dec (inject_Z (cooldown (self w)))
                  (time_time rt (clock_reads w) - last_error_alert (self w)))
        as [Hcd|Hcd].
      * destruct (check_error_rate_alerted rt w Hge Hth Hcd) as [-> _]. done.
      * rewrite check_error_rate_warm by done. simpl.
        apply Qgt_bool_iff in Hth. apply Qgt_bool_false_iff in Hcd.
        by rewrite Hth, Hcd.
    + rewrite check_error_rate_warm by done. simpl.
      apply Qgt_bool_false_iff in Hth. by rewrite Hth.
Qed.

Lemma check_error_rate_failover_view w :
  failover_view (snd (check_error_rate rt w)) = failover_view w.
Proof.
  destruct (Nat.lt_ge_cases (deque_len (request_window (self w))) 10) as [Hlt|Hge].
  - by rewrite check_error_rate_cold.
  - destruct (Qlt_le_dec (error_threshold (self w))
                (error_rate_of (request_window (self w)))) as [Hth|Hth].
    + destruct (Qlt_le_dec (inject_Z (cooldown (self w)))
                  (time_time rt (clock_reads w) - last_error_alert (self w)))
        as [Hcd|Hcd].
      * destruct (check_error_rate_alerted rt w Hge Hth Hcd) as (Hs & Hc & _).
        unfold failover_view, failover_alerts. rewrite Hs, Hc. simpl.
        f_equal. lia.
      * rewrite check_error_rate_warm by done. simpl.
        apply Qgt_bool_iff in Hth. apply Qgt_bool_false_iff in Hcd.
        by rewrite Hth, Hcd.
    + rewrite check_error_rate_warm by done. simpl.
      apply Qgt_bool_false_iff in Hth. by rewrite Hth.
Qed.

Lemma check_failover_stdout pool w :
  ∃ more, stdout (snd (check_failover rt pool w)) = stdout w ++ more.
Proof.
  destruct (last_pool (self w)) as [previous|] eqn:H.
  - destruct (decide (pool = previous)) as [->|Hne].
    + rewrite check_failover_same by done. exists []. by rewrite app_nil_r.
    + destruct (Qlt_le_dec (inject_Z (cooldown (self w)))
                  (time_time rt (clock_reads w) - last_failover_alert (self w)))
        as [Hlt|Hle].
      * destruct (check_failover_alerted rt previous pool w H Hne Hlt)
          as (_ & _ & [m Hm] & _). eauto.
      * rewrite (check_failover_muted rt previous pool w H Hne Hle).
        exists []. by rewrite app_nil_r.
  - rewrite check_failover_first by done. by exists [InitialPool pool].
Qed.

Lemma check_error_rate_stdout w :
  ∃ more, stdout (snd (check_error_rate rt w)) = stdout w ++ more.
Proof.
  destruct (Nat.lt_ge_cases (deque_len (request_window (self w))) 10) as [Hlt|Hge].
  { rewrite check_error_rate_cold by done. exists []. by rewrite app_nil_r. }
  rewrite check_error_rate_warm by done. simpl.
  destruct (Qgt_bool (error_rate_of _) _); [|exists []; by rewrite app_nil_r].
  destruct (Qgt_bool _ _); [|exists []; by rewrite app_nil_r].
  match goal with |- context [send_slack_alert rt ?t ?m ?c ?f ?w0] =>
    destruct (send_slack_alert_returns rt t m c f w0) as (w1 & Hs & _ & [m' Hout] & _)
  end.
  rewrite Hs. simpl. rewrite Hout. simpl. rewrite <- app_assoc. eauto.
Qed.

Lemma coerce_status_finite v :
  is_infinite v = false →
  ∃ z, coerce_status rt v = Return z.
Proof.
  unfold coerce_status.
  destruct v as [| b | z | [q|neg|] | s | l | m]; simpl; try done; eauto.
  destruct (int_of_str rt s); eauto.
Qed.


End More.

Lemma LogWatcher_init_window_ok webhook th size cd path ex mm s :
  LogWatcher_init webhook th size cd path ex mm = Return s →
  window_size s = size ∧ window_ok (start s).
Proof.
  unfold LogWatcher_init. destruct (size <? 0); [done|].
  destruct (2 ^ 63 <=? size); [done|].
  destruct webhook as [url|]; [|done]. destruct (String.eqb url EmptyString); [done|].
  intros [= <-]. unfold window_ok, deque_len; simpl. split; [done|]. split; [done|lia].
Qed.


(** ** What a line does to the window *)

Lemma foldl_deque_append_from d xs :
  (deque_len d ≤ maxlen d)%nat →
  items (foldl deque_append d xs) =
    drop (length (items d ++ xs) - maxlen d) (items d ++ xs).
Proof.
  intros Hd. induction xs as [|x xs IH] using rev_ind.
  - simpl. rewrite app_nil_r. unfold deque_len in Hd.
    by replace (length (items d) - maxlen d)%nat with 0%nat by lia.
  - rewrite foldl_app; simpl. unfold deque_append at 1; simpl.
    rewrite foldl_deque_append_maxlen, IH.
    rewrite app_assoc. set (l := items d ++ xs).
    rewrite !length_app, length_drop; simpl.
    destruct (Nat.ltb_spec (maxlen d) (length l - (length l - maxlen d) + 1)) as [Hlt|Hge].
    + replace (length l + 1 - maxlen d)%nat with ((length l - maxlen d) + 1)%nat by lia.
      rewrite <- (drop_app_le l [x]) by lia.
      rewrite <- (drop_drop _ 1 (length l - maxlen d))%nat.
      by destruct (drop (length l - maxlen d) (l ++ [x])).
    + replace (length l - maxlen d)%nat with 0%nat by lia.
      by replace (length l + 1 - maxlen d)%nat with 0%nat by lia.
Qed.

Section Lines.
Variable rt : Runtime.

Lemma coerce_status_raises v :
  (∃ e, coerce_status rt v = Raise e) ↔ is_infinite v = true.
Proof.
  unfold coerce_status.
  destruct v as [| b | z | [q|neg|] | s | l | m]; simpl;
    try (split; [intros [e He]; done|done]).
  - split; [done|]. eauto.
  - destruct (int_of_str rt s); (split; [intros [e He]; done|done]).
Qed.

Lemma encodable_cons h a b s :
  encodable h (String a (String b s)) =
    (negb ((byte_of a =? 237) && (160 <=? byte_of b)) ||
     surrogate_passes h (byte_of b)) && encodable h (String b s).
Proof. reflexivity. Qed.

(** What the strict handler writes, every handler writes. *)
Lemma encodable_strict h s : encodable Strict s = true → encodable h s = true.
Proof.
  induction s as [|a s IH]; [done|]. destruct s as [|b s']; [done|].
  rewrite !encodable_cons. intros H. apply andb_prop in H as [H1 H2].
  rewrite (IH H2), andb_true_r.
  cbn [surrogate_passes] in H1. rewrite orb_false_r in H1. by rewrite H1.
Qed.

Lemma stdout_write_strict h texts :
  forallb (encodable Strict) texts = true → stdout_write h texts = Return ().
Proof.
  intros H. unfold stdout_write.
  replace (forallb (encodable h) texts) with true; [done|].
  symmetry. apply forallb_forall. intros s Hs.
  apply encodable_strict. by apply (proj1 (forallb_forall _ _) H).
Qed.

(** A tracked entry of the right types, with what [process_log_entry]
    reads in it. *)
Lemma well_typed_tracked d :
  untracked_pool (default (JStr "unknown") (d !! "pool")) = false →
  negb (is_infinite (default (JInt 0) (d !! "status"))) &&
    is_str (default (JStr "unknown") (d !! "pool")) &&
    is_str (default (JStr "-") (d !! "upstream_status")) &&
    is_str_or_list (default (JStr "-") (d !! "request")) = true →
  ∃ z p u r,
    coerce_status rt (default (JInt 0) (d !! "status")) = Return z ∧
    default (JStr "unknown") (d !! "pool") = JStr p ∧
    format_s (default (JStr "unknown") (d !! "pool")) = Return p ∧
    format_s (default (JStr "-") (d !! "upstream_status")) = Return u ∧
    slice_to 50 (default (JStr "-") (d !! "request")) = Return r ∧
    entry_texts d = [p; u; shown (default (JInt 0) (d !! "request_time")); shown r].
Proof.
  intros H1 Hf. unfold entry_texts.
  apply andb_prop in Hf as [Hf H5]. apply andb_prop in Hf as [Hf H4].
  apply andb_prop in Hf as [H2 H3]. apply negb_true_iff in H2.
  destruct (coerce_status_finite rt _ H2) as [z Hz].
  destruct (default (JStr "unknown") (d !! "pool")) as [| | | |p| |]; try done.
  destruct (default (JStr "-") (d !! "upstream_status")) as [| | | |u| |]; try done.
  destruct (default (JStr "-") (d !! "request")) as [| | | |r|r|]; try done;
    simpl; eauto 10.
Qed.

Lemma processable_tracked d :
  untracked_pool (default (JStr "unknown") (d !! "pool")) = false →
  processable d = true →
  ∃ z p u r,
    coerce_status rt (default (JInt 0) (d !! "status")) = Return z ∧
    default (JStr "unknown") (d !! "pool") = JStr p ∧
    format_s (default (JStr "unknown") (d !! "pool")) = Return p ∧
    format_s (default (JStr "-") (d !! "upstream_status")) = Return u ∧
    slice_to 50 (default (JStr "-") (d !! "request")) = Return r ∧
    stdout_write (stdout_errors rt)
      [p; u; shown (default (JInt 0) (d !! "request_time")); shown r] = Return ().
Proof.
  intros H1 Hf. unfold processable in Hf. rewrite H1 in Hf.
  rewrite orb_false_l in Hf. apply andb_prop in Hf as [Hf H6].
  destruct (well_typed_tracked d H1 Hf) as (z & p & u & r & H2 & Hp & H3 & H4 & H5 & Ht).
  exists z, p, u, r. repeat (split; [done|]).
  apply stdout_write_strict. by rewrite <- Ht.
Qed.

(** A processable entry goes through all of [process_log_entry]. *)
Lemma process_log_entry_returns d w :
  processable d = true → fst (process_log_entry rt (JDict d) w) = Return ().
Proof.
  intros Hp.
  destruct (untracked_pool (default (JStr "unknown") (d !! "pool"))) eqn:H1.
  { by rewrite process_log_entry_untracked. }
  destruct (processable_tracked d H1 Hp) as (z & p & u & r & H2 & _ & H3 & H4 & H5 & H6).
  rewrite (process_log_entry_tracked rt d w z p u r) by done.
  apply check_error_rate_returns.
Qed.

(** An exception leaves [process_log_entry] before anything is printed or
    recorded. *)
Lemma process_log_entry_raises entry w e :
  fst (process_log_entry rt entry w) = Raise e →
  process_log_entry rt entry w = (Raise e, w).
Proof.
  destruct (process_log_entry_cases rt entry w)
    as [[e' ->]|[[_ ->]|(d & z & p & u & r & _ & _ & _ & _ & _ & _ & _ & ->)]].
  - simpl. by intros [= ->].
  - done.
  - by rewrite check_error_rate_returns.
Qed.

(** Under the strict handler the other entries raise. *)
Lemma process_log_entry_strict d w :
  stdout_errors rt = Strict → processable d = false →
  ∃ e, process_log_entry rt (JDict d) w = (Raise e, w).
Proof.
  intros Hs Hp.
  destruct (process_log_entry_cases rt (JDict d) w)
    as [H|[[(d' & [= <-] & H1) _]|(d' & z & p & u & r & [= <-] & H1 & H2 & H3 & H4 & H5 & H6 & _)]];
    [done| |]; exfalso; unfold processable in Hp; rewrite H1 in Hp; [done|].
  rewrite orb_false_l in Hp.
  assert (Hty : negb (is_infinite (default (JInt 0) (d !! "status"))) &&
                is_str (default (JStr "unknown") (d !! "pool")) &&
                is_str (default (JStr "-") (d !! "upstream_status")) &&
                is_str_or_list (default (JStr "-") (d !! "request")) = true).
  { assert (Hi : is_infinite (default (JInt 0) (d !! "status")) = false).
    { destruct (is_infinite _) eqn:E; [|done].
      apply coerce_status_raises in E as [e He]. congruence. }
    rewrite Hi. simpl.
    destruct (default (JStr "unknown") (d !! "pool")); try done.
    destruct (default (JStr "-") (d !! "upstream_status")); try done.
    by destruct (default (JStr "-") (d !! "request")). }
  rewrite Hty in Hp. rewrite andb_true_l in Hp.
  destruct (well_typed_tracked d H1 Hty)
    as (z' & p' & u' & r' & _ & _ & H3' & H4' & H5' & Hx).
  rewrite H3 in H3'. rewrite H4 in H4'. rewrite H5 in H5'.
  injection H3' as <-. injection H4' as <-. injection H5' as <-.
  rewrite Hx in Hp. rewrite Hs in H6. unfold stdout_write in H6.
  by rewrite Hp in H6.
Qed.

Lemma handle_line_returns l w :
  fatal_line l = false → fst (handle_line rt l w) = Return ().
Proof.
  unfold fatal_line, handle_line. munfold.
  destruct l as [v|e]; simpl.
  - destruct (truthy v) eqn:Ht.
    + destruct v as [| b | z | f | s | l | d]; simpl; try congruence.
      simpl in Ht. rewrite Ht. simpl. intros Hp. apply negb_false_iff in Hp.
      by apply process_log_entry_returns.
    + done.
  - by destruct (isinstance e JSONDecodeError).
Qed.

(** An exception leaves the body of the loop with the state as it was. *)
Lemma handle_line_raises l w e :
  fst (handle_line rt l w) = Raise e → handle_line rt l w = (Raise e, w).
Proof.
  unfold handle_line. munfold.
  destruct (parse_log_line l) as [entry|e']; simpl; [|by intros [= ->]].
  destruct (truthy entry); [apply process_log_entry_raises|done].
Qed.

Lemma handle_line_strict l w :
  stdout_errors rt = Strict → fatal_line l = true →
  ∃ e, handle_line rt l w = (Raise e, w).
Proof.
  intros Hs. unfold fatal_line, handle_line. munfold.
  destruct l as [v|e]; simpl.
  - destruct (truthy v) eqn:Ht.
    + destruct v as [| b | z | f | s | l | d]; simpl;
        try (rewrite process_log_entry_not_dict by done; eauto).
      simpl in Ht. rewrite Ht. simpl. intros Hp. apply negb_true_iff in Hp.
      by apply process_log_entry_strict.
    + destruct v as [| b | z | f | s | l | d]; simpl; try done.
      simpl in Ht. by rewrite Ht.
  - destruct (isinstance e JSONDecodeError); simpl; [done|eauto].
Qed.

End Lines.

Section Runs.
Variable rt : Runtime.

Lemma tail_log_app xs ys w :
  tail_log rt (xs ++ ys) w =
    match tail_log rt xs w with
    | (Return _, w') => tail_log rt ys w'
    | (Raise e, w') => (Raise e, w')
    end.
Proof.
  revert w. induction xs as [|x xs IH]; intros w; simpl; [done|].
  munfold. destruct (handle_line rt x w) as [[[]|e] w1]; [apply IH|done].
Qed.

Lemma tail_log_returns lines w :
  Forall (λ l, fatal_line l = false) lines → fst (tail_log rt lines w) = Return ().
Proof.
  intros H. revert w. induction H as [|l rest Hl _ IH]; intros w; simpl; [done|].
  munfold. pose proof (handle_line_returns rt l w Hl) as Ho.
  destruct (handle_line rt l w) as [[[]|e] w1]; simpl in *; [apply IH|done].
Qed.

Lemma handle_line_window l w :
  fatal_line l = false →
  request_window (self (snd (handle_line rt l w))) =
    match recorded_status rt l with
    | Some z => deque_append (request_window (self w)) z
    | None => request_window (self w)
    end.
Proof.
  intros Hf. unfold fatal_line, recorded_status in *.
  destruct l as [v|e]; [|unfold handle_line; munfold; simpl;
                          by destruct (isinstance e JSONDecodeError)].
  destruct v as [| b | z | f | s | l | d];
    try (unfold handle_line; munfold; simpl in *; try rewrite Hf; done).
  unfold handle_line. munfold. simpl parse_log_line. cbv iota beta.
  destruct (truthy (JDict d)) eqn:Ht; [|done]. simpl in Hf.
  apply negb_false_iff in Hf. unfold processable in Hf.
  destruct (untracked_pool (default (JStr "unknown") (d !! "pool"))) eqn:H1.
  { simpl. by rewrite process_log_entry_untracked. }
  simpl in Hf. simpl.
  assert (Hp : processable d = true) by (unfold processable; by rewrite H1).
  destruct (processable_tracked rt d H1 Hp) as (z & p & u & r & Hz & _ & H3 & H4 & H5 & H6).
  rewrite Hz. rewrite (process_log_entry_tracked rt d w z p u r) by done.
  by rewrite check_error_rate_window, check_failover_window.
Qed.

Lemma tail_log_window lines w :
  Forall (λ l, fatal_line l = false) lines →
  request_window (self (snd (tail_log rt lines w))) =
    foldl deque_append (request_window (self w)) (omap (recorded_status rt) lines).
Proof.
  intros H. revert w. induction H as [|l rest Hl Hrest IH]; intros w; simpl; [done|].
  munfold. pose proof (handle_line_returns rt l w Hl) as Ho.
  pose proof (handle_line_window l w Hl) as Hw.
  destruct (handle_line rt l w) as [[[]|e] w1]; simpl in *; [|done].
  rewrite IH, Hw. by destruct (recorded_status rt l).
Qed.

End Runs.

(** * The claims *)

(** ** The error rate (C1) *)

(** Claim C1, as amended.  Below 10 recorded statuses the error rate is not
    meaningful and [check_error_rate] does nothing, whatever the statuses
    are.  From 10 statuses on, the rate is the float
    [(count(status >= 500) / length) * 100]: the quotient and the product
    are each rounded to binary64.  It lies between 0 and 100 and is the
    [100 * count / length] of the specification up to the two roundings (a
    relative [2 ^ -51]).  The alert condition is [rate > threshold],
    strictly, on the rounded rate: at a rate no higher than the threshold
    nothing happens, above it the clock is read and the alert goes out when
    the cooldown has passed. *)
Theorem error_rate_cold_start_and_strict_threshold (rt : Runtime) (w : World) (r : Q) :
  let d := request_window (self w) in
  let now := time_time rt (clock_reads w) in
  let w' := snd (check_error_rate rt w) in
  let rate := error_rate_of d in
  ((deque_len d < 10)%nat →
     spec_error_rate (items d) = None ∧ check_error_rate rt w = (Return (), w)) ∧
  ((10 ≤ deque_len d)%nat → is_Some (spec_error_rate (items d))) ∧
  rate = fl64 (fl64 (inject_Z (Z.of_nat (error_count d)) /
                     inject_Z (Z.of_nat (deque_len d))) * 100)%Q ∧
  (0 <= rate <= 100)%Q ∧
  (spec_error_rate (items d) = Some r → Z.of_nat (deque_len d) < 2 ^ 63 →
     (10 ≤ deque_len d)%nat ∧
     (r * (1 - two_roundings) <= rate <= r * (1 + two_roundings))%Q) ∧
  fst (check_error_rate rt w) = Return () ∧
  ((10 ≤ deque_len d)%nat →
     ((rate <= error_threshold (self w))%Q → w' = w) ∧
     ((error_threshold (self w) < rate)%Q →
        (now - last_error_alert (self w) <= inject_Z (cooldown (self w)))%Q →
        w' = ticked w) ∧
     ((error_threshold (self w) < rate)%Q →
        (inject_Z (cooldown (self w)) < now - last_error_alert (self w))%Q →
        error_rate_alerts w' = S (error_rate_alerts w) ∧
        last_error_alert (self w') = now)).
Proof.
  intros d now w' rate. split; [|split; [|split; [|split; [|split; [|split]]]]].
  - intros Hlt. split.
    + unfold spec_error_rate. fold (deque_len d).
      apply Nat.ltb_lt in Hlt. by rewrite Hlt.
    + by apply check_error_rate_cold.
  - intros Hge. unfold spec_error_rate. fold (deque_len d).
    apply Nat.ltb_ge in Hge. rewrite Hge. eauto.
  - reflexivity.
  - apply error_rate_of_bounds.
  - apply error_rate_of_close.
  - apply check_error_rate_returns.
  - intros Hge. subst w'. rewrite (check_error_rate_warm rt w Hge). simpl.
    fold d. fold rate. fold now.
    split; [|split].
    + intros Hle. apply Qgt_bool_false_iff in Hle. by rewrite Hle.
    + intros Hlt Hcd. apply Qgt_bool_iff in Hlt. apply Qgt_bool_false_iff in Hcd.
      by rewrite Hlt, Hcd.
    + intros Hlt Hcd. apply Qgt_bool_iff in Hlt. apply Qgt_bool_iff in Hcd.
      rewrite Hlt, Hcd. split; [|done].
      unfold error_rate_alerts. rewrite alerts_dispatched_with_self.
      match goal with |- context [send_slack_alert rt ?t ?m ?c ?f ?w0] =>
        destruct (send_slack_alert_returns rt t m c f w0) as (w1 & Hs & _ & _ & Hc)
      end.
      rewrite Hs. simpl. rewrite Hc, String.eqb_refl.
      rewrite alerts_dispatched_printed by done.
      rewrite alerts_dispatched_ticked. lia.
Qed.

(** An empty window; a window at 10% over the threshold of 2%, whose rate
    is within the rounding of 10; the same ten seconds after an alert; and
    a window with no error. *)
Lemma error_rate_witness :
  check_error_rate (runtime_of steady_clock) (start (watcher_with 200 false)) =
    (Return (), start (watcher_with 200 false)) ∧
  ((100 # 10) * (1 - two_roundings) <= error_rate_of (request_window (self warm_world))
     <= (100 # 10) * (1 + two_roundings))%Q ∧
  error_rate_alerts (snd (check_error_rate (runtime_of steady_clock) warm_world)) = 1%nat ∧
  snd (check_error_rate (runtime_of steady_clock) alerted_world) = ticked alerted_world ∧
  snd (check_error_rate (runtime_of steady_clock) healthy_world) = healthy_world.
Proof.
  split; [|split; [|split; [|split]]].
  - apply (error_rate_cold_start_and_strict_threshold (runtime_of steady_clock)
             (start (watcher_with 200 false)) 0).
    vm_compute. lia.
  - apply (error_rate_cold_start_and_strict_threshold (runtime_of steady_clock)
             warm_world (100 # 10)).
    + reflexivity.
    + reflexivity.
  - apply (error_rate_cold_start_and_strict_threshold (runtime_of steady_clock)
             warm_world (100 # 10)).
    + vm_compute. lia.
    + reflexivity.
    + reflexivity.
  - apply (error_rate_cold_start_and_strict_threshold (runtime_of steady_clock)
             alerted_world (100 # 10)).
    + vm_compute. lia.
    + reflexivity.
    + vm_compute. discriminate.
  - apply (error_rate_cold_start_and_strict_threshold (runtime_of steady_clock)
             healthy_world (0 # 10)).
    + vm_compute. lia.
    + vm_compute. discriminate.
Defined.

(** Claim C1 as stated fails at the threshold: with 11 errors in 20
    statuses the rate of the specification is exactly 55, which is not
    above a threshold of 55; the rate of the code is
    55.00000000000001, and the alert goes out. *)
Lemma rate_equal_to_threshold_alerts :
  (∃ r, spec_error_rate (items (request_window (self boundary_world))) = Some r ∧
        (r == 55)%Q ∧ Qgt_bool r (error_threshold (self boundary_world)) = false) ∧
  (error_rate_of (request_window (self boundary_world)) ==
     55 + (1 # 2 ^ 47))%Q ∧
  error_rate_alerts boundary_world = 0%nat ∧
  error_rate_alerts (snd (check_error_rate (runtime_of steady_clock) boundary_world))
  = 1%nat ∧
  length (network (snd (check_error_rate (runtime_of steady_clock) boundary_world)))
  = 1%nat.
Proof.
  split; [|split; [|split; [|split]]].
  - eexists. split; [reflexivity|]. split; reflexivity.
  - reflexivity.
  - reflexivity.
  - vm_compute. reflexivity.
  - vm_compute. reflexivity.
Qed.

(** ** The rolling window (C2) *)

(** Claim C2.  Whatever statuses are recorded, the window never holds more
    than its capacity: after the statuses [xs] it holds the last [N] of them
    in arrival order, which is also what recording only those last [N]
    gives.  Appending to a full window drops its oldest status; after
    capacity + 1 insertions the first one is gone and the window is the one
    built from the other insertions.  In the watcher the capacity is
    [WINDOW_SIZE]: no run of [tail_log] takes the window over it, every
    tracked entry that is processed appends its coerced status to the
    window, and after a run without a fatal line the window of a watcher
    made by [__init__] is the deque built from the statuses of the tracked
    entries, that is the last [WINDOW_SIZE] of them in the order of the
    lines. *)
Theorem rolling_window_bounded_fifo (rt : Runtime) (N : nat) (x0 x : Z) (xs : list Z)
    (webhook : option string) (th : Q) (size cd : Z) (path : string)
    (ex mm : bool) (s : LogWatcher) (lines : list line)
    (w : World) (entry : gmap string json) :
  let d := foldl deque_append (deque_new N) xs in
  let full := {| maxlen := S (length xs); items := x0 :: xs |} in
  (deque_len d ≤ N)%nat ∧
  items d = drop (length xs - N) xs ∧
  d = foldl deque_append (deque_new N) (drop (length xs - N) xs) ∧
  items (deque_append full x) = xs ++ [x] ∧
  foldl deque_append (deque_new (length xs)) (x0 :: xs) =
    foldl deque_append (deque_new (length xs)) xs ∧
  items (foldl deque_append (deque_new (length xs)) (x0 :: xs)) = xs ∧
  (LogWatcher_init webhook th size cd path ex mm = Return s →
   let w' := snd (tail_log rt lines (start s)) in
   let recorded := omap (recorded_status rt) lines in
   maxlen (request_window (self w')) = Z.to_nat size ∧
   (deque_len (request_window (self w')) ≤ Z.to_nat size)%nat ∧
   (Forall (λ l, fatal_line l = false) lines →
    request_window (self w') = foldl deque_append (deque_new (Z.to_nat size)) recorded ∧
    items (request_window (self w')) =
      drop (length recorded - Z.to_nat size) recorded)) ∧
  (untracked_pool (default (JStr "unknown") (entry !! "pool")) = false →
   processable entry = true →
   ∃ z, coerce_status rt (default (JInt 0) (entry !! "status")) = Return z ∧
        request_window (self (snd (process_log_entry rt (JDict entry) w))) =
          deque_append (request_window (self w)) z).
Proof.
  intros d full.
  assert (Hitems : ∀ n ys, items (foldl deque_append (deque_new n) ys)
                           = drop (length ys - n) ys)
    by apply foldl_deque_append_items.
  assert (Heq : ∀ n ys zs, items (foldl deque_append (deque_new n) ys) = zs →
                foldl deque_append (deque_new n) ys = {| maxlen := n; items := zs |}).
  { intros n ys zs <-.
    pose proof (foldl_deque_append_maxlen ys (deque_new n)) as Hm.
    destruct (foldl deque_append (deque_new n) ys); simpl in *. by subst. }
  split; [|split; [|split; [|split; [|split; [|split; [|split]]]]]].
  - unfold deque_len, d. rewrite Hitems, length_drop. lia.
  - apply Hitems.
  - unfold d. rewrite (Heq N xs _ (Hitems N xs)). symmetry. apply Heq.
    rewrite Hitems, length_drop, drop_drop. f_equal. lia.
  - unfold deque_append, full; simpl.
    rewrite length_app; simpl.
    destruct (Nat.ltb_spec (S (length xs)) (S (length xs + 1))); [done|lia].
  - rewrite (Heq _ (x0 :: xs) xs), (Heq _ xs xs); [done| |].
    + rewrite Hitems. by replace (length xs - length xs)%nat with 0%nat by lia.
    + rewrite Hitems. simpl.
      by replace (S (length xs) - length xs)%nat with 1%nat by lia.
  - rewrite Hitems. simpl.
    by replace (S (length xs) - length xs)%nat with 1%nat by lia.
  - intros H w' recorded.
    destruct (LogWatcher_init_window_ok _ _ _ _ _ _ _ _ H) as [Hs Hok].
    destruct (tail_log_ok rt lines (start s)) as ((_&_&Hsz&_)&_&Hw).
    destruct (Hw Hok) as [Hm Hl]. fold w' in Hm, Hl, Hsz.
    assert (Hnew : request_window s = deque_new (Z.to_nat size)).
    { unfold LogWatcher_init in H. destruct (size <? 0); [done|].
      destruct (2 ^ 63 <=? size); [done|].
      destruct webhook as [url|]; [|done].
      destruct (String.eqb url EmptyString); [done|]. by injection H as <-. }
    split; [rewrite Hm, Hsz; simpl; by rewrite Hs|].
    split; [rewrite Hm, Hsz in Hl; simpl in Hl; by rewrite <- Hs|].
    intros Hf. unfold w'. rewrite (tail_log_window rt lines (start s) Hf).
    simpl. rewrite Hnew. split; [done|]. apply Hitems.
  - intros Hu Hp.
    destruct (processable_tracked rt entry Hu Hp)
      as (z & p & u & r & H2 & _ & H3 & H4 & H5 & H6).
    exists z. split; [done|].
    rewrite (process_log_entry_tracked rt entry w z p u r) by done.
    by rewrite check_error_rate_window, check_failover_window.
Qed.

(** Three entries through a watcher with a window of two: the first
    status is gone, the other two are there in the order of the lines; and
    one more entry, which pushes out the 503. *)
Lemma rolling_window_witness :
  items (request_window (self (snd
     (tail_log (runtime_of steady_clock) three_lines (start (watcher_with 2 false))))))
  = [503; 200] ∧
  (∃ z, coerce_status (runtime_of steady_clock) (JInt 404) = Return z ∧
        request_window (self (snd (process_log_entry (runtime_of steady_clock)
          (entry_of "blue" 404)
          (snd (tail_log (runtime_of steady_clock) three_lines
                  (start (watcher_with 2 false))))))) =
        deque_append {| maxlen := 2; items := [503; 200] |} z).
Proof.
  pose proof (rolling_window_bounded_fifo (runtime_of steady_clock) 2 200 200 [503; 200]
           (Some "https://hooks.slack.com/services/T/B/X") 2 2 300
           "/var/log/nginx/access.log" true false
           (watcher_with 2 false) three_lines
           (snd (tail_log (runtime_of steady_clock) three_lines
                   (start (watcher_with 2 false))))
           (<["pool" := JStr "blue"]> (<["status" := JInt 404]> ∅))) as H.
  destruct H as (_ & _ & _ & _ & _ & _ & H7 & H8).
  split.
  - refine (proj2 (proj2 (proj2 (H7 _)) _)).
    + reflexivity.
    + repeat constructor.
  - apply H8; reflexivity.
Defined.

(** ** The failover detector (C3, C4) *)

(** Claim C3.  Let the pool change three times, [w0], [w1] and [w2] being
    the states in which the changes are observed; what happens between two
    observations is free as long as it leaves the detector's view alone (as
    the rest of [process_log_entry] does).  If the first change alerts, at
    [t1], and the second is seen no later than [cooldown] after [t1], the
    two changes make exactly one failover alert; a third change seen later
    than [cooldown] after [t1] makes the second alert.  [last_pool] is the
    observed pool after every call, alert or not: the third change is
    reported as leaving [c], the pool of the muted change. *)
Theorem failover_cooldown_burst (rt : Runtime) (w0 w1 w2 : World)
    (a b c d : string) :
  let cd := inject_Z (cooldown (self w0)) in
  let t1 := time_time rt (clock_reads w0) in
  let t2 := time_time rt (clock_reads w1) in
  let t3 := time_time rt (clock_reads w2) in
  let w1' := snd (check_failover rt b w0) in
  let w2' := snd (check_failover rt c w1) in
  let w3' := snd (check_failover rt d w2) in
  last_pool (self w0) = Some a → b ≠ a → c ≠ b → d ≠ c →
  failover_view w1 = failover_view w1' →
  failover_view w2 = failover_view w2' →
  (cd < t1 - last_failover_alert (self w0))%Q →
  (t2 - t1 <= cd)%Q →
  (cd < t3 - t1)%Q →
  failover_alerts w1' = S (failover_alerts w0) ∧
  failover_alerts w2' = S (failover_alerts w0) ∧
  failover_alerts w3' = S (S (failover_alerts w0)) ∧
  last_pool (self w1') = Some b ∧
  last_pool (self w2') = Some c ∧
  last_pool (self w3') = Some d ∧
  last_failover_alert (self w2') = t1 ∧
  last_failover_alert (self w3') = t3 ∧
  (∃ m, stdout w3' = stdout w2 ++ [FailoverLine c d; m]) ∧
  (∀ w pool, last_pool (self (snd (check_failover rt pool w))) = Some pool) ∧
  (∀ w, failover_view (snd (check_error_rate rt w)) = failover_view w) ∧
  (∀ w m z, is_suppressed failover_title m = false →
            failover_view (with_self (window_append z) (printed m w)) = failover_view w).
Proof.
  intros cd t1 t2 t3 w1' w2' w3' Ha Hb Hc Hd Hv1 Hv2 H1 H2 H3.
  destruct (check_failover_alerted rt a b w0 Ha Hb H1) as (Hs1 & Hc1 & _ & _).
  fold w1' in Hs1, Hc1. fold t1 in Hs1.
  unfold failover_view in Hv1. rewrite Hs1 in Hv1. simpl in Hv1.
  injection Hv1 as Hp1 Hl1 Hcd1 Hn1.
  assert (Hw2 : w2' = with_self (set_last_pool c) (ticked w1)).
  { unfold w2'. rewrite (check_failover_muted rt b c w1); [done|done|done|].
    fold t2. by rewrite Hl1, Hcd1. }
  unfold failover_view in Hv2. rewrite Hw2 in Hv2. simpl in Hv2.
  injection Hv2 as Hp2 Hl2 Hcd2 Hn2.
  unfold failover_alerts in Hn2.
  rewrite alerts_dispatched_with_self, alerts_dispatched_ticked in Hn2.
  fold (failover_alerts w1) in Hn2. fold (failover_alerts w2) in Hn2.
  assert (H3' : (inject_Z (cooldown (self w2)) <
                 time_time rt (clock_reads w2) - last_failover_alert (self w2))%Q).
  { fold t3. by rewrite Hl2, Hl1, Hcd2, Hcd1. }
  destruct (check_failover_alerted rt c d w2 Hp2 Hd H3') as (Hs3 & Hc3 & Hout3 & _).
  fold w3' in Hs3, Hc3, Hout3. fold t3 in Hs3.
  assert (Hf1 : failover_alerts w1' = S (failover_alerts w0)).
  { unfold failover_alerts. rewrite Hc1, String.eqb_refl. lia. }
  repeat split; try done.
  - rewrite Hw2. unfold failover_alerts.
    rewrite alerts_dispatched_with_self, alerts_dispatched_ticked.
    fold (failover_alerts w1). by rewrite Hn1.
  - unfold failover_alerts. rewrite Hc3, String.eqb_refl.
    fold (failover_alerts w2). rewrite Hn2, Hn1, Hf1.
    unfold failover_alerts. lia.
  - by rewrite Hs1.
  - by rewrite Hw2.
  - by rewrite Hs3.
  - rewrite Hw2. simpl. by rewrite Hl1.
  - by rewrite Hs3.
  - intros w pool. apply check_failover_last_pool.
  - intros w. apply check_error_rate_failover_view.
  - intros w m z Hm. unfold failover_view, failover_alerts.
    rewrite alerts_dispatched_with_self, alerts_dispatched_printed by done.
    done.
Qed.

(** "blue" to "green" alerts, back to "blue" 200 s later is muted, to
    "green" again 500 s after that alerts. *)
Lemma failover_cooldown_witness :
  failover_alerts
    (snd (check_failover (runtime_of burst_clock) "green"
       (snd (check_failover (runtime_of burst_clock) "blue"
          (snd (check_failover (runtime_of burst_clock) "green" blue_world))))))
  = 2%nat.
Proof.
  refine (proj1 (proj2 (proj2
    (failover_cooldown_burst (runtime_of burst_clock) blue_world
       (snd (check_failover (runtime_of burst_clock) "green" blue_world))
       (snd (check_failover (runtime_of burst_clock) "blue"
          (snd (check_failover (runtime_of burst_clock) "green" blue_world))))
       "blue" "green" "blue" "green" _ _ _ _ _ _ _ _ _)))).
  - reflexivity.
  - discriminate.
  - discriminate.
  - discriminate.
  - reflexivity.
  - reflexivity.
  - reflexivity.
  - vm_compute. discriminate.
  - reflexivity.
Defined.

(** Claim C4.  When [last_pool] is unset, [check_failover] only records the
    pool and prints it, whatever the pool is: no failover alert, no webhook
    call, and the cooldown timestamps and the window stay as they were. *)
Theorem first_pool_is_baseline (rt : Runtime) (w : World) (pool : string) :
  last_pool (self w) = None →
  let w' := snd (check_failover rt pool w) in
  check_failover rt pool w =
    (Return (), printed (InitialPool pool) (with_self (set_last_pool pool) w)) ∧
  failover_alerts w' = failover_alerts w ∧
  network w' = network w ∧
  last_pool (self w') = Some pool ∧
  last_failover_alert (self w') = last_failover_alert (self w) ∧
  last_error_alert (self w') = last_error_alert (self w) ∧
  request_window (self w') = request_window (self w).
Proof.
  intros H w'. subst w'. rewrite check_failover_first by done.
  repeat split. simpl. unfold failover_alerts.
  rewrite alerts_dispatched_printed by done. apply alerts_dispatched_with_self.
Qed.

(** The first pool a fresh watcher sees. *)
Lemma first_pool_witness :
  failover_alerts (snd (check_failover (runtime_of steady_clock) "green"
                          (start (watcher_with 200 false)))) = 0%nat ∧
  last_pool (self (snd (check_failover (runtime_of steady_clock) "green"
                          (start (watcher_with 200 false))))) = Some "green".
Proof.
  split.
  - refine (proj1 (proj2 (first_pool_is_baseline (runtime_of steady_clock)
                            (start (watcher_with 200 false)) "green" _))).
    reflexivity.
  - refine (proj1 (proj2 (proj2 (proj2 (first_pool_is_baseline (runtime_of steady_clock)
                            (start (watcher_with 200 false)) "green" _))))).
    reflexivity.
Defined.

(** ** Maintenance mode (C5) *)

(** Claim C5.  In maintenance mode [send_slack_alert] returns normally after
    printing its "suppressed" line and nothing else, and no webhook call is
    made by either check, by the processing of any entry, or by any run of
    [tail_log] or [run], whatever the lines are. *)
Theorem maintenance_mode_makes_no_calls (rt : Runtime) (w : World) :
  maintenance_mode (self w) = true →
  (∀ title msg color fields,
     send_slack_alert rt title msg color fields w =
       (Return (), printed (AlertSuppressed title) w)) ∧
  (∀ pool, network (snd (check_failover rt pool w)) = network w) ∧
  network (snd (check_error_rate rt w)) = network w ∧
  (∀ entry, network (snd (process_log_entry rt entry w)) = network w) ∧
  (∀ lines, network (snd (tail_log rt lines w)) = network w) ∧
  (∀ lines, network (snd (run rt lines w)) = network w).
Proof.
  intros Hm. repeat split.
  - intros. by apply send_slack_alert_maintenance.
  - intros pool. by apply (check_failover_ok rt pool w).
  - by apply (check_error_rate_ok rt w).
  - intros entry. by apply (process_log_entry_ok rt entry w).
  - intros lines. by apply (tail_log_ok rt lines w).
  - intros lines. unfold run.
    pose proof (tail_log_ok rt lines w) as (_ & Hn & _).
    destruct (tail_log rt lines w) as [[[]|e] w']; simpl in *; auto.
Qed.

(** A run that alerts twice when maintenance mode is off. *)
Lemma maintenance_mode_witness :
  network (snd (tail_log (runtime_of steady_clock) alerting_lines
                  (start (watcher_with 200 true)))) = [].
Proof.
  refine (proj1 (proj2 (proj2 (proj2 (proj2
    (maintenance_mode_makes_no_calls (runtime_of steady_clock)
       (start (watcher_with 200 true)) _))))) alerting_lines).
  reflexivity.
Defined.

(** ** Field handling (C6) *)

(** Claim C6, as amended.  A field takes its default when its key is absent
    (pool "unknown", status 0, upstream_status "-", request "-").  When the
    pool is a string or null, the upstream_status a string, the request a
    string or a list, the status not an infinite float, and [sys.stdout]
    can encode the strings that the log line shows (they hold no lone
    surrogate that its error handler refuses), processing the entry returns
    without raising: the status is coerced by [int()], any [ValueError] or
    [TypeError] of the coercion gives 0 (null, NaN, a list, an object, a
    string that is no integer), and for a tracked pool the coerced status
    is what the window receives, while the log line shows the fields with
    their defaults and the request_time as it came. *)
Theorem entry_with_text_fields_never_raises (rt : Runtime) (w : World)
    (d : gmap string json) :
  let pool := default (JStr "unknown") (d !! "pool") in
  let status := default (JInt 0) (d !! "status") in
  let upstream_status := default (JStr "-") (d !! "upstream_status") in
  let request := default (JStr "-") (d !! "request") in
  let w' := snd (process_log_entry rt (JDict d) w) in
  is_str pool = true ∨ pool = JNull →
  is_str upstream_status = true →
  is_str_or_list request = true →
  is_infinite status = false →
  forallb (encodable (stdout_errors rt)) (entry_texts d) = true →
  fst (process_log_entry rt (JDict d) w) = Return () ∧
  (∃ z, coerce_status rt status = Return z ∧
        (untracked_pool pool = false →
         request_window (self w') = deque_append (request_window (self w)) z ∧
         ∃ p u r more,
           pool = JStr p ∧ upstream_status = JStr u ∧
           slice_to 50 request = Return r ∧
           stdout w' =
             stdout w ++
             LogLine (emoji_of z) p z u (default (JInt 0) (d !! "request_time")) r
               :: more)) ∧
  (∀ e, py_int (int_of_str rt) status = Raise e →
        coerce_status rt status = Return 0) ∧
  (d !! "status" = None → coerce_status rt status = Return 0) ∧
  coerce_status rt JNull = Return 0 ∧
  coerce_status rt (JFloat NaN) = Return 0 ∧
  (∀ l, coerce_status rt (JList l) = Return 0) ∧
  (∀ m, coerce_status rt (JDict m) = Return 0) ∧
  (∀ s, coerce_status rt (JStr s) = Return (default 0 (int_of_str rt s))).
Proof.
  intros pool status upstream_status request w' Hpool Hup Hreq Hst Henc.
  destruct (coerce_status_finite rt status Hst) as [z Hz].
  assert (Htail : ∀ s, coerce_status rt (JStr s) = Return (default 0 (int_of_str rt s))).
  { intros s. unfold coerce_status; simpl. by destruct (int_of_str rt s). }
  assert (Hexn : ∀ e, py_int (int_of_str rt) status = Raise e →
                      coerce_status rt status = Return 0).
  { intros e He. unfold coerce_status in *. rewrite He in *.
    destruct (isinstance e ValueError || isinstance e TypeError); [done|].
    by rewrite Hz in *. }
  assert (Habs : d !! "status" = None → coerce_status rt status = Return 0).
  { intros Hn. unfold status. by rewrite Hn. }
  assert (Htracked : untracked_pool pool = false →
            ∃ p u r, pool = JStr p ∧ upstream_status = JStr u ∧
                     slice_to 50 request = Return r ∧
                     process_log_entry rt (JDict d) w =
                       check_error_rate rt
                         (snd (check_failover rt p
                            (with_self (window_append z)
                               (printed (LogLine (emoji_of z) p z u
                                  (default (JInt 0) (d !! "request_time")) r) w))))).
  { intros Hu.
    destruct Hpool as [Hpool|Hpool]; [|by rewrite Hpool in Hu].
    assert (Hty : negb (is_infinite status) && is_str pool &&
                  is_str upstream_status && is_str_or_list request = true)
      by (by rewrite Hst, Hpool, Hup, Hreq).
    destruct (well_typed_tracked rt d Hu Hty)
      as (z' & p & u & r & H2 & Hp & H3 & H4 & H5 & Ht).
    fold status in H2. rewrite Hz in H2. injection H2 as <-.
    exists p, u, r. split; [done|].
    split; [fold upstream_status in H4; by destruct upstream_status; simplify_eq/=|].
    split; [done|].
    apply process_log_entry_tracked; try done.
    unfold stdout_write. by rewrite <- Ht, Henc. }
  split; [|split; [|repeat split; done]].
  - destruct (untracked_pool pool) eqn:Hu.
    { by rewrite process_log_entry_untracked. }
    destruct (Htracked eq_refl) as (p & u & r & _ & _ & _ & ->).
    apply check_error_rate_returns.
  - exists z. split; [done|]. intros Hu.
    destruct (Htracked Hu) as (p & u & r & Hp & Hu' & Hr & Hrun).
    subst w'. rewrite Hrun.
    split; [by rewrite check_error_rate_window, check_failover_window|].
    exists p, u, r.
    match goal with |- context [check_failover rt p ?w0] =>
      destruct (check_failover_stdout rt p w0) as [m1 Hm1];
      destruct (check_error_rate_stdout rt (snd (check_failover rt p w0))) as [m2 Hm2]
    end.
    exists (m1 ++ m2). rewrite Hm2, Hm1. simpl.
    split; [done|]. split; [done|]. split; [done|]. by rewrite <- !app_assoc.
Qed.

(** An ordinary entry. *)
Lemma entry_with_text_fields_witness :
  fst (process_log_entry (runtime_of steady_clock) (entry_of "blue" 503)
         (start (watcher_with 200 false))) = Return ().
Proof.
  refine (proj1 (entry_with_text_fields_never_raises (runtime_of steady_clock)
            (start (watcher_with 200 false))
            (<["pool" := JStr "blue"]> (<["status" := JInt 503]> ∅)) _ _ _ _ _)).
  - left. reflexivity.
  - reflexivity.
  - reflexivity.
  - reflexivity.
  - reflexivity.
Defined.

(** Claim C6 as stated fails: an upstream_status that is a JSON number is
    not replaced by "-"; formatting it raises [ValueError] out of
    [process_log_entry], and [run] ends the process with status 1. *)
Lemma numeric_upstream_status_raises :
  process_log_entry (runtime_of steady_clock) numeric_upstream_entry
    (start (watcher_with 200 false))
  = (Raise ValueError, start (watcher_with 200 false)) ∧
  run (runtime_of steady_clock) [Return numeric_upstream_entry]
    (start (watcher_with 200 false))
  = (Some 1, printed (FatalError ValueError) (start (watcher_with 200 false))).
Proof. split; vm_compute; reflexivity. Qed.

(** The coercion of the status does not catch [OverflowError], which
    [int()] raises on an infinite float. *)
Example infinite_status_overflows :
  process_log_entry (runtime_of steady_clock)
    (JDict (<["pool" := JStr "blue"]> (<["status" := JFloat (Infinity false)]> ∅)))
    (start (watcher_with 200 false))
  = (Raise OverflowError, start (watcher_with 200 false)).
Proof. reflexivity. Qed.

(** A request with a lone surrogate is of the right type, but the print of
    the log line cannot encode it: under the strict and the surrogateescape
    handler the entry raises [UnicodeEncodeError] with nothing recorded. *)
Example lone_surrogate_is_not_printed :
  ∀ clock answers parse h, h ≠ Replace →
    process_log_entry
      {| time_time := clock; requests_post := answers; int_of_str := parse;
         stdout_errors := h |}
      surrogate_entry (start (watcher_with 200 false))
    = (Raise UnicodeEncodeError, start (watcher_with 200 false)).
Proof. intros clock answers parse [| |] H; [reflexivity|reflexivity|done]. Qed.

(** ** Lines and decoding (C7, C8, C9) *)

(** Claim C7, on the line [[1]]: it decodes to a list, so [parse_log_line]
    returns the list and not "no entry"; the list is true, so it is handed to
    [process_log_entry], whose [entry.get] raises [AttributeError]; [run]
    prints the fatal error and exits with status 1. *)
Theorem json_array_line_is_fatal :
  parse_log_line (Return (JList [JInt 1])) = Return (JList [JInt 1]) ∧
  handle_line (runtime_of steady_clock) (Return (JList [JInt 1]))
    (start (watcher_with 200 false))
  = (Raise AttributeError, start (watcher_with 200 false)) ∧
  run (runtime_of steady_clock) [Return (JList [JInt 1])]
    (start (watcher_with 200 false))
  = (Some 1, printed (FatalError AttributeError) (start (watcher_with 200 false))).
Proof. repeat split. Qed.

(** Claim C8, on a line of 100000 opening brackets, on which [json.loads]
    raises [RecursionError], and on a number of 5000 digits, on which it
    raises a [ValueError] that is no [JSONDecodeError]: [parse_log_line]
    catches [JSONDecodeError] only, so the exception leaves it and the
    loop; [run] prints the fatal error and exits with status 1, and the
    lines that follow are not read.  The state is as it was, as the claim
    says; the watcher has stopped, which the claim excludes.  (A line on
    which the decoder raises [JSONDecodeError] is skipped.) *)
Theorem undecodable_line_can_end_the_watcher :
  parse_log_line (Raise RecursionError) = Raise RecursionError ∧
  handle_line (runtime_of steady_clock) (Raise RecursionError) warm_world
  = (Raise RecursionError, warm_world) ∧
  tail_log (runtime_of steady_clock) (Raise RecursionError :: alerting_lines) warm_world
  = (Raise RecursionError, warm_world) ∧
  run (runtime_of steady_clock) (Raise RecursionError :: alerting_lines) warm_world
  = (Some 1, printed (FatalError RecursionError) warm_world) ∧
  parse_log_line (Raise ValueError) = Raise ValueError ∧
  run (runtime_of steady_clock) (Raise ValueError :: alerting_lines) warm_world
  = (Some 1, printed (FatalError ValueError) warm_world) ∧
  parse_log_line (Raise JSONDecodeError) = Return JNull ∧
  handle_line (runtime_of steady_clock) (Raise JSONDecodeError) warm_world
  = (Return (), warm_world).
Proof. repeat split. Qed.

(** A line that is not a JSON object leaves the whole state as it was,
    whether it is skipped or ends the watcher. *)
Lemma line_without_object_keeps_state (rt : Runtime) (w : World) (l : line) :
  (∀ d, l ≠ Return (JDict d)) → snd (handle_line rt l w) = w.
Proof.
  intros Hl. unfold handle_line. munfold.
  destruct l as [entry|e]; simpl.
  - destruct (truthy entry); [|done].
    rewrite process_log_entry_not_dict; [done|]. intros d ->. by destruct (Hl d).
  - by destruct (isinstance e JSONDecodeError).
Qed.

(** Claim C9.  An entry whose pool is absent, null, empty, "-" or "unknown" is
    consumed without any effect: [process_log_entry] returns at once and the
    state, in particular the window, the last pool and both cooldown
    timestamps, is the state before. *)
Theorem untracked_pool_changes_nothing (rt : Runtime) (w : World)
    (d : gmap string json) :
  d !! "pool" = None ∨ d !! "pool" = Some JNull ∨ d !! "pool" = Some (JStr EmptyString) ∨
  d !! "pool" = Some (JStr "-") ∨ d !! "pool" = Some (JStr "unknown") →
  process_log_entry rt (JDict d) w = (Return (), w) ∧
  handle_line rt (Return (JDict d)) w = (Return (), w) ∧
  tracked (snd (handle_line rt (Return (JDict d)) w)) = tracked w.
Proof.
  intros H.
  assert (Hu : untracked_pool (default (JStr "unknown") (d !! "pool")) = true)
    by (destruct H as [->|[->|[->|[->| ->]]]]; reflexivity).
  assert (Hp : process_log_entry rt (JDict d) w = (Return (), w))
    by (by apply process_log_entry_untracked).
  assert (Hh : handle_line rt (Return (JDict d)) w = (Return (), w)).
  { unfold handle_line. munfold. simpl. destruct (negb _); [exact Hp|done]. }
  split; [done|]. split; [done|]. by rewrite Hh.
Qed.

(** A 500 from the pool "-" does not reach the window. *)
Lemma untracked_pool_witness :
  handle_line (runtime_of steady_clock)
    (Return (JDict (<["pool" := JStr "-"]> (<["status" := JInt 500]> ∅)))) warm_world
  = (Return (), warm_world).
Proof.
  refine (proj1 (proj2 (untracked_pool_changes_nothing (runtime_of steady_clock)
            warm_world (<["pool" := JStr "-"]> (<["status" := JInt 500]> ∅)) _))).
  right. right. right. left. reflexivity.
Defined.

(** ** Cooldown under maintenance mode (C10) *)

(** Claim C10.  In maintenance mode an alert condition that fires still
    starts the cooldown: [last_failover_alert] (resp. [last_error_alert])
    becomes the current time and the alert is counted, with no webhook call;
    the tracked state is the one the live watcher would reach.  If the flag
    is then cleared, a condition arising within the cooldown makes no call
    and no alert. *)
Theorem maintenance_mode_still_starts_cooldown (rt : Runtime) (w : World)
    (previous pool later : string) :
  let cd := inject_Z (cooldown (self w)) in
  let now := time_time rt (clock_reads w) in
  let live := with_self (set_maintenance_mode false) w in
  maintenance_mode (self w) = true →
  (last_pool (self w) = Some previous → pool ≠ previous →
   (cd < now - last_failover_alert (self w))%Q →
   let w' := snd (check_failover rt pool w) in
   let resumed := with_self (set_maintenance_mode false) w' in
   last_failover_alert (self w') = now ∧
   network w' = network w ∧
   failover_alerts w' = S (failover_alerts w) ∧
   tracked w' = tracked (snd (check_failover rt pool live)) ∧
   (later ≠ pool →
    (time_time rt (clock_reads resumed) - now <= cd)%Q →
    network (snd (check_failover rt later resumed)) = network resumed ∧
    failover_alerts (snd (check_failover rt later resumed)) = failover_alerts resumed)) ∧
  ((10 ≤ deque_len (request_window (self w)))%nat →
   (error_threshold (self w) < error_rate_of (request_window (self w)))%Q →
   (cd < now - last_error_alert (self w))%Q →
   let w' := snd (check_error_rate rt w) in
   let resumed := with_self (set_maintenance_mode false) w' in
   last_error_alert (self w') = now ∧
   network w' = network w ∧
   error_rate_alerts w' = S (error_rate_alerts w) ∧
   tracked w' = tracked (snd (check_error_rate rt live)) ∧
   ((time_time rt (clock_reads resumed) - now <= cd)%Q →
    network (snd (check_error_rate rt resumed)) = network resumed ∧
    error_rate_alerts (snd (check_error_rate rt resumed)) = error_rate_alerts resumed)).
Proof.
  intros cd now live Hm. split.
  - intros Hp Hne Hcd w' resumed.
    destruct (check_failover_alerted rt previous pool w Hp Hne Hcd)
      as (Hs & Hc & _ & Hn).
    destruct (check_failover_alerted rt previous pool live Hp Hne Hcd)
      as (Hs' & _).
    fold w' in Hs, Hc, Hn. destruct (Hn Hm) as [Hnet _].
    split; [by rewrite Hs|]. split; [done|].
    split; [unfold failover_alerts; rewrite Hc, String.eqb_refl; lia|].
    split; [unfold tracked; by rewrite Hs, Hs'|].
    intros Hl Hin.
    rewrite (check_failover_muted rt pool later resumed); [done| |done|].
    + unfold resumed; simpl. by rewrite Hs.
    + unfold resumed at 2 3; simpl. rewrite Hs. exact Hin.
  - intros Hlen Hth Hcd w' resumed.
    destruct (check_error_rate_alerted rt w Hlen Hth Hcd) as (Hs & Hc & Hn).
    destruct (check_error_rate_alerted rt live Hlen Hth Hcd) as (Hs' & _).
    fold w' in Hs, Hc, Hn. destruct (Hn Hm) as [Hnet _].
    split; [by rewrite Hs|]. split; [done|].
    split; [unfold error_rate_alerts; rewrite Hc, String.eqb_refl; lia|].
    split; [unfold tracked; by rewrite Hs, Hs'|].
    intros Hin.
    assert (Hlen' : (10 ≤ deque_len (request_window (self resumed)))%nat)
      by (unfold resumed; simpl; by rewrite Hs).
    rewrite (check_error_rate_warm rt resumed Hlen'). simpl.
    destruct (Qgt_bool (error_rate_of _) _); [|done].
    assert (Hq : Qgt_bool (time_time rt (clock_reads w') - last_error_alert (self w'))
                   (inject_Z (cooldown (self w'))) = false).
    { apply Qgt_bool_false_iff. rewrite Hs. exact Hin. }
    by rewrite Hq.
Qed.

(** A failover and an error-rate alert under maintenance mode. *)
Lemma maintenance_cooldown_witness :
  last_failover_alert (self (snd (check_failover (runtime_of flapping_clock) "green"
                                    quiet_blue_world))) = flapping_clock 0 ∧
  network (snd (check_failover (runtime_of flapping_clock) "blue"
     (with_self (set_maintenance_mode false)
        (snd (check_failover (runtime_of flapping_clock) "green" quiet_blue_world))))) = [] ∧
  last_error_alert (self (snd (check_error_rate (runtime_of flapping_clock)
                                 quiet_warm_world))) = flapping_clock 0 ∧
  network (snd (check_error_rate (runtime_of flapping_clock)
     (with_self (set_maintenance_mode false)
        (snd (check_error_rate (runtime_of flapping_clock) quiet_warm_world))))) = [].
Proof.
  destruct (maintenance_mode_still_starts_cooldown (runtime_of flapping_clock)
              quiet_blue_world "blue" "green" "blue") as [H _]; [reflexivity|].
  destruct H as (H1 & _ & _ & _ & H5); [reflexivity|discriminate|reflexivity|].
  destruct H5 as [H5 _]; [discriminate|vm_compute; discriminate|].
  destruct (maintenance_mode_still_starts_cooldown (runtime_of flapping_clock)
              quiet_warm_world "blue" "green" "blue") as [_ H]; [reflexivity|].
  destruct H as (H6 & _ & _ & _ & H7); [vm_compute; lia|reflexivity|reflexivity|].
  destruct H7 as [H7 _]; [vm_compute; discriminate|].
  exact (conj H1 (conj H5 (conj H6 H7))).
Defined.

(** * Further properties *)

(** ** The two checks, case by case *)

Section Cases.
Variable rt : Runtime.

Lemma send_slack_alert_live title msg color fields w :
  maintenance_mode (self w) = false →
  send_slack_alert rt title msg color fields w =
    (Return (),
     printed (report_of title (requests_post rt (length (network w))))
       (posted (request_of rt title msg color fields w) (ticked w))).
Proof.
  intros H. unfold send_slack_alert. munfold. rewrite H. simpl.
  unfold report_of.
  destruct (requests_post rt (length (network w))) as [code|]; [|done].
  by destruct (code =? 200).
Qed.

Lemma send_slack_alert_clock title msg color fields w :
  (clock_reads w ≤ clock_reads (snd (send_slack_alert rt title msg color fields w)))%nat.
Proof.
  destruct (maintenance_mode (self w)) eqn:H.
  - rewrite send_slack_alert_maintenance by done. done.
  - rewrite send_slack_alert_live by done. simpl. lia.
Qed.

(** The four ways [check_failover] can go. *)
Lemma check_failover_cases pool w :
  let w' := snd (check_failover rt pool w) in
  (last_pool (self w) = None ∧
     w' = printed (InitialPool pool) (with_self (set_last_pool pool) w)) ∨
  (last_pool (self w) = Some pool ∧ w' = w) ∨
  (∃ previous, last_pool (self w) = Some previous ∧ pool ≠ previous ∧
     (time_time rt (clock_reads w) - last_failover_alert (self w) <=
        inject_Z (cooldown (self w)))%Q ∧
     w' = with_self (set_last_pool pool) (ticked w)) ∨
  (∃ previous, last_pool (self w) = Some previous ∧ pool ≠ previous ∧
     (inject_Z (cooldown (self w)) <
        time_time rt (clock_reads w) - last_failover_alert (self w))%Q ∧
     w' = with_self (set_last_pool pool)
            (with_self (set_last_failover_alert (time_time rt (clock_reads w)))
               (snd (send_slack_alert rt failover_title
                       (TrafficSwitched previous pool) "warning"
                       (failover_fields previous pool)
                       (printed (FailoverLine previous pool) (ticked w)))))).
Proof.
  intros w'. subst w'.
  destruct (last_pool (self w)) as [previous|] eqn:H.
  - destruct (decide (pool = previous)) as [->|Hne].
    + right; left. by rewrite check_failover_same.
    + destruct (Qlt_le_dec (inject_Z (cooldown (self w)))
                  (time_time rt (clock_reads w) - last_failover_alert (self w)))
        as [Hlt|Hle].
      * right; right; right. exists previous.
        rewrite (check_failover_changed rt previous) by done. simpl.
        pose proof Hlt as Hb. apply Qgt_bool_iff in Hb. by rewrite Hb.
      * right; right; left. exists previous.
        by rewrite (check_failover_muted rt previous pool w H Hne Hle).
  - left. by rewrite check_failover_first.
Qed.

(** The three ways [check_error_rate] can go. *)
Lemma check_error_rate_cases w :
  let w' := snd (check_error_rate rt w) in
  let d := request_window (self w) in
  (((deque_len d < 10)%nat ∨ (error_rate_of d <= error_threshold (self w))%Q) ∧
     w' = w) ∨
  ((10 ≤ deque_len d)%nat ∧ (error_threshold (self w) < error_rate_of d)%Q ∧
     (time_time rt (clock_reads w) - last_error_alert (self w) <=
        inject_Z (cooldown (self w)))%Q ∧
     w' = ticked w) ∨
  ((10 ≤ deque_len d)%nat ∧ (error_threshold (self w) < error_rate_of d)%Q ∧
     (inject_Z (cooldown (self w)) <
        time_time rt (clock_reads w) - last_error_alert (self w))%Q ∧
     w' = with_self (set_last_error_alert (time_time rt (clock_reads w)))
            (snd (send_slack_alert rt error_rate_title
                    (ErrorRateIs (error_rate_of d) (error_threshold (self w)))
                    "danger" (error_rate_fields (self w))
                    (printed (HighErrorRate (error_rate_of d)) (ticked w))))).
Proof.
  intros w' d. subst w'.
  destruct (Nat.lt_ge_cases (deque_len d) 10) as [Hlt|Hge].
  { left. split; [by left|]. by rewrite check_error_rate_cold. }
  rewrite check_error_rate_warm by done. simpl. fold d.
  destruct (Qlt_le_dec (error_threshold (self w)) (error_rate_of d)) as [Hth|Hth].
  - pose proof Hth as Hb. apply Qgt_bool_iff in Hb. rewrite Hb.
    destruct (Qlt_le_dec (inject_Z (cooldown (self w)))
                (time_time rt (clock_reads w) - last_error_alert (self w)))
      as [Hcd|Hcd].
    + right; right. pose proof Hcd as Hc. apply Qgt_bool_iff in Hc. by rewrite Hc.
    + right; left. pose proof Hcd as Hc. apply Qgt_bool_false_iff in Hc. by rewrite Hc.
  - left. split; [by right|]. pose proof Hth as Hb.
    apply Qgt_bool_false_iff in Hb. by rewrite Hb.
Qed.

End Cases.

(** ** Invariants of a run *)

(** A relation between the states before and after, kept by every line. *)
Section RunInvariant.
Variable rt : Runtime.
Variable R : World → World → Prop.
Hypothesis R_refl : ∀ w, R w w.
Hypothesis R_trans : ∀ w1 w2 w3, R w1 w2 → R w2 w3 → R w1 w3.
Hypothesis R_record : ∀ e p z u t r w,
  R w (with_self (window_append z) (printed (LogLine e p z u t r) w)).
Hypothesis R_failover : ∀ pool w, R w (snd (check_failover rt pool w)).
Hypothesis R_error_rate : ∀ w, R w (snd (check_error_rate rt w)).

Lemma process_log_entry_keeps entry w : R w (snd (process_log_entry rt entry w)).
Proof.
  destruct (process_log_entry_cases rt entry w)
    as [[e ->]|[[_ ->]|(d & z & p & u & r & _ & _ & _ & _ & _ & _ & _ & ->)]];
    try apply R_refl.
  eapply R_trans; [|apply R_error_rate].
  eapply R_trans; [|apply R_failover].
  apply R_record.
Qed.

Lemma handle_line_keeps l w : R w (snd (handle_line rt l w)).
Proof.
  unfold handle_line. munfold.
  destruct (parse_log_line l) as [entry|e]; simpl; [|apply R_refl].
  destruct (truthy entry); [apply process_log_entry_keeps|apply R_refl].
Qed.

Lemma tail_log_keeps lines w : R w (snd (tail_log rt lines w)).
Proof.
  revert w. induction lines as [|l rest IH]; intros w; simpl; [apply R_refl|].
  munfold. pose proof (handle_line_keeps l w) as Hl.
  destruct (handle_line rt l w) as [[[]|e] w1]; simpl in *; [|done].
  eapply R_trans; [exact Hl|apply IH].
Qed.

End RunInvariant.

(** ** One alert per cooldown window *)

Section Debounce.
Variable rt : Runtime.
Variable w0 : World.
Variable bound : nat.
Hypothesis Hspan : ∀ n k, (clock_reads w0 ≤ k)%nat → (k ≤ n)%nat → (n < bound)%nat →
  (time_time rt n - time_time rt k <= inject_Z (cooldown (self w0)))%Q.

Lemma debounced_refl w : debounced rt w0 bound w w.
Proof. unfold debounced. repeat split; auto. Qed.

Lemma debounced_trans w1 w2 w3 :
  debounced rt w0 bound w1 w2 → debounced rt w0 bound w2 w3 →
  debounced rt w0 bound w1 w3.
Proof.
  intros (Hc1 & Hd1 & H1) (Hc2 & Hd2 & H2).
  split; [lia|]. split; [congruence|].
  intros Hb H0 Hcd.
  destruct H1 as [F1 E1]; [lia|done|done|].
  destruct H2 as [F2 E2]; [lia|lia|congruence|].
  split; auto.
Qed.

(** A step that sends nothing and keeps the two timestamps. *)
Lemma debounced_quiet w w' :
  (clock_reads w ≤ clock_reads w')%nat →
  cooldown (self w') = cooldown (self w) →
  last_failover_alert (self w') = last_failover_alert (self w) →
  last_error_alert (self w') = last_error_alert (self w) →
  (∀ t, alerts_dispatched t w' = alerts_dispatched t w) →
  debounced rt w0 bound w w'.
Proof.
  intros Hc Hd Hf He Ha. split; [done|]. split; [done|].
  intros _ _ _. unfold cooled. rewrite !Ha, Hf, He.
  split; (intros [?|(? & k & ? & ? & ?)]; [by left|right; split; [done|]];
          exists k; split; [done|]; split; [lia|done]).
Qed.

Lemma debounced_record e p z u t r w :
  debounced rt w0 bound w (with_self (window_append z) (printed (LogLine e p z u t r) w)).
Proof.
  apply debounced_quiet; try done.
  intros t'. rewrite alerts_dispatched_with_self.
  by apply alerts_dispatched_printed.
Qed.

Lemma debounced_failover pool w :
  debounced rt w0 bound w (snd (check_failover rt pool w)).
Proof.
  destruct (check_failover_cases rt pool w)
    as [[_ ->]|[[_ ->]|[(previous & _ & _ & _ & ->)|(previous & Hp & Hne & Hlt & Hw)]]].
  - apply debounced_quiet; try done.
    intros t. rewrite alerts_dispatched_printed by done.
    apply alerts_dispatched_with_self.
  - apply debounced_refl.
  - apply debounced_quiet; simpl; try done; lia.
  - destruct (check_failover_alerted rt previous pool w Hp Hne Hlt) as (Hs & Hc & _ & _).
    assert (Hclock : (S (clock_reads w) ≤ clock_reads (snd (check_failover rt pool w)))%nat).
    { rewrite Hw. simpl.
      match goal with |- context [send_slack_alert rt ?t ?m ?c ?f ?w1] =>
        pose proof (send_slack_alert_clock rt t m c f w1) as Hk end.
      simpl in Hk. exact Hk. }
    split; [lia|]. split; [by rewrite Hs|].
    intros Hb H0 Hcd. unfold cooled. rewrite !Hc, Hs. simpl.
    split.
    + intros [Hn|(_ & k & Hk0 & Hk & Hst)].
      * right. split; [rewrite Hn; lia|].
        exists (clock_reads w). split; [done|]. split; [lia|done].
      * exfalso. rewrite Hst, Hcd in Hlt.
        apply (Qlt_not_le _ _ Hlt). apply Hspan; lia.
    + replace (alerts_dispatched error_rate_title w + 0)%nat
        with (alerts_dispatched error_rate_title w) by lia.
      intros [?|(? & k & ? & ? & ?)]; [by left|right; split; [done|]].
      exists k. split; [done|]. split; [lia|done].
Qed.

Lemma debounced_error_rate w :
  debounced rt w0 bound w (snd (check_error_rate rt w)).
Proof.
  destruct (check_error_rate_cases rt w)
    as [[_ ->]|[(_ & _ & _ & ->)|(Hlen & Hth & Hlt & Hw)]].
  - apply debounced_refl.
  - apply debounced_quiet; simpl; try done; lia.
  - destruct (check_error_rate_alerted rt w Hlen Hth Hlt) as (Hs & Hc & _).
    assert (Hclock : (S (clock_reads w) ≤ clock_reads (snd (check_error_rate rt w)))%nat).
    { rewrite Hw. simpl.
      match goal with |- context [send_slack_alert rt ?t ?m ?c ?f ?w1] =>
        pose proof (send_slack_alert_clock rt t m c f w1) as Hk end.
      simpl in Hk. exact Hk. }
    split; [lia|]. split; [by rewrite Hs|].
    intros Hb H0 Hcd. unfold cooled. rewrite !Hc, Hs. simpl.
    split.
    + replace (alerts_dispatched failover_title w + 0)%nat
        with (alerts_dispatched failover_title w) by lia.
      intros [?|(? & k & ? & ? & ?)]; [by left|right; split; [done|]].
      exists k. split; [done|]. split; [lia|done].
    + intros [Hn|(_ & k & Hk0 & Hk & Hst)].
      * right. split; [rewrite Hn; lia|].
        exists (clock_reads w). split; [done|]. split; [lia|done].
      * exfalso. rewrite Hst, Hcd in Hlt.
        apply (Qlt_not_le _ _ Hlt). apply Hspan; lia.
Qed.

Lemma tail_log_debounced lines w :
  debounced rt w0 bound w (snd (tail_log rt lines w)).
Proof.
  apply tail_log_keeps.
  - apply debounced_refl.
  - apply debounced_trans.
  - apply debounced_record.
  - apply debounced_failover.
  - apply debounced_error_rate.
Qed.

End Debounce.

(** When all the clock readings of a run lie within one cooldown of each
    other, the run dispatches at most one failover alert and at most one
    error-rate alert, however long the error rate stays high and however
    often the pool flips. *)
Theorem one_alert_per_cooldown_window (rt : Runtime) (lines : list line) (w : World) :
  let w' := snd (tail_log rt lines w) in
  (∀ n k, (clock_reads w ≤ k)%nat → (k ≤ n)%nat → (n < clock_reads w')%nat →
     (time_time rt n - time_time rt k <= inject_Z (cooldown (self w)))%Q) →
  (failover_alerts w ≤ failover_alerts w' ≤ S (failover_alerts w))%nat ∧
  (error_rate_alerts w ≤ error_rate_alerts w' ≤ S (error_rate_alerts w))%nat.
Proof.
  intros w' Hspan.
  destruct (tail_log_debounced rt w (clock_reads w') Hspan lines w) as (_ & _ & H).
  fold w' in H. destruct H as [HF HE]; [done|done|done|].
  unfold failover_alerts, error_rate_alerts.
  split.
  - destruct HF as [->|[-> _]]; [by left|lia|lia].
  - destruct HE as [->|[-> _]]; [by left|lia|lia].
Qed.

(** Twenty-two entries in eighteen seconds, the error rate above the
    threshold from the tenth on. *)
Lemma one_alert_per_cooldown_witness :
  (error_rate_alerts (snd (tail_log (runtime_of steady_clock)
      (alerting_lines ++ alerting_lines) (start (watcher_with 200 false)))) ≤ 1)%nat.
Proof.
  refine (proj2 (proj2 (one_alert_per_cooldown_window (runtime_of steady_clock)
            (alerting_lines ++ alerting_lines) (start (watcher_with 200 false)) _))).
  intros n k _ Hk Hn.
  assert (Hr : clock_reads (snd (tail_log (runtime_of steady_clock)
            (alerting_lines ++ alerting_lines) (start (watcher_with 200 false)))) = 18%nat)
    by (vm_compute; reflexivity).
  rewrite Hr in Hn.
  unfold runtime_of, steady_clock; simpl. unfold Qle, Qminus, Qplus, Qopp; simpl. lia.
Defined.

(** ** Delivery *)

Lemma lines_of_printed f m w :
  lines_of f (printed m w) = (lines_of f w + if f m then 1 else 0)%nat.
Proof.
  unfold lines_of; simpl. rewrite filter_app, length_app, filter_cons, filter_nil.
  destruct (f m); simpl; repeat case_decide; simpl; try done; lia.
Qed.

Lemma calls_of_app title xs ys :
  calls_of title (xs ++ ys) = (calls_of title xs + calls_of title ys)%nat.
Proof. unfold calls_of. by rewrite filter_app, length_app. Qed.

Lemma calls_of_one title r :
  calls_of title [r] = if is_call title r then 1%nat else 0%nat.
Proof.
  unfold calls_of. rewrite filter_cons, filter_nil.
  destruct (is_call title r); simpl; repeat case_decide; simpl; done.
Qed.

Lemma report_of_kind title r :
  is_report (report_of title r) = true ∧
  is_failover_line (report_of title r) = false ∧
  is_high_error_line (report_of title r) = false.
Proof. destruct r as [code|]; simpl; [by destruct (code =? 200)|done]. Qed.

Section Delivery.
Variable rt : Runtime.

Lemma delivered_refl w : delivered w w.
Proof.
  intros H. split; [done|]. split; [done|]. exists [].
  split; [by rewrite app_nil_r|]. split; [constructor|]. by repeat split.
Qed.

Lemma delivered_trans w1 w2 w3 : delivered w1 w2 → delivered w2 w3 → delivered w1 w3.
Proof.
  intros H1 H2 Hm.
  destruct (H1 Hm) as (Hm2 & Hu2 & n1 & Hn1 & Hf1 & Ha1 & Hb1 & Hc1).
  destruct (H2 Hm2) as (Hm3 & Hu3 & n2 & Hn2 & Hf2 & Ha2 & Hb2 & Hc2).
  split; [done|]. split; [congruence|]. exists (n1 ++ n2).
  split; [by rewrite Hn2, Hn1, app_assoc|].
  split; [|rewrite !calls_of_app, length_app; lia].
  apply Forall_app. split; [done|].
  eapply Forall_impl; [exact Hf2|]. intros r. unfold to_webhook. by rewrite Hu2.
Qed.

(** A step that neither sends nor announces nor touches the
    configuration. *)
Lemma delivered_quiet w w' :
  maintenance_mode (self w') = maintenance_mode (self w) →
  slack_webhook (self w') = slack_webhook (self w) →
  network w' = network w →
  (∀ f, (f = is_failover_line ∨ f = is_high_error_line ∨ f = is_report) →
        lines_of f w' = lines_of f w) →
  delivered w w'.
Proof.
  intros Hm Hu Hn Ha H. split; [congruence|]. split; [done|]. exists [].
  split; [by rewrite app_nil_r|]. split; [constructor|].
  rewrite !Ha by auto. by repeat split.
Qed.

Lemma delivered_record e p z u t r w :
  delivered w (with_self (window_append z) (printed (LogLine e p z u t r) w)).
Proof.
  apply delivered_quiet; try done.
  intros f [->|[->| ->]]; unfold lines_of; simpl;
    rewrite filter_app, length_app, filter_cons, filter_nil; simpl;
    repeat case_decide; simpl; try done; lia.
Qed.

Lemma delivered_failover pool w : delivered w (snd (check_failover rt pool w)).
Proof.
  destruct (check_failover_cases rt pool w)
    as [[_ ->]|[[_ ->]|[(previous & _ & _ & _ & ->)|(previous & Hp & Hne & Hlt & Hw)]]].
  - apply delivered_quiet; try done.
    intros f [->|[->| ->]]; unfold lines_of; simpl;
      rewrite filter_app, length_app, filter_cons, filter_nil; simpl;
      repeat case_decide; simpl; try done; lia.
  - apply delivered_refl.
  - by apply delivered_quiet.
  - intros Hm.
    destruct (check_failover_alerted rt previous pool w Hp Hne Hlt) as (Hs & _).
    rewrite send_slack_alert_live in Hw by done.
    split; [by rewrite Hs|]. split; [by rewrite Hs|].
    eexists [_]. split; [by rewrite Hw|].
    split; [constructor; [|constructor]; repeat split; by left|].
    rewrite Hw, !calls_of_one. cbn [snd]. unfold lines_of at 2 4 6.
    cbn [stdout with_self printed posted ticked].
    destruct (report_of_kind failover_title
                (requests_post rt (length (network (printed (FailoverLine previous pool)
                                                      (ticked w))))))
      as (R1 & R2 & R3).
    rewrite !filter_app, !length_app, !filter_cons, !filter_nil.
    rewrite R1, R2, R3. unfold lines_of. simpl.
    repeat case_decide; simpl; try done; lia.
Qed.

Lemma delivered_error_rate w : delivered w (snd (check_error_rate rt w)).
Proof.
  destruct (check_error_rate_cases rt w)
    as [[_ ->]|[(_ & _ & _ & ->)|(Hlen & Hth & Hlt & Hw)]].
  - apply delivered_refl.
  - by apply delivered_quiet.
  - intros Hm.
    destruct (check_error_rate_alerted rt w Hlen Hth Hlt) as (Hs & _).
    rewrite send_slack_alert_live in Hw by done.
    split; [by rewrite Hs|]. split; [by rewrite Hs|].
    eexists [_]. split; [by rewrite Hw|].
    split; [constructor; [|constructor]; repeat split; by right|].
    rewrite Hw, !calls_of_one. cbn [snd]. unfold lines_of at 2 4 6.
    cbn [stdout with_self printed posted ticked].
    destruct (report_of_kind error_rate_title
                (requests_post rt (length (network
                   (printed (HighErrorRate (error_rate_of (request_window (self w))))
                      (ticked w))))))
      as (R1 & R2 & R3).
    rewrite !filter_app, !length_app, !filter_cons, !filter_nil.
    rewrite R1, R2, R3. unfold lines_of. simpl.
    repeat case_decide; simpl; try done; lia.
Qed.

End Delivery.

(** With maintenance mode off a run makes exactly one webhook call for
    each alert it announces on [stdout], whatever the webhook answers: one
    call with the failover title for each failover line, one with the
    error-rate title for each high-error-rate line, no other call, and one
    line reporting the answer for each call.  A failed delivery is not
    tried again.  Every call goes to the configured URL with a timeout of
    5 s. *)
Theorem live_run_posts_once_per_alert (rt : Runtime) (lines : list line) (w : World) :
  maintenance_mode (self w) = false →
  let w' := snd (tail_log rt lines w) in
  ∃ new, network w' = network w ++ new ∧
         Forall (to_webhook (self w)) new ∧
         (calls_of failover_title new + lines_of is_failover_line w =
          lines_of is_failover_line w')%nat ∧
         (calls_of error_rate_title new + lines_of is_high_error_line w =
          lines_of is_high_error_line w')%nat ∧
         (length new + lines_of is_report w = lines_of is_report w')%nat ∧
         length new = (calls_of failover_title new + calls_of error_rate_title new)%nat.
Proof.
  intros Hm w'.
  assert (H : delivered w w').
  { apply tail_log_keeps.
    - apply delivered_refl.
    - apply delivered_trans.
    - apply delivered_record.
    - apply delivered_failover.
    - apply delivered_error_rate. }
  destruct (H Hm) as (_ & _ & new & Hn & Hf & Ha & Hb & Hc).
  exists new. repeat (split; [done|]).
  clear -Hf. induction Hf as [|r new Hr _ IH]; [done|].
  change (r :: new) with ([r] ++ new).
  rewrite !calls_of_app, !calls_of_one, length_app, IH. simpl.
  destruct Hr as (_ & _ & _ & [Ht|Ht]); unfold is_call; rewrite Ht; simpl; lia.
Qed.

(** The run of [alerting_lines] on a fresh watcher whose webhook always
    fails: two alerts announced, two calls. *)
Lemma live_run_witness :
  ∃ new, network (snd (tail_log
                         (with_webhook (λ _, PostRaised) (runtime_of steady_clock))
                         alerting_lines (start (watcher_with 200 false)))) = [] ++ new ∧
         length new = 2%nat ∧
         calls_of failover_title new = 1%nat ∧
         calls_of error_rate_title new = 1%nat.
Proof.
  destruct (live_run_posts_once_per_alert
              (with_webhook (λ _, PostRaised) (runtime_of steady_clock)) alerting_lines
              (start (watcher_with 200 false)))
    as (new & Hn & _ & Ha & Hb & Hc & Hd); [reflexivity|].
  exists new. split; [exact Hn|].
  assert (E1 : lines_of is_failover_line (snd (tail_log
               (with_webhook (λ _, PostRaised) (runtime_of steady_clock))
               alerting_lines (start (watcher_with 200 false)))) = 1%nat)
    by (vm_compute; reflexivity).
  assert (E2 : lines_of is_high_error_line (snd (tail_log
               (with_webhook (λ _, PostRaised) (runtime_of steady_clock))
               alerting_lines (start (watcher_with 200 false)))) = 1%nat)
    by (vm_compute; reflexivity).
  rewrite E1 in Ha. rewrite E2 in Hb.
  change (lines_of is_failover_line (start (watcher_with 200 false))) with 0%nat in Ha.
  change (lines_of is_high_error_line (start (watcher_with 200 false))) with 0%nat in Hb.
  rewrite Nat.add_0_r in Ha, Hb. rewrite Hd, Ha, Hb.
  split; [reflexivity|]. split; reflexivity.
Defined.

(** ** The answers of the webhook *)

Section Transport.
Variable rt : Runtime.
Variable answers : nat → post_result.

Lemma send_slack_alert_sim title msg color fields w1 w2 :
  same_but_stdout w1 w2 →
  same_but_stdout (snd (send_slack_alert rt title msg color fields w1))
                  (snd (send_slack_alert (with_webhook answers rt) title msg color fields w2)).
Proof.
  intros (Hs & Hc & Hn).
  destruct (maintenance_mode (self w1)) eqn:Hm.
  - rewrite !send_slack_alert_maintenance by congruence. by repeat split.
  - rewrite !send_slack_alert_live by congruence.
    unfold same_but_stdout, request_of; simpl. by rewrite Hs, Hc, Hn.
Qed.

Lemma same_but_stdout_with_self f w1 w2 :
  same_but_stdout w1 w2 → same_but_stdout (with_self f w1) (with_self f w2).
Proof. intros (Hs & Hc & Hn). unfold same_but_stdout; simpl. by rewrite Hs. Qed.

Lemma same_but_stdout_printed m1 m2 w1 w2 :
  same_but_stdout w1 w2 → same_but_stdout (printed m1 w1) (printed m2 w2).
Proof. done. Qed.

Lemma same_but_stdout_ticked w1 w2 :
  same_but_stdout w1 w2 → same_but_stdout (ticked w1) (ticked w2).
Proof. intros (Hs & Hc & Hn). unfold same_but_stdout; simpl. by rewrite Hc. Qed.

Lemma check_failover_sim pool w1 w2 :
  same_but_stdout w1 w2 →
  same_but_stdout (snd (check_failover rt pool w1)) (snd (check_failover (with_webhook answers rt) pool w2)).
Proof.
  intros Hsim. pose proof Hsim as (Hs & Hc & Hn).
  destruct (last_pool (self w1)) as [previous|] eqn:H.
  - destruct (decide (pool = previous)) as [->|Hne].
    + rewrite !check_failover_same by congruence. done.
    + rewrite !(check_failover_changed _ previous) by congruence. simpl.
      rewrite <- Hs, <- Hc.
      destruct (Qgt_bool _ _).
      * do 2 apply same_but_stdout_with_self. apply send_slack_alert_sim.
        by apply same_but_stdout_printed, same_but_stdout_ticked.
      * by apply same_but_stdout_with_self, same_but_stdout_ticked.
  - rewrite !check_failover_first by congruence.
    by apply same_but_stdout_printed, same_but_stdout_with_self.
Qed.

Lemma check_error_rate_sim w1 w2 :
  same_but_stdout w1 w2 →
  same_but_stdout (snd (check_error_rate rt w1)) (snd (check_error_rate (with_webhook answers rt) w2)).
Proof.
  intros Hsim. pose proof Hsim as (Hs & Hc & Hn).
  destruct (Nat.lt_ge_cases (deque_len (request_window (self w1))) 10) as [Hlt|Hge].
  - rewrite !check_error_rate_cold by congruence. done.
  - rewrite !check_error_rate_warm by congruence. simpl. rewrite <- Hs, <- Hc.
    destruct (Qgt_bool (error_rate_of _) _); [|done].
    destruct (Qgt_bool _ _).
    + apply same_but_stdout_with_self. apply send_slack_alert_sim.
      by apply same_but_stdout_printed, same_but_stdout_ticked.
    + by apply same_but_stdout_ticked.
Qed.

Lemma process_log_entry_sim entry w1 w2 :
  same_but_stdout w1 w2 →
  fst (process_log_entry rt entry w1) = fst (process_log_entry (with_webhook answers rt) entry w2) ∧
  same_but_stdout (snd (process_log_entry rt entry w1))
                  (snd (process_log_entry (with_webhook answers rt) entry w2)).
Proof.
  intros Hsim.
  destruct entry as [| | | | | |d];
    try (rewrite !process_log_entry_not_dict by done; by split).
  destruct (untracked_pool (default (JStr "unknown") (d !! "pool"))) eqn:H1.
  { rewrite !process_log_entry_untracked by done. by split. }
  assert (Hco : coerce_status (with_webhook answers rt) (default (JInt 0) (d !! "status")) =
                coerce_status rt (default (JInt 0) (d !! "status"))) by reflexivity.
  assert (Hso : stdout_errors (with_webhook answers rt) = stdout_errors rt) by reflexivity.
  destruct (coerce_status rt (default (JInt 0) (d !! "status"))) as [z|e] eqn:H2;
  [destruct (format_s (default (JStr "unknown") (d !! "pool"))) as [p|e] eqn:H3;
   [destruct (format_s (default (JStr "-") (d !! "upstream_status"))) as [u|e] eqn:H4;
    [destruct (slice_to 50 (default (JStr "-") (d !! "request"))) as [r|e] eqn:H5;
     [destruct (stdout_write (stdout_errors rt)
                  [p; u; shown (default (JInt 0) (d !! "request_time")); shown r])
        as [[]|e] eqn:H6|]|]|]|].
  - rewrite !(process_log_entry_tracked _ d _ z p u r) by done.
    split; [by rewrite !check_error_rate_returns|].
    apply check_error_rate_sim, check_failover_sim.
    by apply same_but_stdout_with_self, same_but_stdout_printed.
  - unfold process_log_entry. munfold. cbn [entry_get]. cbv beta iota.
    rewrite H1, Hco, Hso, H2, H3, H4, H5, H6. by split.
  - unfold process_log_entry. munfold. cbn [entry_get]. cbv beta iota.
    rewrite H1, Hco, H2, H3, H4, H5. by split.
  - unfold process_log_entry. munfold. cbn [entry_get]. cbv beta iota.
    rewrite H1, Hco, H2, H3, H4. by split.
  - unfold process_log_entry. munfold. cbn [entry_get]. cbv beta iota.
    rewrite H1, Hco, H2, H3. by split.
  - unfold process_log_entry. munfold. cbn [entry_get]. cbv beta iota.
    rewrite H1, Hco, H2. by split.
Qed.

Lemma handle_line_sim l w1 w2 :
  same_but_stdout w1 w2 →
  fst (handle_line rt l w1) = fst (handle_line (with_webhook answers rt) l w2) ∧
  same_but_stdout (snd (handle_line rt l w1)) (snd (handle_line (with_webhook answers rt) l w2)).
Proof.
  intros Hsim. unfold handle_line. munfold.
  destruct (parse_log_line l) as [entry|e]; simpl; [|by split].
  destruct (truthy entry); [by apply process_log_entry_sim|by split].
Qed.

Lemma tail_log_sim lines w1 w2 :
  same_but_stdout w1 w2 →
  fst (tail_log rt lines w1) = fst (tail_log (with_webhook answers rt) lines w2) ∧
  same_but_stdout (snd (tail_log rt lines w1)) (snd (tail_log (with_webhook answers rt) lines w2)).
Proof.
  revert w1 w2. induction lines as [|l rest IH]; intros w1 w2 Hsim; simpl; [by split|].
  munfold. destruct (handle_line_sim l w1 w2 Hsim) as [Hf Hw].
  destruct (handle_line rt l w1) as [[[]|e1] v1];
    destruct (handle_line (with_webhook answers rt) l w2) as [[[]|e2] v2]; simpl in *; try done.
  by apply IH.
Qed.

End Transport.

(** The answers of the webhook (200, an error status, an exception) have
    no effect on the run: the outcome, the watcher's attributes, the calls
    made and the clock readings taken are the same under any other
    answers; only the lines printed differ. *)
Theorem webhook_answers_do_not_steer (rt : Runtime) (answers : nat → post_result)
    (lines : list line) (w : World) :
  let r := tail_log rt lines w in
  let r' := tail_log (with_webhook answers rt) lines w in
  fst r = fst r' ∧
  self (snd r) = self (snd r') ∧
  network (snd r) = network (snd r') ∧
  clock_reads (snd r) = clock_reads (snd r').
Proof.
  intros r r'.
  assert (Hsim : same_but_stdout w w) by (unfold same_but_stdout; auto).
  destruct (tail_log_sim rt answers lines w w Hsim) as (Hf & Hs & Hc & Hn).
  unfold same_but_stdout in *. auto.
Qed.

(** ** Lines that are fatal, lines that are recorded *)

Section Outcome.
Variable rt : Runtime.

(** Whether an entry gets through does not depend on the state. *)
Lemma process_log_entry_fst entry w1 w2 :
  fst (process_log_entry rt entry w1) = fst (process_log_entry rt entry w2).
Proof.
  destruct (process_log_entry_cases rt entry w1)
    as [[e H1]|[[(d & -> & Hu) H1]|(d & z & p & u & r & -> & Hu & H2 & H3 & H4 & H5 & H6 & H1)]].
  - destruct (process_log_entry_cases rt entry w2)
      as [[e' H2]|[[(d & -> & Hu) H2]|(d & z & p & u & r & -> & Hu & E2 & E3 & E4 & E5 & E6 & H2)]].
    + rewrite H1, H2. simpl.
      (* the same exception: both runs fail at the same step *)
      revert H1 H2. unfold process_log_entry. munfold.
      destruct entry as [| | | | | |d]; simpl; try (intros [= <-] [= <-]; done).
      destruct (untracked_pool _); [done|].
      destruct (coerce_status rt _); [|by intros [= <-] [= <-]].
      destruct (format_s (default (JStr "unknown") (d !! "pool"))); [|by intros [= <-] [= <-]].
      destruct (format_s (default (JStr "-") (d !! "upstream_status")));
        [|by intros [= <-] [= <-]].
      destruct (slice_to 50 _); [|by intros [= <-] [= <-]].
      destruct (stdout_write _ _) as [[]|]; [|by intros [= <-] [= <-]].
      match goal with |- context [check_failover rt ?p ?w0] =>
        pose proof (check_failover_returns rt p w0) as Hr;
        destruct (check_failover rt p w0) as [[[]|x] w'] end; simpl in *; [|done].
      intros Hc. pose proof (check_error_rate_returns rt w') as Hq.
      rewrite Hc in Hq. done.
    + exfalso. rewrite process_log_entry_untracked in H1 by done. done.
    + exfalso. rewrite (process_log_entry_tracked rt d w1 z p u r) in H1 by done.
      pose proof (check_error_rate_returns rt
        (snd (check_failover rt p (with_self (window_append z)
           (printed (LogLine (emoji_of z) p z u
              (default (JInt 0) (d !! "request_time")) r) w1))))) as Hq.
      rewrite H1 in Hq. done.
  - rewrite H1, process_log_entry_untracked by done. done.
  - rewrite H1, (process_log_entry_tracked rt d w2 z p u r) by done.
    by rewrite !check_error_rate_returns.
Qed.

Lemma handle_line_fst l w1 w2 :
  fst (handle_line rt l w1) = fst (handle_line rt l w2).
Proof.
  unfold handle_line. munfold.
  destruct (parse_log_line l) as [entry|e]; simpl; [|done].
  destruct (truthy entry); [apply process_log_entry_fst|done].
Qed.

End Outcome.

(** Whether a line ends the watcher does not depend on the state the
    watcher is in.  A line that is not [fatal_line] is gone through; under
    the strict error handler of [sys.stdout] a [fatal_line] raises (under
    another handler a line that is fatal only for a lone surrogate may
    pass).  Whenever the body of the loop raises, the state is untouched:
    nothing printed, nothing recorded. *)
Theorem fatal_lines_are_decided_by_the_line (rt : Runtime) (l : line) (w v : World) :
  fst (handle_line rt l w) = fst (handle_line rt l v) ∧
  (fatal_line l = false → fst (handle_line rt l w) = Return ()) ∧
  (stdout_errors rt = Strict → fatal_line l = true →
   ∃ e, handle_line rt l w = (Raise e, w)) ∧
  (∀ e, fst (handle_line rt l w) = Raise e → handle_line rt l w = (Raise e, w)).
Proof.
  split; [apply handle_line_fst|]. split; [apply handle_line_returns|].
  split; [apply handle_line_strict|]. intros e. apply handle_line_raises.
Qed.

(** A line holding a JSON string, and an entry with a lone surrogate. *)
Lemma fatal_lines_witness :
  (∃ e, handle_line (runtime_of steady_clock) (Return (JStr "GET / HTTP/1.1")) warm_world
        = (Raise e, warm_world)) ∧
  (∃ e, handle_line (runtime_of steady_clock) (Return surrogate_entry) warm_world
        = (Raise e, warm_world)) ∧
  fst (handle_line (runtime_of steady_clock) (Return (entry_of "blue" 200)) warm_world)
  = Return ().
Proof.
  split; [|split].
  - apply (fatal_lines_are_decided_by_the_line (runtime_of steady_clock)
             (Return (JStr "GET / HTTP/1.1")) warm_world warm_world); reflexivity.
  - apply (fatal_lines_are_decided_by_the_line (runtime_of steady_clock)
             (Return surrogate_entry) warm_world warm_world); reflexivity.
  - apply (fatal_lines_are_decided_by_the_line (runtime_of steady_clock)
             (Return (entry_of "blue" 200)) warm_world warm_world); reflexivity.
Defined.

(** [run] keeps going as long as no line is fatal.  At the first line on
    which the body of the loop raises, it prints the error and exits with
    status 1, in the state the lines before it have left: the lines after
    it are never read.  Under the strict error handler of [sys.stdout]
    that line is the first [fatal_line]. *)
Theorem run_stops_at_first_fatal_line (rt : Runtime) (before after : list line)
    (l : line) (w : World) :
  let w1 := snd (tail_log rt before w) in
  (Forall (λ l, fatal_line l = false) before → run rt before w = (None, w1)) ∧
  (∀ e, fst (tail_log rt before w) = Return () →
        fst (handle_line rt l w1) = Raise e →
        run rt (before ++ l :: after) w = (Some 1, printed (FatalError e) w1)) ∧
  (stdout_errors rt = Strict →
   Forall (λ l, fatal_line l = false) before → fatal_line l = true →
   ∃ e, run rt (before ++ l :: after) w = (Some 1, printed (FatalError e) w1)).
Proof.
  intros w1.
  assert (Hstop : ∀ e, fst (tail_log rt before w) = Return () →
            handle_line rt l w1 = (Raise e, w1) →
            run rt (before ++ l :: after) w = (Some 1, printed (FatalError e) w1)).
  { intros e Hb Hl. unfold run. rewrite tail_log_app. subst w1.
    destruct (tail_log rt before w) as [[[]|x] w1]; [|done]. simpl in *.
    munfold. by rewrite Hl. }
  split; [|split].
  - intros Hb. pose proof (tail_log_returns rt before w Hb) as Hr.
    unfold run. subst w1. by destruct (tail_log rt before w) as [[[]|e] w1].
  - intros e Hb Hl. apply Hstop; [done|]. by apply handle_line_raises.
  - intros Hs Hb Hl.
    destruct (handle_line_strict rt l w1 Hs Hl) as [e He].
    exists e. apply Hstop; [|done]. by apply tail_log_returns.
Qed.

(** A JSON list after three entries. *)
Lemma run_stops_witness :
  run (runtime_of steady_clock)
    (three_lines ++ Return (JList [JInt 1]) :: alerting_lines)
    (start (watcher_with 200 false))
  = (Some 1, printed (FatalError AttributeError)
               (snd (tail_log (runtime_of steady_clock) three_lines
                       (start (watcher_with 200 false))))).
Proof.
  apply (run_stops_at_first_fatal_line (runtime_of steady_clock) three_lines
           alerting_lines (Return (JList [JInt 1])) (start (watcher_with 200 false))).
  - reflexivity.
  - reflexivity.
Defined.

(** After a run without a fatal line the window holds the last [maxlen]
    of its former statuses followed by the statuses of the tracked entries,
    in the order of the lines; skipped lines and untracked pools add
    nothing. *)
Theorem window_holds_last_recorded_statuses (rt : Runtime) (lines : list line)
    (w : World) :
  let d := request_window (self w) in
  let d' := request_window (self (snd (tail_log rt lines w))) in
  let all := items d ++ omap (recorded_status rt) lines in
  Forall (λ l, fatal_line l = false) lines →
  (deque_len d ≤ maxlen d)%nat →
  maxlen d' = maxlen d ∧
  items d' = drop (length all - maxlen d) all.
Proof.
  intros d d' all Hl Hd. unfold d'. rewrite tail_log_window by done.
  split; [apply foldl_deque_append_maxlen|by apply foldl_deque_append_from].
Qed.

(** Three entries, an entry of the pool "-" and an undecodable line
    through a window of two. *)
Lemma window_holds_witness :
  items (request_window (self (snd (tail_log (runtime_of steady_clock)
           (three_lines ++ [Return (entry_of "-" 500); Raise JSONDecodeError])
           (start (watcher_with 2 false)))))) = [503; 200].
Proof.
  refine (proj2 (window_holds_last_recorded_statuses (runtime_of steady_clock)
            (three_lines ++ [Return (entry_of "-" 500); Raise JSONDecodeError])
            (start (watcher_with 2 false)) _ _)).
  - repeat constructor.
  - vm_compute. lia.
Defined.

(** ** What a check and a line can do *)

Section Summaries.
Variable rt : Runtime.

Lemma send_slack_alert_network title msg color fields w :
  (length (network w) ≤
     length (network (snd (send_slack_alert rt title msg color fields w))) ≤
     S (length (network w)))%nat ∧
  (clock_reads (snd (send_slack_alert rt title msg color fields w)) ≤
     S (clock_reads w))%nat.
Proof.
  destruct (maintenance_mode (self w)) eqn:H.
  - rewrite send_slack_alert_maintenance by done. simpl. lia.
  - rewrite send_slack_alert_live by done. simpl. rewrite length_app. simpl. lia.
Qed.

(** The whole effect of [check_failover] on what the watcher tracks. *)
Lemma check_failover_summary pool w :
  let w' := snd (check_failover rt pool w) in
  let changed := match last_pool (self w) with
                 | Some previous => negb (String.eqb pool previous)
                 | None => false
                 end in
  let now := time_time rt (clock_reads w) in
  let due := Qgt_bool (now - last_failover_alert (self w))
                      (inject_Z (cooldown (self w))) in
  failover_alerts w' = (failover_alerts w + if changed && due then 1 else 0)%nat ∧
  error_rate_alerts w' = error_rate_alerts w ∧
  last_failover_alert (self w') =
    (if changed && due then now else last_failover_alert (self w)) ∧
  last_error_alert (self w') = last_error_alert (self w) ∧
  request_window (self w') = request_window (self w) ∧
  (changed = false → clock_reads w' = clock_reads w) ∧
  (length (network w) ≤ length (network w') ≤
     length (network w) + if changed && due then 1 else 0)%nat ∧
  (clock_reads w ≤ clock_reads w' ≤ clock_reads w + 2)%nat.
Proof.
  intros w' changed now due. subst w' changed now due.
  destruct (check_failover_cases rt pool w)
    as [[Hp ->]|[[Hp ->]|[(previous & Hp & Hne & Hle & ->)|(previous & Hp & Hne & Hlt & Hw)]]];
    rewrite Hp.
  - unfold failover_alerts, error_rate_alerts.
    rewrite !alerts_dispatched_printed, !alerts_dispatched_with_self by done.
    simpl. repeat split; lia.
  - rewrite String.eqb_refl. simpl. repeat split; lia.
  - apply String.eqb_neq in Hne. rewrite Hne. simpl.
    apply Qgt_bool_false_iff in Hle. rewrite Hle. simpl.
    unfold failover_alerts, error_rate_alerts.
    rewrite !alerts_dispatched_with_self, !alerts_dispatched_ticked.
    repeat split; try done; lia.
  - destruct (check_failover_alerted rt previous pool w Hp Hne Hlt) as (Hs & Hc & _ & _).
    apply String.eqb_neq in Hne. rewrite Hne. simpl.
    pose proof Hlt as Hb. apply Qgt_bool_iff in Hb. rewrite Hb.
    unfold failover_alerts, error_rate_alerts. rewrite !Hc, Hs. simpl.
    match type of Hw with context [send_slack_alert rt ?t ?m ?c ?f ?w1] =>
      pose proof (send_slack_alert_network t m c f w1) as [Hn Hk];
      pose proof (send_slack_alert_clock rt t m c f w1) as Hk'
    end.
    rewrite Hw. simpl in *.
    repeat split; try done; lia.
Qed.

(** The whole effect of [check_error_rate] on what the watcher tracks. *)
Lemma check_error_rate_summary w :
  let w' := snd (check_error_rate rt w) in
  let d := request_window (self w) in
  let high := negb (deque_len d <? 10)%nat &&
              Qgt_bool (error_rate_of d) (error_threshold (self w)) in
  let now := time_time rt (clock_reads w) in
  let due := Qgt_bool (now - last_error_alert (self w))
                      (inject_Z (cooldown (self w))) in
  error_rate_alerts w' = (error_rate_alerts w + if high && due then 1 else 0)%nat ∧
  failover_alerts w' = failover_alerts w ∧
  last_error_alert (self w') =
    (if high && due then now else last_error_alert (self w)) ∧
  last_failover_alert (self w') = last_failover_alert (self w) ∧
  last_pool (self w') = last_pool (self w) ∧
  request_window (self w') = request_window (self w) ∧
  (high = false → w' = w) ∧
  (length (network w) ≤ length (network w') ≤
     length (network w) + if high && due then 1 else 0)%nat ∧
  (clock_reads w ≤ clock_reads w' ≤ clock_reads w + 2)%nat.
Proof.
  intros w' d high now due. subst w' d high now due.
  destruct (check_error_rate_cases rt w)
    as [[Hq ->]|[(Hlen & Hth & Hle & ->)|(Hlen & Hth & Hlt & Hw)]].
  - assert (Hh : negb (deque_len (request_window (self w)) <? 10)%nat &&
                 Qgt_bool (error_rate_of (request_window (self w)))
                          (error_threshold (self w)) = false).
    { simpl in Hq. destruct Hq as [Hq|Hq].
      - apply Nat.ltb_lt in Hq. by rewrite Hq.
      - apply Qgt_bool_false_iff in Hq. rewrite Hq. by destruct (negb _). }
    rewrite Hh. simpl. repeat split; lia.
  - apply Nat.ltb_ge in Hlen. rewrite Hlen. apply Qgt_bool_iff in Hth. rewrite Hth.
    apply Qgt_bool_false_iff in Hle. rewrite Hle. simpl.
    unfold failover_alerts, error_rate_alerts. rewrite !alerts_dispatched_ticked.
    repeat split; try done; lia.
  - destruct (check_error_rate_alerted rt w Hlen Hth Hlt) as (Hs & Hc & _).
    apply Nat.ltb_ge in Hlen. rewrite Hlen. apply Qgt_bool_iff in Hth. rewrite Hth.
    pose proof Hlt as Hb. apply Qgt_bool_iff in Hb. rewrite Hb.
    unfold failover_alerts, error_rate_alerts. rewrite !Hc, Hs. simpl.
    match type of Hw with context [send_slack_alert rt ?t ?m ?c ?f ?w1] =>
      pose proof (send_slack_alert_network t m c f w1) as [Hn Hk];
      pose proof (send_slack_alert_clock rt t m c f w1) as Hk'
    end.
    rewrite Hw. simpl in *.
    repeat split; try done; lia.
Qed.

End Summaries.

Section Extra.
Variable rt : Runtime.

(** What one line leaves behind: nothing, or a record followed by the two
    checks. *)
Lemma handle_line_shape l w :
  snd (handle_line rt l w) = w ∨
  ∃ e p z u t r,
    snd (handle_line rt l w) =
      snd (check_error_rate rt
             (snd (check_failover rt p
                     (with_self (window_append z)
                        (printed (LogLine e p z u t r) w))))).
Proof.
  unfold handle_line. munfold.
  destruct (parse_log_line l) as [entry|e]; simpl; [|by left].
  destruct (truthy entry); [|by left].
  destruct (process_log_entry_cases rt entry w)
    as [[e ->]|[[_ ->]|(d & z & p & u & r & _ & _ & _ & _ & _ & _ & _ & ->)]];
    [by left|by left|].
  right. eauto 10.
Qed.

End Extra.

(** [check_failover] dispatches one alert, and stamps
    [last_failover_alert] with the clock, exactly when the pool differs from
    a pool seen before and more than [cooldown] has passed since the last
    failover alert.  It reads the clock only on a change (once more for the
    payload when the alert is sent for real) and never touches the window
    or the error-rate alerts and their timestamp. *)
Theorem failover_alert_exactly_when_due (rt : Runtime) (pool : string) (w : World) :
  let w' := snd (check_failover rt pool w) in
  let changed := match last_pool (self w) with
                 | Some previous => negb (String.eqb pool previous)
                 | None => false
                 end in
  let now := time_time rt (clock_reads w) in
  let due := Qgt_bool (now - last_failover_alert (self w))
                      (inject_Z (cooldown (self w))) in
  failover_alerts w' = (failover_alerts w + if changed && due then 1 else 0)%nat ∧
  last_failover_alert (self w') =
    (if changed && due then now else last_failover_alert (self w)) ∧
  clock_reads w' = (clock_reads w + if changed then
                      (if due && negb (maintenance_mode (self w)) then 2 else 1)
                    else 0)%nat ∧
  error_rate_alerts w' = error_rate_alerts w ∧
  last_error_alert (self w') = last_error_alert (self w) ∧
  request_window (self w') = request_window (self w).
Proof.
  intros w' changed now due.
  destruct (check_failover_summary rt pool w) as (H1 & H2 & H3 & H4 & H5 & H6 & _).
  repeat split; try done.
  subst w' changed now due.
  destruct (check_failover_cases rt pool w)
    as [[Hp ->]|[[Hp ->]|[(previous & Hp & Hne & Hle & ->)|(previous & Hp & Hne & Hlt & Hw)]]];
    rewrite Hp.
  - simpl. lia.
  - rewrite String.eqb_refl. simpl. lia.
  - apply String.eqb_neq in Hne. rewrite Hne. simpl.
    apply Qgt_bool_false_iff in Hle. rewrite Hle. simpl. lia.
  - apply String.eqb_neq in Hne. rewrite Hne. simpl.
    apply Qgt_bool_iff in Hlt. rewrite Hlt. simpl. rewrite Hw. simpl.
    destruct (maintenance_mode (self w)) eqn:Hm.
    + rewrite send_slack_alert_maintenance by done. simpl. lia.
    + rewrite send_slack_alert_live by done. simpl. lia.
Qed.

(** The error rate is a percentage, between 0 and 100 for every window;
    so with a threshold of 100 or more no run ever dispatches an error-rate
    alert or moves [last_error_alert]. *)
Theorem threshold_of_100_never_alerts (rt : Runtime) (lines : list line) (w : World) :
  (∀ d, (0 <= error_rate_of d <= 100)%Q) ∧
  ((100 <= error_threshold (self w))%Q →
   let w' := snd (tail_log rt lines w) in
   error_rate_alerts w' = error_rate_alerts w ∧
   last_error_alert (self w') = last_error_alert (self w)).
Proof.
  split; [apply error_rate_of_bounds|]. intros Hth w'.
  set (R := λ v v' : World,
         (100 <= error_threshold (self v))%Q →
         error_threshold (self v') = error_threshold (self v) ∧
         error_rate_alerts v' = error_rate_alerts v ∧
         last_error_alert (self v') = last_error_alert (self v)).
  assert (H : R w w').
  { apply tail_log_keeps.
    - intros v _. done.
    - intros v1 v2 v3 H1 H2 Hv. destruct (H1 Hv) as (E1 & A1 & L1).
      destruct H2 as (E2 & A2 & L2); [by rewrite E1|].
      repeat split; congruence.
    - intros e p z u t r v _. split; [done|]. split; [|done].
      unfold error_rate_alerts. rewrite alerts_dispatched_with_self.
      by apply alerts_dispatched_printed.
    - intros pool v _.
      destruct (check_failover_summary rt pool v) as (_ & H2 & _ & H4 & _).
      destruct (check_failover_ok rt pool v) as ((_ & He & _) & _). done.
    - intros v Hv.
      destruct (check_error_rate_summary rt v) as (_ & _ & _ & _ & _ & _ & Hq & _).
      rewrite Hq; [done|].
      assert (Hb : Qgt_bool (error_rate_of (request_window (self v)))
                     (error_threshold (self v)) = false).
      { apply Qgt_bool_false_iff.
        destruct (error_rate_of_bounds (request_window (self v))) as [_ Hle].
        eapply Qle_trans; [exact Hle|exact Hv]. }
      rewrite Hb. by destruct (negb _). }
  by destruct (H Hth) as (_ & Ha & Hl).
Qed.

(** Twelve 503s against a threshold of 100. *)
Lemma threshold_of_100_witness :
  error_rate_alerts (snd (tail_log (runtime_of steady_clock)
     (replicate 12 (Return (entry_of "blue" 503))) (start (watcher_at 100)))) = 0%nat.
Proof.
  refine (proj1 (proj2 (threshold_of_100_never_alerts (runtime_of steady_clock)
            (replicate 12 (Return (entry_of "blue" 503))) (start (watcher_at 100))) _)).
  vm_compute. discriminate.
Defined.

(** One line dispatches at most one failover alert and at most one
    error-rate alert, makes at most as many webhook calls as alerts (at
    most two) and reads the clock at most four times; the counts never go
    down. *)
Theorem line_alerts_at_most_once_each (rt : Runtime) (l : line) (w : World) :
  let w' := snd (handle_line rt l w) in
  (failover_alerts w ≤ failover_alerts w' ≤ S (failover_alerts w))%nat ∧
  (error_rate_alerts w ≤ error_rate_alerts w' ≤ S (error_rate_alerts w))%nat ∧
  (length (network w) ≤ length (network w') ≤ length (network w) + 2)%nat ∧
  (length (network w') - length (network w) ≤
     (failover_alerts w' - failover_alerts w) +
     (error_rate_alerts w' - error_rate_alerts w))%nat ∧
  (clock_reads w ≤ clock_reads w' ≤ clock_reads w + 4)%nat.
Proof.
  intros w'. subst w'.
  destruct (handle_line_shape rt l w) as [->|(e & p & z & u & t & r & ->)]; [lia|].
  set (w0 := with_self (window_append z) (printed (LogLine e p z u t r) w)).
  assert (H0 : failover_alerts w0 = failover_alerts w ∧
               error_rate_alerts w0 = error_rate_alerts w ∧
               network w0 = network w ∧ clock_reads w0 = clock_reads w).
  { unfold failover_alerts, error_rate_alerts, w0.
    rewrite !alerts_dispatched_with_self, !alerts_dispatched_printed by done. done. }
  destruct H0 as (F0 & E0 & N0 & C0).
  destruct (check_failover_summary rt p w0) as (F1 & E1 & _ & _ & _ & _ & N1 & C1).
  set (w1 := snd (check_failover rt p w0)) in *.
  destruct (check_error_rate_summary rt w1) as (E2 & F2 & _ & _ & _ & _ & _ & N2 & C2).
  set (w2 := snd (check_error_rate rt w1)) in *.
  rewrite <- F0, <- E0, <- N0, <- C0.
  destruct (_ && _) in F1, N1; destruct (_ && _) in E2, N2; lia.
Qed.

(** The failover check runs before the error-rate check: when a tracked
    entry sets off an error-rate alert, [last_pool] is already the pool of
    that entry, and the alert's "Current Pool" field names it, also when
    the same entry is a failover. *)
Theorem error_alert_reports_entry_pool (rt : Runtime) (d : gmap string json)
    (p : string) (w : World) :
  let w' := snd (process_log_entry rt (JDict d) w) in
  d !! "pool" = Some (JStr p) →
  untracked_pool (JStr p) = false →
  processable d = true →
  maintenance_mode (self w) = false →
  error_rate_alerts w' = S (error_rate_alerts w) →
  last_pool (self w') = Some p ∧
  ∃ req fields,
    last (network w') = Some req ∧
    p_title (r_json req) = error_rate_title ∧
    p_fields (r_json req) = Some fields ∧
    fields !! 3%nat =
      Some {| f_title := "Current Pool"; f_value := Plain p; f_short := true |}.
Proof.
  intros w' Hd Hu Hp Hm Ha.
  assert (H1 : untracked_pool (default (JStr "unknown") (d !! "pool")) = false)
    by (by rewrite Hd).
  destruct (processable_tracked rt d H1 Hp)
    as (z & p' & u & r & H2 & Hp' & H3 & H4 & H5 & H6).
  rewrite Hd in Hp'. simpl in Hp'. injection Hp' as <-.
  subst w'. rewrite (process_log_entry_tracked rt d w z p u r) in * by done.
  set (w0 := with_self (window_append z) (printed _ w)) in *.
  assert (E0 : error_rate_alerts w0 = error_rate_alerts w).
  { unfold error_rate_alerts, w0.
    by rewrite alerts_dispatched_with_self, alerts_dispatched_printed. }
  destruct (check_failover_summary rt p w0) as (_ & E1 & _).
  pose proof (check_failover_last_pool rt p w0) as L1.
  destruct (check_failover_ok rt p w0) as ((_ & _ & _ & _ & M1) & _).
  set (w1 := snd (check_failover rt p w0)) in *.
  assert (Hm1 : maintenance_mode (self w1) = false) by (by rewrite M1).
  destruct (check_error_rate_summary rt w1) as (_ & _ & _ & _ & L2 & _).
  split; [by rewrite L2|].
  destruct (check_error_rate_cases rt w1)
    as [[_ Hw]|[(_ & _ & _ & Hw)|(_ & _ & _ & Hw)]].
  - rewrite Hw in Ha. lia.
  - rewrite Hw in Ha. unfold error_rate_alerts in *.
    rewrite alerts_dispatched_ticked in Ha. lia.
  - rewrite send_slack_alert_live in Hw by done. rewrite Hw. simpl.
    eexists _, _. split; [apply last_snoc|]. split; [done|]. split; [done|].
    simpl. rewrite L1. simpl.
    destruct (String.eqb p EmptyString) eqn:E; [|done].
    apply String.eqb_eq in E. subst p. done.
Qed.

(** A 503 from "green" over a window on "blue" that is already at 10%. *)
Lemma error_alert_witness :
  ∃ req fields,
    last (network (snd (process_log_entry (runtime_of steady_clock)
                          (entry_of "green" 503)
                          (with_self (set_last_pool "blue") warm_world)))) = Some req ∧
    p_title (r_json req) = error_rate_title ∧
    p_fields (r_json req) = Some fields ∧
    fields !! 3%nat =
      Some {| f_title := "Current Pool"; f_value := Plain "green"; f_short := true |}.
Proof.
  refine (proj2 (error_alert_reports_entry_pool (runtime_of steady_clock)
            (<["pool" := JStr "green"]> (<["status" := JInt 503]> ∅)) "green"
            (with_self (set_last_pool "blue") warm_world) _ _ _ _ _)).
  - reflexivity.
  - reflexivity.
  - reflexivity.
  - reflexivity.
  - vm_compute. reflexivity.
Defined.



(** ** The start of [tail_log] *)

Lemma await_content_rounds fs j : ∀ budget t,
  (j ≤ budget)%nat →
  let wait_time := max_wait - 2 * Z.of_nat j in
  let r := await_content fs budget wait_time t in
  let polls := (getsize_calls (snd r) - getsize_calls t)%nat in
  r = await_content fs j wait_time t ∧
  wait_time <= fst r <= max_wait ∧
  waited (snd r) = waited t + (fst r - wait_time) ∧
  fst r - wait_time = 2 * (Z.of_nat polls - 1) ∧
  (1 ≤ polls)%nat ∧
  exists_calls (snd r) = exists_calls t ∧
  (∀ k, (k < polls - 1)%nat → getsize fs (getsize_calls t + k) = 0) ∧
  (fst r < max_wait → getsize fs (getsize_calls t + (polls - 1)) ≠ 0).
Proof.
  unfold max_wait. induction j as [|j IH]; intros budget t Hj; simpl.
  - replace (30 - 2 * Z.of_nat 0) with 30 by lia.
    assert (E : await_content fs budget 30 t = (30, polled_size t)).
    { destruct budget; simpl; unfold max_wait;
        by rewrite andb_false_r. }
    rewrite E. simpl. rewrite andb_false_r. simpl.
    repeat split; try lia.
  - destruct budget as [|budget]; [lia|].
    set (wt := 30 - 2 * Z.of_nat (S j)).
    assert (Hwt : wt + 2 = 30 - 2 * Z.of_nat j) by lia.
    simpl. unfold max_wait.
    destruct (getsize fs (getsize_calls t) =? 0) eqn:Hs; simpl.
    + assert (Hlt : (wt <? 30) = true) by (apply Z.ltb_lt; lia).
      rewrite Hlt. rewrite Hwt.
      specialize (IH budget (slept 2 (noted (WaitingForEntry wt) (polled_size t)))
                     ltac:(lia)).
      simpl in IH. unfold max_wait in IH.
      destruct IH as (E & Hb & Hw & Hp & H1 & He & Hz & Hn).
      set (r := await_content fs budget (30 - 2 * Z.of_nat j) _) in *.
      clearbody r. simpl in *.
      split; [exact E|]. split; [lia|]. split; [rewrite Hw; lia|].
      split; [lia|]. split; [lia|]. split; [done|]. split.
      * intros k Hk. destruct k as [|k].
        -- rewrite Nat.add_0_r. by apply Z.eqb_eq.
        -- replace (getsize_calls t + S k)%nat with (S (getsize_calls t + k))%nat by lia.
           apply Hz. lia.
      * intros Hlt'. specialize (Hn Hlt').
        replace (getsize_calls t + (getsize_calls r.2 - getsize_calls t - 1))%nat
          with (S (getsize_calls t + (getsize_calls r.2 - S (getsize_calls t) - 1)))%nat
          by lia.
        exact Hn.
    + cbn [fst snd polled_size getsize_calls waited exists_calls].
      split; [by destruct j|]. split; [lia|]. split; [lia|].
      split; [lia|]. split; [lia|]. split; [done|]. split.
      * intros k Hk. lia.
      * intros _. replace (getsize_calls t + (S (getsize_calls t) - getsize_calls t - 1))%nat
          with (getsize_calls t) by lia.
        by apply Z.eqb_neq.
Qed.

(** The wait for the first content polls the size every 2 s and ends at
    the first poll that sees a size other than 0, or after 30 s: at most 16
    polls and 15 sleeps, every poll but the last having seen an empty file.
    The count-down of the model never runs out: any budget of 15 rounds or
    more gives the same result. *)
Theorem content_wait_is_bounded (fs : Files) (budget : nat) (t : Tailer) :
  (15 ≤ budget)%nat →
  let r := await_content fs budget 0 t in
  let polls := (getsize_calls (snd r) - getsize_calls t)%nat in
  r = await_content fs 15 0 t ∧
  0 <= fst r <= max_wait ∧
  waited (snd r) = waited t + fst r ∧
  fst r = 2 * (Z.of_nat polls - 1) ∧
  (1 ≤ polls ≤ 16)%nat ∧
  (∀ k, (k < polls - 1)%nat → getsize fs (getsize_calls t + k) = 0) ∧
  (fst r < max_wait → getsize fs (getsize_calls t + (polls - 1)) ≠ 0).
Proof.
  intros Hb r polls.
  destruct (await_content_rounds fs 15 budget t Hb) as (E & Hr & Hw & Hp & H1 & _ & Hz & Hn).
  change (max_wait - 2 * Z.of_nat 15) with 0 in *.
  fold r in E, Hr, Hw, Hp, H1, Hz, Hn. fold polls in Hp, H1, Hz, Hn.
  unfold max_wait in *.
  split; [exact E|]. split; [lia|]. split; [rewrite Hw; lia|].
  split; [lia|]. split; [lia|]. split; [exact Hz|exact Hn].
Qed.

(** Content at the fifth poll: 8 s of waiting. *)
Lemma content_wait_witness :
  fst (await_content late_file 20 0 fresh_tailer) = 8.
Proof.
  refine (eq_trans (f_equal fst (proj1 (content_wait_is_bounded late_file 20
            fresh_tailer _))) _).
  - lia.
  - reflexivity.
Defined.

Lemma await_file_found fs path n : ∀ fuel t,
  (∀ k, (k < n)%nat → path_exists fs (exists_calls t + k) = false) →
  path_exists fs (exists_calls t + n) = true →
  (n ≤ fuel)%nat →
  await_file fs path fuel t =
    Some {| notices := notices t ++ replicate n (WaitingForFile path);
            exists_calls := S (exists_calls t + n);
            getsize_calls := getsize_calls t;
            waited := waited t + 2 * Z.of_nat n |}.
Proof.
  induction n as [|n IH]; intros fuel t Hno Hyes Hfuel.
  - rewrite Nat.add_0_r in Hyes.
    destruct fuel; simpl; rewrite Hyes; unfold polled_exists;
      rewrite app_nil_r, Nat.add_0_r, Z.add_0_r; done.
  - destruct fuel as [|fuel]; [lia|]. simpl.
    rewrite <- (Nat.add_0_r (exists_calls t)) at 1. rewrite Hno by lia.
    rewrite (IH fuel).
    + cbn [notices exists_calls getsize_calls waited slept noted polled_exists].
      f_equal. f_equal.
      * by rewrite <- app_assoc.
      * lia.
      * lia.
    + intros k Hk. cbn [exists_calls slept noted polled_exists].
      replace (S (exists_calls t) + k)%nat
        with (exists_calls t + S k)%nat by lia. apply Hno. lia.
    + cbn [exists_calls slept noted polled_exists].
      replace (S (exists_calls t) + n)%nat with (exists_calls t + S n)%nat by lia. done.
    + lia.
Qed.

Lemma await_file_sound fs path fuel : ∀ t t',
  await_file fs path fuel t = Some t' →
  ∃ n, (n ≤ fuel)%nat ∧
       (∀ k, (k < n)%nat → path_exists fs (exists_calls t + k) = false) ∧
       path_exists fs (exists_calls t + n) = true.
Proof.
  induction fuel as [|fuel IH]; intros t t'; simpl.
  - destruct (path_exists fs (exists_calls t)) eqn:E; [|done]. intros _.
    exists 0%nat. rewrite Nat.add_0_r. split; [done|]. split; [intros; lia|done].
  - destruct (path_exists fs (exists_calls t)) eqn:E.
    + intros _. exists 0%nat. rewrite Nat.add_0_r.
      split; [lia|]. split; [intros; lia|done].
    + intros H. apply IH in H as (n & Hn & Hno & Hyes).
      cbn [exists_calls slept noted polled_exists] in *.
      exists (S n). split; [lia|]. split.
      * intros k Hk. destruct k as [|k]; [by rewrite Nat.add_0_r|].
        replace (exists_calls t + S k)%nat with (S (exists_calls t) + k)%nat by lia.
        apply Hno. lia.
      * by replace (exists_calls t + S n)%nat with (S (exists_calls t) + n)%nat by lia.
Qed.

(** The wait for the file polls every 2 s: if the file exists at the
    [n]-th poll for the first time, the wait ends there after [n] sleeps
    and [n] progress lines; it never ends earlier. *)
Theorem file_wait_ends_when_file_exists (fs : Files) (path : string)
    (fuel n : nat) (t : Tailer) :
  (∀ k, (k < n)%nat → path_exists fs (exists_calls t + k) = false) →
  path_exists fs (exists_calls t + n) = true →
  ((n ≤ fuel)%nat →
   await_file fs path fuel t =
     Some {| notices := notices t ++ replicate n (WaitingForFile path);
             exists_calls := S (exists_calls t + n);
             getsize_calls := getsize_calls t;
             waited := waited t + 2 * Z.of_nat n |}) ∧
  ((fuel < n)%nat → await_file fs path fuel t = None).
Proof.
  intros Hno Hyes. split; [by apply await_file_found|].
  intros Hlt. destruct (await_file fs path fuel t) as [t'|] eqn:E; [|done].
  apply await_file_sound in E as (m & Hm & _ & Hyes').
  rewrite Hno in Hyes' by lia. done.
Qed.

(** A file that exists at the third poll. *)
Lemma file_wait_witness :
  await_file late_file "/var/log/nginx/access.log" 5 fresh_tailer =
    Some {| notices := replicate 2 (WaitingForFile "/var/log/nginx/access.log");
            exists_calls := 3; getsize_calls := 0; waited := 4 |} ∧
  await_file late_file "/var/log/nginx/access.log" 1 fresh_tailer = None.
Proof.
  split.
  - refine (proj1 (file_wait_ends_when_file_exists late_file
              "/var/log/nginx/access.log" 5 2 fresh_tailer _ _) _).
    + intros k Hk. destruct k as [|[|k]]; [reflexivity|reflexivity|lia].
    + reflexivity.
    + lia.
  - refine (proj2 (file_wait_ends_when_file_exists late_file
              "/var/log/nginx/access.log" 1 2 fresh_tailer _ _) _).
    + intros k Hk. destruct k as [|[|k]]; [reflexivity|reflexivity|lia].
    + reflexivity.
    + lia.
Defined.

Section Replay.
Variable rt : Runtime.

Lemma handle_line_counted l w :
  handle_line rt l w =
    if counted l then
      match parse_log_line l with
      | Return entry => process_log_entry rt entry w
      | Raise e => (Raise e, w)
      end
    else
      match parse_log_line l with
      | Return _ => (Return (), w)
      | Raise e => (Raise e, w)
      end.
Proof.
  unfold handle_line, counted. munfold.
  destruct (parse_log_line l) as [entry|e]; [|done]. by destruct (truthy entry).
Qed.

Lemma read_existing_lines_as_tail_log lines : ∀ line_count w,
  read_existing_lines rt lines line_count w =
    match tail_log rt lines w with
    | (Return _, w') =>
        (Return (line_count + length (filter (λ l, counted l = true) lines))%nat, w')
    | (Raise e, w') => (Raise e, w')
    end.
Proof.
  induction lines as [|l rest IH]; intros line_count w; simpl.
  - munfold. by rewrite Nat.add_0_r.
  - rewrite filter_cons. munfold. rewrite handle_line_counted.
    destruct (parse_log_line l) as [entry|e] eqn:Hp; simpl;
      [|by destruct (counted l)].
    assert (Hc : counted l = truthy entry) by (unfold counted; by rewrite Hp).
    rewrite Hc. destruct (truthy entry) eqn:Ht; simpl.
    + destruct (process_log_entry rt entry w) as [[[]|x] w1]; [|done].
      rewrite IH. destruct (decide (true = true)); [|done].
      destruct (tail_log rt rest w1) as [[[]|x] w2]; [|done].
      simpl. do 2 f_equal. lia.
    + rewrite IH. destruct (decide (false = true)); [done|].
      by destruct (tail_log rt rest w) as [[[]|x] w2].
Qed.



End Replay.

(** The replay loop treats a line as the following loop does: it leaves
    the state [tail_log] leaves on the same lines, stops at the same fatal
    line, and its [line_count] is the number of lines decoded to a true
    value. *)
Theorem existing_lines_are_read_like_new_ones (rt : Runtime) (lines : list line)
    (w : World) :
  read_existing_lines rt lines 0 w =
    match tail_log rt lines w with
    | (Return _, w') =>
        (Return (length (filter (λ l, counted l = true) lines)), w')
    | (Raise e, w') => (Raise e, w')
    end.
Proof. apply (read_existing_lines_as_tail_log rt lines 0 w). Qed.


